(** * Nexus: the TypeScript gateway in front of the Quivr brain service

    A shallow embedding of the gateway's source: the Zod schemas
    ([types/schemas.ts]), the axios client ([client/quivr-client.ts]), the
    upload and error middleware ([middleware/upload.ts],
    [middleware/error-handler.ts]) and the routes ([routes/brains.ts],
    [routes/health.ts]).  The Python service behind the gateway is a
    parameter of the embedding; the parts of it the specification describes
    and the repository does not contain are modelled from the specification
    in separate modules. *)

From Stdlib Require Import ZArith QArith Qcanon String Ascii List Lia.
From stdpp Require Import base option list gmap sets strings stringmap.

Local Open Scope Z_scope.
Set Warnings "-register-all,-clear-no-such-hyp".

(** ** JavaScript values *)

(** A JavaScript string is a sequence of UTF-16 code units. *)
Abbreviation jsstring := (list Z).

(** The code units of an ASCII literal. *)
Definition js (s : string) : jsstring :=
  (fun a => Z.of_N (N_of_ascii a)) <$> list_ascii_of_string s.
Arguments js : simpl never.

(** A JavaScript number as [JSON.parse] can produce it: a finite double,
    which is a rational, or an infinity (a literal such as [1e999]).  [NaN]
    has no JSON syntax.  Only comparisons are made on numbers. *)
Inductive number :=
| Fin (q : Qc)
| PosInf
| NegInf.

Definition num (z : Z) : number := Fin (Q2Qc (inject_Z z)).

Definition num_le (a b : number) : bool :=
  match a, b with
  | NegInf, _ => true
  | _, PosInf => true
  | Fin p, Fin q => bool_decide (p ≤ q)%Qc
  | _, _ => false
  end.

(** [a < b] *)
Definition num_lt (a b : number) : bool := negb (num_le b a).

(** [Number.isInteger] *)
Definition isInteger (x : number) : bool :=
  match x with
  | Fin q => bool_decide (Qden (this q) = 1%positive)
  | _ => false
  end.

Inductive json :=
| JNull
| JBool (b : bool)
| JNum (x : number)
| JStr (s : jsstring)
| JArr (items : list json)
| JObj (props : list (jsstring * json)).

(** [obj[key]]: [None] is [undefined].  The first binding of a key is the
    property's value. *)
Fixpoint prop (key : jsstring) (props : list (jsstring * json)) : option json :=
  match props with
  | [] => None
  | (k, v) :: rest => if decide (k = key) then Some v else prop key rest
  end.

(** An object literal whose [undefined] properties are left out, as
    [JSON.stringify] does when the response is serialised. *)
Definition object (fields : list (jsstring * option json)) : json :=
  JObj (omap (fun kv => pair kv.1 <$> kv.2) fields).

(** [Array.prototype.includes] on an array of strings *)
Definition includes (xs : list jsstring) (x : jsstring) : bool :=
  bool_decide (x ∈ xs).

(** [Array.prototype.join] *)
Fixpoint join (sep : jsstring) (xs : list jsstring) : jsstring :=
  match xs with
  | [] => []
  | [x] => x
  | x :: rest => x ++ sep ++ join sep rest
  end.

(** ** [path.extname] (Node, POSIX flavour)

    The loop of Node's implementation, scanning the path from its end. *)
Record ExtScan := {
  startDot : Z;
  startPart : Z;
  endIdx : Z;
  matchedSlash : bool;
  preDotState : Z
}.

Definition CHAR_FORWARD_SLASH : Z := 47.
Definition CHAR_DOT : Z := 46.

Fixpoint extname_scan (path : jsstring) (n : nat) (st : ExtScan) : ExtScan :=
  match n with
  | O => st
  | S i =>
    let code := nth i path 0 in
    if code =? CHAR_FORWARD_SLASH then
      if negb (matchedSlash st)
      then {| startDot := startDot st; startPart := Z.of_nat i + 1;
              endIdx := endIdx st; matchedSlash := matchedSlash st;
              preDotState := preDotState st |}
      else extname_scan path i st
    else
      let st1 :=
        if endIdx st =? -1
        then {| startDot := startDot st; startPart := startPart st;
                endIdx := Z.of_nat i + 1; matchedSlash := false;
                preDotState := preDotState st |}
        else st in
      let st2 :=
        if code =? CHAR_DOT then
          if startDot st1 =? -1
          then {| startDot := Z.of_nat i; startPart := startPart st1;
                  endIdx := endIdx st1; matchedSlash := matchedSlash st1;
                  preDotState := preDotState st1 |}
          else if negb (preDotState st1 =? 1)
          then {| startDot := startDot st1; startPart := startPart st1;
                  endIdx := endIdx st1; matchedSlash := matchedSlash st1;
                  preDotState := 1 |}
          else st1
        else if negb (startDot st1 =? -1)
        then {| startDot := startDot st1; startPart := startPart st1;
                endIdx := endIdx st1; matchedSlash := matchedSlash st1;
                preDotState := -1 |}
        else st1 in
      extname_scan path i st2
  end.

(** [String.prototype.slice] for indices within the string *)
Definition slice (s : jsstring) (from to : Z) : jsstring :=
  take (Z.to_nat (to - from)) (drop (Z.to_nat from) s).

Definition extname (path : jsstring) : jsstring :=
  let st := extname_scan path (length path)
              {| startDot := -1; startPart := 0; endIdx := -1;
                 matchedSlash := true; preDotState := 0 |} in
  if (startDot st =? -1) || (endIdx st =? -1) || (preDotState st =? 0)
     || ((preDotState st =? 1) && (startDot st =? endIdx st - 1)
         && (startDot st =? startPart st + 1))
  then []
  else slice path (startDot st) (endIdx st).

(** ** Zod ([types/schemas.ts])

    A schema reads an input that may be [undefined] ([None]) and returns the
    parsed value or the issues found; every check of a field is run, and
    the issues of all fields are collected, as Zod does. *)
Inductive PathElem :=
| Key (k : jsstring)
| Index (i : nat).

Inductive ZodIssueCode :=
| invalid_type
| too_small
| too_big
| invalid_enum_value
| invalid_string.

Record ZodIssue := { code : ZodIssueCode; path : list PathElem }.

Definition Parsed (T : Type) : Type := (list ZodIssue + T)%type.
Definition Schema (T : Type) : Type := list PathElem -> option json -> Parsed T.

Definition issue (c : ZodIssueCode) (p : list PathElem) : ZodIssue :=
  {| code := c; path := p |}.

Definition zmap {A B} (f : A -> B) (x : Parsed A) : Parsed B :=
  match x with
  | inl issues => inl issues
  | inr a => inr (f a)
  end.

Definition zap {A B} (f : Parsed (A -> B)) (x : Parsed A) : Parsed B :=
  match f, x with
  | inr g, inr a => inr (g a)
  | inl i, inl j => inl (i ++ j)
  | inl i, inr _ => inl i
  | inr _, inl j => inl j
  end.

Notation "f <$z> x" := (zmap f x) (at level 61, left associativity).
Notation "f <*z> x" := (zap f x) (at level 61, left associativity).

Definition checked {T} (issues : list ZodIssue) (v : T) : Parsed T :=
  match issues with
  | [] => inr v
  | _ => inl issues
  end.

(** [z.string()] with its checks: [.min(n)], [.max(n)], and the formats
    [.uuid()] and [.datetime()], which test a regular expression. *)
Inductive StringCheck :=
| SMin (n : nat)
| SMax (n : nat)
| SFormat (re : jsstring -> bool).

Definition string_check (p : list PathElem) (s : jsstring) (c : StringCheck)
  : list ZodIssue :=
  match c with
  | SMin n => if (length s <? n)%nat then [issue too_small p] else []
  | SMax n => if (n <? length s)%nat then [issue too_big p] else []
  | SFormat re => if re s then [] else [issue invalid_string p]
  end.

Definition z_string (checks : list StringCheck) : Schema jsstring :=
  fun p input =>
    match input with
    | Some (JStr s) => checked (flat_map (string_check p s) checks) s
    | _ => inl [issue invalid_type p]
    end.

(** [z.number()] with [.int()], [.min(m)] and [.max(m)] *)
Inductive NumberCheck :=
| NInt
| NMin (m : number)
| NMax (m : number).

Definition number_check (p : list PathElem) (x : number) (c : NumberCheck)
  : list ZodIssue :=
  match c with
  | NInt => if isInteger x then [] else [issue invalid_type p]
  | NMin m => if num_lt x m then [issue too_small p] else []
  | NMax m => if num_lt m x then [issue too_big p] else []
  end.

Definition z_number (checks : list NumberCheck) : Schema number :=
  fun p input =>
    match input with
    | Some (JNum x) => checked (flat_map (number_check p x) checks) x
    | _ => inl [issue invalid_type p]
    end.

(** [z.enum([...])] *)
Definition z_enum (values : list jsstring) : Schema jsstring :=
  fun p input =>
    match input with
    | Some (JStr s) =>
      if includes values s then inr s else inl [issue invalid_enum_value p]
    | _ => inl [issue invalid_type p]
    end.

(** [.optional()]: [undefined] is accepted and kept. *)
Definition optional {T} (inner : Schema T) : Schema (option T) :=
  fun p input =>
    match input with
    | None => inr None
    | Some _ => Some <$z> inner p input
    end.

(** [.nullable()]: [null] is accepted and kept. *)
Definition nullable {T} (inner : Schema T) : Schema (option T) :=
  fun p input =>
    match input with
    | Some JNull => inr None
    | _ => Some <$z> inner p input
    end.

(** [.default(d)]: [undefined] is replaced by [d]. *)
Definition default_ {T} (inner : Schema T) (d : T) : Schema T :=
  fun p input =>
    match input with
    | None => inr d
    | Some _ => inner p input
    end.

Fixpoint z_array_items {T} (inner : Schema T) (p : list PathElem) (i : nat)
    (items : list json) : Parsed (list T) :=
  match items with
  | [] => inr []
  | x :: rest =>
    cons <$z> inner (p ++ [Index i]) (Some x)
         <*z> z_array_items inner p (S i) rest
  end.

(** [z.array(inner)] *)
Definition z_array {T} (inner : Schema T) : Schema (list T) :=
  fun p input =>
    match input with
    | Some (JArr items) => z_array_items inner p 0%nat items
    | _ => inl [issue invalid_type p]
    end.

(** [z.object({...})]: the shape reads the properties of the object; keys
    outside the shape are dropped. *)
Definition z_object {T}
    (shape : list PathElem -> list (jsstring * json) -> Parsed T) : Schema T :=
  fun p input =>
    match input with
    | Some (JObj props) => shape p props
    | _ => inl [issue invalid_type p]
    end.

Definition field {T} (key : string) (inner : Schema T)
    (p : list PathElem) (props : list (jsstring * json)) : Parsed T :=
  inner (p ++ [Key (js key)]) (prop (js key) props).

(** [Schema.parse(data)]: the value, or the issues a [ZodError] carries.
    [data] is [None] when it is [undefined]. *)
Definition parse {T} (schema : Schema T) (data : option json) : Parsed T :=
  schema [] data.

(** What the host supplies: [String(v)], the text of a [ZodError]'s message
    (the issues serialised), the regular expressions behind [.uuid()] and
    [.datetime()], and the lower case of a string that has a character
    outside ASCII, by Unicode's tables.  Of these tables one fact is used:
    the lower case of such a string is not made of ASCII characters other
    than [k] (the Kelvin sign, U+212A, is the one character outside ASCII
    whose lower case is in ASCII, and its lower case is [k]). *)
Record Builtins := {
  ToString : json -> jsstring;
  zod_message : list ZodIssue -> jsstring;
  is_uuid : jsstring -> bool;
  is_datetime : jsstring -> bool;
  unicode_lower : jsstring -> jsstring;
  unicode_lower_outside_ascii :
    forall s, Exists (fun c => 128 <= c) s ->
              Exists (fun c => 128 <= c \/ c = 107) (unicode_lower s)
}.

(** [String.prototype.toLowerCase]: the letters A to Z of a string of ASCII
    characters are replaced by a to z; a string with a character outside
    ASCII is put in lower case by the host. *)
Definition ascii_lower (c : Z) : Z :=
  if bool_decide (65 ≤ c ≤ 90) then c + 32 else c.

Definition toLowerCase (B : Builtins) (s : jsstring) : jsstring :=
  if forallb (fun c => c <? 128) s then ascii_lower <$> s
  else unicode_lower B s.

Record BrainCreate := {
  bc_name : jsstring;
  bc_description : option jsstring;
  bc_llm_provider : jsstring;
  bc_model : jsstring
}.

Definition PROVIDERS : list jsstring := [js "anthropic"; js "openai"; js "mistral"].

Definition BrainCreateSchema : Schema BrainCreate :=
  z_object (fun p o =>
    Build_BrainCreate
      <$z> field "name" (z_string [SMin 1; SMax 100]) p o
      <*z> field "description" (optional (z_string [SMax 500])) p o
      <*z> field "llm_provider" (default_ (z_enum PROVIDERS) (js "anthropic")) p o
      <*z> field "model" (default_ (z_string []) (js "claude-3-5-sonnet-20241022")) p o).

Record BrainResponse := {
  br_id : jsstring;
  br_name : jsstring;
  br_description : option jsstring;
  br_llm_provider : jsstring;
  br_model : jsstring;
  br_document_count : number;
  br_created_at : jsstring;
  br_updated_at : jsstring
}.

(** [z.number().int().min(0)], the schema of [document_count] and [total] *)
Definition z_count : Schema number := z_number [NInt; NMin (num 0)].

Definition BrainResponseSchema (B : Builtins) : Schema BrainResponse :=
  z_object (fun p o =>
    Build_BrainResponse
      <$z> field "id" (z_string [SFormat (is_uuid B)]) p o
      <*z> field "name" (z_string []) p o
      <*z> field "description" (nullable (z_string [])) p o
      <*z> field "llm_provider" (z_string []) p o
      <*z> field "model" (z_string []) p o
      <*z> field "document_count" z_count p o
      <*z> field "created_at" (z_string [SFormat (is_datetime B)]) p o
      <*z> field "updated_at" (z_string [SFormat (is_datetime B)]) p o).

Record QueryRequest := {
  question : jsstring;
  max_tokens : number;
  temperature : number
}.

(** The literal [0.7] *)
Definition num_0_7 : number := Fin (Q2Qc (7 # 10)).

Definition QueryRequestSchema : Schema QueryRequest :=
  z_object (fun p o =>
    Build_QueryRequest
      <$z> field "question" (z_string [SMin 1; SMax 2000]) p o
      <*z> field "max_tokens"
             (default_ (z_number [NInt; NMin (num 100); NMax (num 4096)])
                       (num 1024)) p o
      <*z> field "temperature"
             (default_ (z_number [NMin (num 0); NMax (num 1)]) num_0_7) p o).

Record QueryResponse := {
  answer : jsstring;
  sources : list jsstring;
  tokens_used : option number;
  processing_time_ms : number
}.

Definition QueryResponseSchema : Schema QueryResponse :=
  z_object (fun p o =>
    Build_QueryResponse
      <$z> field "answer" (z_string []) p o
      <*z> field "sources" (default_ (z_array (z_string [])) []) p o
      <*z> field "tokens_used" (nullable (z_number [NInt])) p o
      <*z> field "processing_time_ms" (z_number [NInt]) p o).

Record HealthResponse := {
  hr_status : jsstring;
  hr_version : jsstring;
  hr_timestamp : jsstring
}.

Definition HEALTH_STATES : list jsstring := [js "healthy"; js "degraded"; js "unhealthy"].

Definition HealthResponseSchema (B : Builtins) : Schema HealthResponse :=
  z_object (fun p o =>
    Build_HealthResponse
      <$z> field "status" (z_enum HEALTH_STATES) p o
      <*z> field "version" (z_string []) p o
      <*z> field "timestamp" (z_string [SFormat (is_datetime B)]) p o).

Record DocumentMetadata := {
  dm_name : jsstring;
  dm_size : number;
  dm_created_at : jsstring;
  dm_modified_at : jsstring;
  dm_path : jsstring
}.

Definition DocumentMetadataSchema (B : Builtins) : Schema DocumentMetadata :=
  z_object (fun p o =>
    Build_DocumentMetadata
      <$z> field "name" (z_string []) p o
      <*z> field "size" (z_number []) p o
      <*z> field "created_at" (z_string [SFormat (is_datetime B)]) p o
      <*z> field "modified_at" (z_string [SFormat (is_datetime B)]) p o
      <*z> field "path" (z_string []) p o).

(** ** Errors, the world and the effects of a handler *)

(** The errors the gateway distinguishes with [instanceof]: [ZodError],
    [QuivrClientError], and any other [Error] (a [MulterError], a
    [URIError], a file system error). *)
Inductive JsError :=
| ZodError (issues : list ZodIssue)
| QuivrClientError (message : jsstring) (statusCode : option Z)
                   (details : option json)
| Error (message : jsstring).

Definition error_message (B : Builtins) (e : JsError) : jsstring :=
  match e with
  | ZodError issues => zod_message B issues
  | QuivrClientError message _ _ => message
  | Error message => message
  end.

(** A request of the axios instance to the Python service. *)
Inductive Method := GET | POST | DELETE.

Record FormFile := {
  ff_filename : jsstring;
  ff_contentType : jsstring;
  ff_stream : jsstring          (* the path [fs.createReadStream] reads *)
}.

Inductive Payload :=
| NoBody
| JsonBody (data : json)
| FormBody (files : list FormFile).

Record UpRequest := { method : Method; url : jsstring; payload : Payload }.

(** What axios settles a request with: the response data of a 2xx answer,
    or an [AxiosError], whose [response] is absent when no answer came
    (a timeout after 60 s, a refused connection). *)
Record AxiosResponse := { ar_status : Z; ar_data : json }.
Record AxiosError := { ae_message : jsstring; ae_response : option AxiosResponse }.
Definition AxiosResult : Type := (AxiosError + json)%type.

(** The world a handler runs in: the state [S] of the Python service, the
    requests sent to it so far (latest first), the files present in the
    upload directory, the files whose removal fails, the lines written by
    [console.error] (latest first) and the clock. *)
Record World (S : Type) := {
  svc : S;
  sent : list UpRequest;
  disk : gset jsstring;
  busy : gset jsstring;
  console : list jsstring;
  clock : jsstring
}.
Arguments svc {S} _.
Arguments sent {S} _.
Arguments disk {S} _.
Arguments busy {S} _.
Arguments console {S} _.
Arguments clock {S} _.

Inductive Outcome (A : Type) :=
| Return (a : A)
| Throw (e : JsError).
Arguments Return {A} _.
Arguments Throw {A} _.

(** A computation that may throw and acts on the world. *)
Definition M (S A : Type) : Type := World S -> Outcome A * World S.

Definition ret {S A} (a : A) : M S A := fun w => (Return a, w).
Definition throw {S A} (e : JsError) : M S A := fun w => (Throw e, w).

Definition bind {S A B} (m : M S A) (k : A -> M S B) : M S B :=
  fun w =>
    match m w with
    | (Return a, w') => k a w'
    | (Throw e, w') => (Throw e, w')
    end.

(** [try { m } catch (error) { handler error }] *)
Definition try_catch {S A} (m : M S A) (handler : JsError -> M S A) : M S A :=
  fun w =>
    match m w with
    | (Return a, w') => (Return a, w')
    | (Throw e, w') => handler e w'
    end.

Notation "x <- m ;; k" := (bind m (fun x => k))
  (at level 100, m at next level, right associativity).
Notation "m ;;; k" := (bind m (fun _ => k))
  (at level 100, right associativity).

(** [Schema.parse] inside a handler: a failed parse throws a [ZodError]. *)
Definition parse_or_throw {S T} (schema : Schema T) (data : option json) : M S T :=
  match parse schema data with
  | inr v => ret v
  | inl issues => throw (ZodError issues)
  end.

(** [new Date().toISOString()] *)
Definition now {S} : M S jsstring := fun w => (Return (clock w), w).

(** [files.forEach(f)] *)
Fixpoint forEach {S A} (f : A -> M S unit) (xs : list A) : M S unit :=
  match xs with
  | [] => ret tt
  | x :: rest => f x ;;; forEach f rest
  end.

(** ** [encodeURIComponent] and [decodeURIComponent] (ECMA-262, 19.2.6) *)

Definition is_lead (c : Z) : bool := (0xD800 <=? c) && (c <=? 0xDBFF).
Definition is_trail (c : Z) : bool := (0xDC00 <=? c) && (c <=? 0xDFFF).

(** The code units left as they are: letters, digits and [-_.!~*'()]. *)
Definition uriUnreserved (c : Z) : bool :=
  ((65 <=? c) && (c <=? 90)) || ((97 <=? c) && (c <=? 122))
  || ((48 <=? c) && (c <=? 57))
  || bool_decide (c ∈ js "-_.!~*'()").

(** [UTF16SurrogatePairToCodePoint] *)
Definition pair_code_point (lead trail : Z) : Z :=
  (lead - 0xD800) * 0x400 + (trail - 0xDC00) + 0x10000.

(** The UTF-8 octets of a code point *)
Definition utf8 (cp : Z) : list Z :=
  if cp <? 0x80 then [cp]
  else if cp <? 0x800 then [0xC0 + cp / 64; 0x80 + cp mod 64]
  else if cp <? 0x10000 then
    [0xE0 + cp / 4096; 0x80 + (cp / 64) mod 64; 0x80 + cp mod 64]
  else
    [0xF0 + cp / 262144; 0x80 + (cp / 4096) mod 64;
     0x80 + (cp / 64) mod 64; 0x80 + cp mod 64].

Definition PERCENT : Z := 37.

(** An upper-case hexadecimal digit *)
Definition hex_digit (d : Z) : Z := if d <? 10 then 48 + d else 55 + d.

(** ["%XX"] for an octet *)
Definition percent (octet : Z) : jsstring :=
  [PERCENT; hex_digit (octet / 16); hex_digit (octet mod 16)].

(** [None] is a thrown [URIError]: the string has an unpaired surrogate. *)
Fixpoint encodeURIComponent (s : jsstring) : option jsstring :=
  match s with
  | [] => Some []
  | c :: rest =>
    if uriUnreserved c then cons c <$> encodeURIComponent rest
    else if is_trail c then None
    else if is_lead c then
      match rest with
      | d :: rest' =>
        if is_trail d
        then app (flat_map percent (utf8 (pair_code_point c d)))
               <$> encodeURIComponent rest'
        else None
      | [] => None
      end
    else app (flat_map percent (utf8 c)) <$> encodeURIComponent rest
  end.

Definition hex_value (c : Z) : option Z :=
  if (48 <=? c) && (c <=? 57) then Some (c - 48)
  else if (65 <=? c) && (c <=? 70) then Some (c - 55)
  else if (97 <=? c) && (c <=? 102) then Some (c - 87)
  else None.

(** Reads ["%XX"] at the head of the string. *)
Definition read_octet (s : jsstring) : option (Z * jsstring) :=
  match s with
  | c :: h :: l :: rest =>
    if c =? PERCENT then
      hv ← hex_value h; lv ← hex_value l; Some (16 * hv + lv, rest)
    else None
  | _ => None
  end.

Fixpoint read_octets (n : nat) (s : jsstring) : option (list Z * jsstring) :=
  match n with
  | O => Some ([], s)
  | S n' =>
    r ← read_octet s;
    rs ← read_octets n' r.2;
    Some (r.1 :: rs.1, rs.2)
  end.

(** The number of leading 1 bits of an octet that has one *)
Definition leading_ones (b : Z) : nat :=
  if b <? 0xC0 then 1%nat
  else if b <? 0xE0 then 2%nat
  else if b <? 0xF0 then 3%nat
  else if b <? 0xF8 then 4%nat
  else 5%nat.

Definition continuation (b : Z) : bool := (0x80 <=? b) && (b <=? 0xBF).

(** The code point of a valid UTF-8 encoding of two to four octets: no
    overlong form, no surrogate, nothing above U+10FFFF. *)
Definition utf8_decode (octets : list Z) : option Z :=
  match octets with
  | [b0; b1] =>
    let cp := (b0 - 0xC0) * 64 + (b1 - 0x80) in
    if continuation b1 && (0x80 <=? cp) then Some cp else None
  | [b0; b1; b2] =>
    let cp := (b0 - 0xE0) * 4096 + (b1 - 0x80) * 64 + (b2 - 0x80) in
    if continuation b1 && continuation b2 && (0x800 <=? cp)
       && negb ((0xD800 <=? cp) && (cp <=? 0xDFFF))
    then Some cp else None
  | [b0; b1; b2; b3] =>
    let cp := (b0 - 0xF0) * 262144 + (b1 - 0x80) * 4096
              + (b2 - 0x80) * 64 + (b3 - 0x80) in
    if continuation b1 && continuation b2 && continuation b3
       && (0x10000 <=? cp) && (cp <=? 0x10FFFF)
    then Some cp else None
  | _ => None
  end.

(** [UTF16EncodeCodePoint] *)
Definition utf16 (cp : Z) : jsstring :=
  if cp <? 0x10000 then [cp]
  else [0xD800 + (cp - 0x10000) / 0x400; 0xDC00 + (cp - 0x10000) mod 0x400].

(** The loop of [Decode]; each round consumes at least one code unit, so
    [length s] rounds are enough. *)
Fixpoint decode_loop (fuel : nat) (s : jsstring) : option jsstring :=
  match s with
  | [] => Some []
  | c :: rest =>
    match fuel with
    | O => None
    | S fuel' =>
      if c =? PERCENT then
        r ← read_octet s;
        let b := r.1 in
        if b <? 0x80 then cons b <$> decode_loop fuel' r.2
        else
          let n := leading_ones b in
          if bool_decide (n = 1%nat) || bool_decide (4 < n)%nat then None
          else
            rs ← read_octets (n - 1) r.2;
            cp ← utf8_decode (b :: rs.1);
            app (utf16 cp) <$> decode_loop fuel' rs.2
      else cons c <$> decode_loop fuel' rest
    end
  end.

Definition decodeURIComponent (s : jsstring) : option jsstring :=
  decode_loop (length s) s.

(** ** Responses and their JSON bodies *)

Record Response := { status : Z; body : option json }.

Definition BrainCreate_json (b : BrainCreate) : json :=
  object [(js "name", Some (JStr (bc_name b)));
          (js "description", JStr <$> bc_description b);
          (js "llm_provider", Some (JStr (bc_llm_provider b)));
          (js "model", Some (JStr (bc_model b)))].

Definition nullable_json {T} (f : T -> json) (v : option T) : json :=
  match v with
  | Some x => f x
  | None => JNull
  end.

Definition BrainResponse_json (b : BrainResponse) : json :=
  JObj [(js "id", JStr (br_id b));
        (js "name", JStr (br_name b));
        (js "description", nullable_json JStr (br_description b));
        (js "llm_provider", JStr (br_llm_provider b));
        (js "model", JStr (br_model b));
        (js "document_count", JNum (br_document_count b));
        (js "created_at", JStr (br_created_at b));
        (js "updated_at", JStr (br_updated_at b))].

Definition QueryRequest_json (q : QueryRequest) : json :=
  JObj [(js "question", JStr (question q));
        (js "max_tokens", JNum (max_tokens q));
        (js "temperature", JNum (temperature q))].

Definition QueryResponse_json (r : QueryResponse) : json :=
  JObj [(js "answer", JStr (answer r));
        (js "sources", JArr (JStr <$> sources r));
        (js "tokens_used", nullable_json JNum (tokens_used r));
        (js "processing_time_ms", JNum (processing_time_ms r))].

(** [Number.isFinite] *)
Definition isFinite (x : number) : bool :=
  match x with
  | Fin _ => true
  | _ => false
  end.

(** A number as [JSON.stringify] writes it: an infinity is written [null].
    (The other numbers of the responses are integers or lie between
    bounds, by their schemas.) *)
Definition number_json (x : number) : json :=
  if isFinite x then JNum x else JNull.

Definition DocumentMetadata_json (d : DocumentMetadata) : json :=
  JObj [(js "name", JStr (dm_name d));
        (js "size", number_json (dm_size d));
        (js "created_at", JStr (dm_created_at d));
        (js "modified_at", JStr (dm_modified_at d));
        (js "path", JStr (dm_path d))].

(** The issues of a [ZodError] as the response shows them (their code and
    path; the texts Zod adds are left out). *)
Definition PathElem_json (e : PathElem) : json :=
  match e with
  | Key k => JStr k
  | Index i => JNum (num (Z.of_nat i))
  end.

Definition ZodIssueCode_json (c : ZodIssueCode) : json :=
  JStr (match c with
        | invalid_type => js "invalid_type"
        | too_small => js "too_small"
        | too_big => js "too_big"
        | invalid_enum_value => js "invalid_enum_value"
        | invalid_string => js "invalid_string"
        end).

Definition ZodIssue_json (i : ZodIssue) : json :=
  JObj [(js "code", ZodIssueCode_json (code i));
        (js "path", JArr (PathElem_json <$> path i))].

(** ** The uploaded files ([middleware/upload.ts]) *)

(** [Express.Multer.File], and a part of a multipart body as busboy,
    multer's parser, reads it: the field of the part, the file name it
    declares (empty when it declares none), its content type
    ([text/plain] when it declares none) and the size of its content.  The
    disk storage of [upload] names the stored file
    [`${name}-${uniqueSuffix}${ext}`] in the [uploads] directory; the
    suffix comes from the clock and a random number, so the path is part
    of the input. *)
Record File := {
  fieldname : jsstring;
  originalname : jsstring;
  mimetype : jsstring;
  size : Z;
  path_ : jsstring       (* [file.path], where multer's disk storage put it *)
}.

Definition ALLOWED_MIME_TYPES : list jsstring :=
  [js "application/pdf";
   js "text/plain";
   js "text/markdown";
   js "application/msword";
   js "application/vnd.openxmlformats-officedocument.wordprocessingml.document";
   js "text/csv";
   js "application/json"].

Definition ALLOWED_EXTENSIONS : list jsstring :=
  [js ".pdf"; js ".txt"; js ".md"; js ".doc"; js ".docx"; js ".csv"; js ".json"].

Definition MAX_FILE_SIZE : Z := 50 * 1024 * 1024.
Definition MAX_FILES : nat := 20.

(** [fileFilter]: [inr true] is [cb(null, true)], [inl e] is [cb(e)]. *)
Definition fileFilter (B : Builtins) (file : File) : JsError + bool :=
  let ext := toLowerCase B (extname (originalname file)) in
  let mimeType := mimetype file in
  if negb (includes ALLOWED_EXTENSIONS ext) then
    inl (Error (js "File type not allowed: " ++ ext ++ js ". Allowed types: "
                ++ join (js ", ") ALLOWED_EXTENSIONS))
  else if negb (includes ALLOWED_MIME_TYPES mimeType) then
    inl (Error (js "MIME type not allowed: " ++ mimeType))
  else inr true.

(** *** busboy, the parser of multer *)

(** A part is a file when it declares a file name, or has the content
    type [application/octet-stream]; any other part is a text field, whose
    value is cut when it reaches [limits.fieldSize], 1MB unless set. *)
Definition MAX_FIELD_SIZE : Z := 1024 * 1024.

Definition is_file_part (part : File) : bool :=
  negb (bool_decide (originalname part = []))
  || bool_decide (mimetype part = js "application/octet-stream").

(** [basename]: what follows the last [/] or [\] of the file name, and
    nothing when that is [.] or [..] *)
Definition is_separator (c : Z) : bool := (c =? 0x2F) || (c =? 0x5C).

Fixpoint after_last_separator (s : jsstring) : jsstring :=
  match s with
  | [] => []
  | c :: rest =>
    if existsb is_separator rest then after_last_separator rest
    else if is_separator c then rest
    else c :: rest
  end.

Definition busboy_basename (path : jsstring) : jsstring :=
  let name := after_last_separator path in
  if bool_decide (name = js "..") || bool_decide (name = js ".") then []
  else name.

(** The file multer is told of for a file part: its file name is the base
    name of the one the part declares. *)
Definition received (part : File) : File :=
  {| fieldname := fieldname part;
     originalname := busboy_basename (originalname part);
     mimetype := mimetype part; size := size part; path_ := path_ part |}.

(** [{...data}]: the own enumerable properties of a value *)
Definition index_key (i : nat) : jsstring := js (pretty i).

Definition spread (data : json) : list (jsstring * json) :=
  match data with
  | JObj props => props
  | JArr items => imap (fun i v => (index_key i, v)) items
  | JStr s => imap (fun i c => (index_key i, JStr [c])) s
  | _ => []
  end.

(** [{...props, key: v}]: the property keeps its place when it exists. *)
Fixpoint set_prop (key : jsstring) (v : json) (props : list (jsstring * json))
  : list (jsstring * json) :=
  match props with
  | [] => [(key, v)]
  | (k, x) :: rest =>
    if decide (k = key) then (k, v) :: rest else (k, x) :: set_prop key v rest
  end.

Section Gateway.

(** The host's built-ins, and the Python service as axios reaches it: a
    request is answered from the service's state, which it may change. *)
Context (B : Builtins) {S : Type} (send : UpRequest -> S -> AxiosResult * S).

(** *** The file system ([fs]) *)

Definition set_disk (d : gset jsstring) (w : World S) : World S :=
  {| svc := svc w; sent := sent w; disk := d; busy := busy w;
     console := console w; clock := clock w |}.

Definition existsSync (p : jsstring) : M S bool :=
  fun w => (Return (bool_decide (p ∈ disk w)), w).

(** [fs.unlinkSync] throws when the file is missing or cannot be removed. *)
Definition unlinkSync (p : jsstring) : M S unit :=
  fun w =>
    if bool_decide (p ∈ disk w) then
      if bool_decide (p ∈ busy w)
      then (Throw (Error (js "EBUSY: resource busy or locked, unlink '"
                          ++ p ++ js "'")), w)
      else (Return tt, set_disk (disk w ∖ {[p]}) w)
    else (Throw (Error (js "ENOENT: no such file or directory, unlink '"
                        ++ p ++ js "'")), w).

(** The disk storage of multer writes the file at [file.path]. *)
Definition store (file : File) : M S unit :=
  fun w => (Return tt, set_disk ({[path_ file]} ∪ disk w) w).

(** [console.error(line, ...)]: the line is recorded. *)
Definition console_error (line : jsstring) : M S unit :=
  fun w => (Return tt,
            {| svc := svc w; sent := sent w; disk := disk w; busy := busy w;
               console := line :: console w; clock := clock w |}).

(** [cleanupFiles] *)
Definition cleanupFiles (files : list File) : M S unit :=
  forEach (fun file =>
    try_catch
      (present <- existsSync (path_ file) ;;
       if present : bool then unlinkSync (path_ file) else ret tt)
      (fun error =>
         console_error (js "Failed to cleanup file " ++ path_ file ++ js ":")))
    files.

(** [getFileStats] *)
Definition getFileStats (file : File) : M S json :=
  uploadedAt <- now ;;
  ret (JObj [(js "originalName", JStr (originalname file));
             (js "size", JNum (num (size file)));
             (js "mimeType", JStr (mimetype file));
             (js "extension", JStr (extname (originalname file)));
             (js "uploadedAt", JStr uploadedAt)]).

(** [files.map(f)] for an effectful [f] *)
Fixpoint mapM {A T} (f : A -> M S T) (xs : list A) : M S (list T) :=
  match xs with
  | [] => ret []
  | x :: rest => y <- f x ;; ys <- mapM f rest ;; ret (y :: ys)
  end.

(** *** [upload.array(name, maxCount)]

    multer with the storage, filter and limits of [upload], as multer and
    busboy are written: the parts of the body are taken in order; a text
    field is left to [req.body], which the route does not read; a text
    field whose value was cut, a file part beyond [limits.files] file
    parts, a file of a field other than [name] or beyond [maxCount], a
    file the filter refuses with an error, and a file whose size reaches
    [limits.fileSize] each abort the upload; a file part whose file name
    is empty is skipped, though counted, and so is a file the filter
    drops.  An aborted upload removes the files stored so far and passes
    the error on, so that the route's handler does not run.

    Recent versions of multer (1.4.5-lts.2, 2.0) keep listening for a
    while after the error has been passed on: the file parts that arrived
    together with the refused one are still given to the filter, and those
    it accepts are stored; nothing removes them.  Which parts these are
    depends on the way the body arrives, and on the version: [late] tells
    it.  (After [limits.files] is reached busboy takes no file part at
    all.) *)
Context (late : File -> bool).

Definition remove_stored (file : File) : M S unit :=
  try_catch (unlinkSync (path_ file)) (fun _ => ret tt).

(** The files stored from the parts behind a refused one *)
Definition is_staged_late (name : jsstring) (file : File) : bool :=
  late file
  && negb (bool_decide (originalname file = []))
  && bool_decide (fieldname file = name)
  && match fileFilter B file with
     | inr true => true
     | _ => false
     end.

Definition staged_late (name : jsstring) (rest : list File) : list File :=
  filter (fun file => is_staged_late name file = true)
         (received <$> filter (fun part => is_file_part part = true) rest).

Definition abort {A} (stored staged : list File) (e : JsError) : M S A :=
  forEach remove_stored stored ;;; forEach store staged ;;; throw e.

Fixpoint multer_parts (name : jsstring) (parts : list File)
    (seen filesLeft : nat) (stored : list File) : M S (list File) :=
  match parts with
  | [] => ret stored
  | part :: rest =>
    if negb (is_file_part part) then
      if MAX_FIELD_SIZE <=? size part then
        abort stored (staged_late name rest) (Error (js "Field value too long"))
      else multer_parts name rest seen filesLeft stored
    else if bool_decide (seen = MAX_FILES) then
      abort stored [] (Error (js "Too many files"))
    else
      let file := received part in
      if bool_decide (originalname file = []) then
        multer_parts name rest (Datatypes.S seen) filesLeft stored
      else if negb (bool_decide (fieldname file = name))
              || bool_decide (filesLeft = O) then
        abort stored (staged_late name rest) (Error (js "Unexpected field"))
      else
        match fileFilter B file with
        | inl e => abort stored (staged_late name rest) e
        | inr false =>
          multer_parts name rest (Datatypes.S seen) (filesLeft - 1) stored
        | inr true =>
          store file ;;;
          if MAX_FILE_SIZE <=? size file then
            abort (stored ++ [file]) (staged_late name rest)
                  (Error (js "File too large"))
          else
            multer_parts name rest (Datatypes.S seen) (filesLeft - 1)
                         (stored ++ [file])
        end
  end.

Definition upload_array (name : jsstring) (maxCount : nat) (parts : list File)
  : M S (list File) :=
  multer_parts name parts 0 maxCount [].

(** *** The client ([client/quivr-client.ts]) *)

(** [errorData?.detail]: [None] when it is [undefined] or [null]. *)
Definition detail_of (errorData : json) : option json :=
  match errorData with
  | JObj props =>
    match prop (js "detail") props with
    | Some JNull => None
    | d => d
    end
  | _ => None
  end.

(** The rejection handler [setupInterceptors] installs *)
Definition onRejected (error : AxiosError) : JsError :=
  let errorData := ar_data <$> ae_response error in
  let message :=
    match errorData ≫= detail_of with
    | Some (JStr s) => s
    | Some v => ToString B v
    | None => ae_message error
    end in
  QuivrClientError message (ar_status <$> ae_response error)
                   (ar_data <$> ae_response error).

(** [this.client.get/post/delete]: the request is sent, and a rejection
    goes through the interceptor. *)
Definition request (m : Method) (u : jsstring) (p : Payload) : M S json :=
  fun w =>
    let r := {| method := m; url := u; payload := p |} in
    let '(result, s') := send r (svc w) in
    let w' := {| svc := s'; sent := r :: sent w; disk := disk w;
                 busy := busy w; console := console w; clock := clock w |} in
    match result with
    | inr data => (Return data, w')
    | inl error => (Throw (onRejected error), w')
    end.

Definition health : M S HealthResponse :=
  data <- request GET (js "/health") NoBody ;;
  parse_or_throw (HealthResponseSchema B) (Some data).

Definition createBrain (brainData : BrainCreate) : M S BrainResponse :=
  data <- request POST (js "/brains") (JsonBody (BrainCreate_json brainData)) ;;
  parse_or_throw (BrainResponseSchema B) (Some data).

Definition uploadDocumentsWithFormData (brainId : jsstring)
    (formData : list FormFile) : M S json :=
  request POST (js "/brains/" ++ brainId ++ js "/documents") (FormBody formData).

Definition queryBrain (brainId : jsstring) (query : QueryRequest)
  : M S QueryResponse :=
  data <- request POST (js "/brains/" ++ brainId ++ js "/query")
                  (JsonBody (QueryRequest_json query)) ;;
  parse_or_throw QueryResponseSchema (Some data).

(** [`/brains/${brainId}/documents/${encodeURIComponent(documentName)}`] *)
Definition document_path (brainId documentName : jsstring) : M S jsstring :=
  match encodeURIComponent documentName with
  | Some segment => ret (js "/brains/" ++ brainId ++ js "/documents/" ++ segment)
  | None => throw (Error (js "URI malformed"))
  end.

Definition getDocument (brainId documentName : jsstring) : M S DocumentMetadata :=
  u <- document_path brainId documentName ;;
  data <- request GET u NoBody ;;
  parse_or_throw (DocumentMetadataSchema B) (Some data).

Definition deleteDocument (brainId documentName : jsstring) : M S unit :=
  u <- document_path brainId documentName ;;
  request DELETE u NoBody ;;;
  ret tt.

(** *** [errorHandler] ([middleware/error-handler.ts]) *)
Definition errorHandler (error : JsError) : M S Response :=
  match error with
  | ZodError issues =>
    ret {| status := 400;
           body := Some (JObj [(js "error", JStr (js "Validation error"));
                               (js "details", JArr (ZodIssue_json <$> issues))]) |}
  | QuivrClientError message statusCode details =>
    ret {| status := default 500 statusCode;
           body := Some (object [(js "error", Some (JStr message));
                                 (js "details", details)]) |}
  | Error message =>
    console_error (js "Unhandled error:") ;;;
    ret {| status := 500;
           body := Some (JObj [(js "error", JStr (js "Internal server error"));
                               (js "message", JStr message)]) |}
  end.

(** [asyncHandler(fn)]: what [fn] throws is passed to [next]. *)
Definition asyncHandler (fn : M S Response) (next : JsError -> M S Response)
  : M S Response :=
  try_catch fn next.

(** A route of the application: what its middleware and its handler pass
    to [next] reaches the error handler, which is mounted last.  (The
    error handler does not throw; Express would answer 500 if it did.) *)
Definition route (fn : M S Response) (w : World S) : Response * World S :=
  match asyncHandler fn errorHandler w with
  | (Return r, w') => (r, w')
  | (Throw e, w') => ({| status := 500; body := None |}, w')
  end.

(** *** The routes ([routes/brains.ts], [routes/health.ts]) *)

(** [POST /brains] *)
Definition post_brain (body : option json) : M S Response :=
  brainData <- parse_or_throw BrainCreateSchema body ;;
  brain <- createBrain brainData ;;
  ret {| status := 201; body := Some (BrainResponse_json brain) |}.

(** The handler of [POST /brains/:id/documents]; [files] is [req.files]. *)
Definition upload_handler (id : jsstring) (files : option (list File))
  : M S Response :=
  match files with
  | None | Some [] =>
    ret {| status := 400;
           body := Some (JObj [(js "error", JStr (js "Bad Request"));
                               (js "message", JStr (js "No files provided"))]) |}
  | Some files =>
    try_catch
      (let form := (fun file => {| ff_filename := originalname file;
                                   ff_contentType := mimetype file;
                                   ff_stream := path_ file |}) <$> files in
       result <- uploadDocumentsWithFormData id form ;;
       cleanupFiles files ;;;
       stats <- mapM getFileStats files ;;
       ret {| status := 201;
              body := Some (JObj (set_prop (js "files") (JArr stats)
                                           (spread result))) |})
      (fun error => cleanupFiles files ;;; throw error)
  end.

(** [POST /brains/:id/documents]: multer, then the handler. *)
Definition post_documents (id : jsstring) (parts : list File) : M S Response :=
  files <- upload_array (js "files") 20 parts ;;
  upload_handler id (Some files).

(** [POST /brains/:id/query] *)
Definition post_query (id : jsstring) (body : option json) : M S Response :=
  query <- parse_or_throw QueryRequestSchema body ;;
  result <- queryBrain id query ;;
  ret {| status := 200; body := Some (QueryResponse_json result) |}.

(** [GET /brains/:id/documents/:name] *)
Definition get_document (id name : jsstring) : M S Response :=
  result <- getDocument id name ;;
  ret {| status := 200; body := Some (DocumentMetadata_json result) |}.

(** [DELETE /brains/:id/documents/:name] *)
Definition delete_document (id name : jsstring) : M S Response :=
  deleteDocument id name ;;;
  ret {| status := 204; body := None |}.

(** [GET /health] *)
Definition get_health : M S Response :=
  try_catch
    (pythonHealth <- health ;;
     timestamp <- now ;;
     ret {| status := 200;
            body := Some (JObj [(js "typescript_service", JStr (js "healthy"));
                                (js "python_service", JStr (hr_status pythonHealth));
                                (js "timestamp", JStr timestamp)]) |})
    (fun error =>
       timestamp <- now ;;
       ret {| status := 503;
              body := Some (JObj [(js "typescript_service", JStr (js "healthy"));
                                  (js "python_service", JStr (js "unhealthy"));
                                  (js "error", JStr (error_message B error));
                                  (js "timestamp", JStr timestamp)]) |}).

End Gateway.

(** ** The Python service, from the specification *)

Module Service.

(** Modelled from the spec: the error taxonomy of section 7.  The Python
    service's sources are not among the repository's files. *)
Inductive ServiceError :=
| ValidationError (offending : string)
| NotFoundError
| EmptyBrainError
| EngineUnavailableError
| InternalError.

(** Modelled from the spec: the status of each error class (section 7). *)
Definition status_of (e : ServiceError) : Z :=
  match e with
  | ValidationError _ => 400
  | NotFoundError => 404
  | EmptyBrainError => 400
  | EngineUnavailableError => 503
  | InternalError => 500
  end.

(** Modelled from the spec: the Brain of section 3. *)
Record Brain := {
  name : jsstring;
  description : option jsstring;
  llm_provider : jsstring;
  model : jsstring;
  document_count : Z;
  created_at : Z;
  updated_at : Z
}.

(** Modelled from the spec: the Document of section 3, stored under its
    name. *)
Record Document := {
  doc_size : Z;
  doc_mime : string;
  doc_created_at : Z
}.

(** Modelled from the spec: a file of an upload request (section 4.2). *)
Record UploadFile := {
  file_name : string;
  file_extension : string;
  file_content_type : string;
  file_size : Z
}.

(** Modelled from the spec: the calls the service makes to the
    Retrieval-Generation Engine (section 6). *)
Inductive EngineCall :=
| Index (brainId : jsstring) (documents : list string)
| Reindex (brainId : jsstring)
| Answer (brainId : jsstring) (query : QueryRequest).

(** Modelled from the spec: what the engine's [answer] returns
    (section 6), with the time it took. *)
Record EngineAnswer := {
  text : jsstring;
  cited : list jsstring;
  tokensUsed : option number;
  elapsed_ms : number
}.

(** Modelled from the spec: the state the Brain Registry and the Document
    Store own, the calls made to the engine so far (latest first) and the
    clock. *)
Record State := {
  brains : gmap jsstring Brain;
  documents : gmap jsstring (gmap string Document);
  engine_calls : list EngineCall;
  time : Z
}.

(** Modelled from the spec: the service before any brain is created. *)
Definition empty : State :=
  {| brains := ∅; documents := ∅; engine_calls := []; time := 0 |}.

(** The documents stored for a brain *)
Definition documents_of (st : State) (id : jsstring) : gmap string Document :=
  default ∅ (documents st !! id).

(** Modelled from the spec: the allow-list of section 4.2 and the limits
    of an upload, 20 files of 50MB each. *)
Definition ALLOW_LIST : list string :=
  ["pdf"; "txt"; "md"; "doc"; "docx"; "csv"; "json"]%string.

Definition MAX_BATCH : nat := 20.
Definition MAX_BYTES : Z := 50 * 1024 * 1024.

(** Modelled from the spec: a file is valid when it is at most 50MB and its
    extension and declared content type are both on the allow-list. *)
Definition valid_file (f : UploadFile) : bool :=
  (file_size f <=? MAX_BYTES)
  && bool_decide (file_extension f ∈ ALLOW_LIST)
  && bool_decide (file_content_type f ∈ ALLOW_LIST).

(** The first invalid file of a batch *)
Definition offending_file (files : list UploadFile) : option UploadFile :=
  head (filter (fun f => valid_file f = false) files).

(** Modelled from the spec: [recordDocumentChange(id, delta)] adjusts
    [document_count] and [updated_at] together and refuses a change that
    would make the count negative. *)
Definition recordDocumentChange (id : jsstring) (delta : Z) (st : State)
  : option State :=
  b ← brains st !! id;
  if document_count b + delta <? 0 then None
  else Some {| brains := <[id := {| name := name b;
                                    description := description b;
                                    llm_provider := llm_provider b;
                                    model := model b;
                                    document_count := document_count b + delta;
                                    created_at := created_at b;
                                    updated_at := time st |}]> (brains st);
               documents := documents st;
               engine_calls := engine_calls st;
               time := time st + 1 |}.

(** Modelled from the spec: a document is stored under its name, or, when
    the name is taken in the brain, under the name with a suffix; a stored
    document is never overwritten (section 3). *)
Definition put (f : UploadFile) (now : Z) (docs : gmap string Document)
  : gmap string Document :=
  <[fresh_string_of_set (file_name f) (dom docs) :=
      {| doc_size := file_size f; doc_mime := file_content_type f;
         doc_created_at := now |}]> docs.

Definition put_all (files : list UploadFile) (now : Z)
    (docs : gmap string Document) : gmap string Document :=
  foldl (fun d f => put f now d) docs files.

Definition set_documents (id : jsstring) (docs : gmap string Document)
    (st : State) : State :=
  {| brains := brains st; documents := <[id := docs]> (documents st);
     engine_calls := engine_calls st; time := time st |}.

Definition call_engine (c : EngineCall) (st : State) : State :=
  {| brains := brains st; documents := documents st;
     engine_calls := c :: engine_calls st; time := time st |}.

(** Modelled from the spec: [create(spec)] checks the fields, allocates an
    identifier and starts the brain with no documents (section 4.1). *)
Definition create (spec : BrainCreate) (st : State)
  : (ServiceError + jsstring) * State :=
  if negb ((1 <=? length (bc_name spec))%nat && (length (bc_name spec) <=? 100)%nat)
  then (inl (ValidationError "name"), st)
  else if negb (from_option (fun d => (length d <=? 500)%nat) true
                            (bc_description spec))
  then (inl (ValidationError "description"), st)
  else if negb (includes PROVIDERS (bc_llm_provider spec))
  then (inl (ValidationError "llm_provider"), st)
  else
    let id := fresh (dom (brains st)) in
    (inr id,
     {| brains := <[id := {| name := bc_name spec;
                             description := bc_description spec;
                             llm_provider := bc_llm_provider spec;
                             model := bc_model spec;
                             document_count := 0;
                             created_at := time st;
                             updated_at := time st |}]> (brains st);
        documents := <[id := ∅]> (documents st);
        engine_calls := engine_calls st;
        time := time st + 1 |}).

(** Modelled from the spec: [upload(brainId, files)] takes 1 to 20 files;
    one invalid file fails the whole batch with a [ValidationError] that
    names it, before anything is stored; a valid batch is stored,
    [document_count] grows by the number of files and the engine is told
    to index the new content (section 4.2). *)
Definition upload (id : jsstring) (files : list UploadFile) (st : State)
  : (ServiceError + list string) * State :=
  match brains st !! id with
  | None => (inl NotFoundError, st)
  | Some _ =>
    if bool_decide (files = []) || (MAX_BATCH <? length files)%nat
    then (inl (ValidationError "files"), st)
    else
      match offending_file files with
      | Some f => (inl (ValidationError (file_name f)), st)
      | None =>
        let docs := put_all files (time st) (documents_of st id) in
        match recordDocumentChange id (Z.of_nat (length files))
                                   (set_documents id docs st) with
        | None => (inl InternalError, st)
        | Some st' =>
          (inr (file_name <$> files),
           call_engine (Index id (file_name <$> files)) st')
        end
      end
  end.

(** Modelled from the spec: [delete(brainId, name)] removes the document,
    lowers [document_count] by one and has the brain indexed again; it
    fails with [NotFoundError] when the brain or the document is absent
    (section 4.2). *)
Definition delete_document (id : jsstring) (doc : string) (st : State)
  : (ServiceError + unit) * State :=
  match brains st !! id, documents_of st id !! doc with
  | Some _, Some _ =>
    match recordDocumentChange id (-1)
            (set_documents id (delete doc (documents_of st id)) st) with
    | None => (inl InternalError, st)
    | Some st' => (inr tt, call_engine (Reindex id) st')
    end
  | _, _ => (inl NotFoundError, st)
  end.

(** Modelled from the spec: [delete(id)] removes the brain and the
    documents it owns (section 4.1). *)
Definition delete_brain (id : jsstring) (st : State)
  : (ServiceError + unit) * State :=
  match brains st !! id with
  | None => (inl NotFoundError, st)
  | Some _ =>
    (inr tt,
     {| brains := delete id (brains st); documents := delete id (documents st);
        engine_calls := engine_calls st; time := time st + 1 |})
  end.

Section Engine.

(** The engine's answer to a query, [None] when it fails or times out. *)
Context (engine : jsstring -> QueryRequest -> option EngineAnswer).

(** Modelled from the spec: the synchronous query path (section 4.3): the
    brain must exist and hold a document before the engine is called; the
    call leaves brains and documents as they are. *)
Definition query (id : jsstring) (q : QueryRequest) (st : State)
  : (ServiceError + QueryResponse) * State :=
  match brains st !! id with
  | None => (inl NotFoundError, st)
  | Some b =>
    if document_count b =? 0 then (inl EmptyBrainError, st)
    else
      let st' := call_engine (Answer id q) st in
      match engine id q with
      | None => (inl EngineUnavailableError, st')
      | Some a =>
        (inr {| answer := text a; sources := cited a;
                tokens_used := tokensUsed a;
                processing_time_ms := elapsed_ms a |}, st')
      end
  end.

(** Modelled from the spec: the text of each error; the one of
    [EmptyBrainError] is given in section 8. *)
Definition message_of (e : ServiceError) : jsstring :=
  match e with
  | ValidationError _ => js "Validation error"
  | NotFoundError => js "Brain not found"
  | EmptyBrainError => js "Brain has no documents"
  | EngineUnavailableError => js "Service unavailable"
  | InternalError => js "Internal server error"
  end.

(** Modelled from the spec: an error of the service as axios sees it, a
    response with the error's status (section 7) whose body carries the
    message under [detail], where the gateway's interceptor reads it. *)
Definition error_reply (e : ServiceError) : AxiosError :=
  {| ae_message := js "Request failed with status code "
                   ++ js (pretty (status_of e));
     ae_response := Some {| ar_status := status_of e;
                            ar_data := JObj [(js "detail", JStr (message_of e))] |} |}.

Definition strip_prefix (p s : jsstring) : option jsstring :=
  if bool_decide (take (length p) s = p) then Some (drop (length p) s) else None.

Definition strip_suffix (q s : jsstring) : option jsstring :=
  if bool_decide (drop (length s - length q) s = q)
  then Some (take (length s - length q) s) else None.

(** The brain identifier in [/brains/<id>/query] *)
Definition query_url (u : jsstring) : option jsstring :=
  strip_prefix (js "/brains/") u ≫= strip_suffix (js "/query").

(** Modelled from the spec: the service's [POST /brains/:id/query]
    (section 6): the body goes through the validation layer, then the
    query runs. *)
Definition serve (r : UpRequest) (st : State) : AxiosResult * State :=
  match method r, payload r, query_url (url r) with
  | POST, JsonBody data, Some id =>
    match parse QueryRequestSchema (Some data) with
    | inl _ => (inl (error_reply (ValidationError "body")), st)
    | inr q =>
      match query id q st with
      | (inl e, st') => (inl (error_reply e), st')
      | (inr a, st') => (inr (QueryResponse_json a), st')
      end
    end
  | _, _, _ => (inl (error_reply NotFoundError), st)
  end.

End Engine.

(** Modelled from the spec: the operations of a client on brains and
    documents (sections 4.1 and 4.2), and their effect on the state,
    which a failed operation leaves as it returns it. *)
Inductive Op :=
| Create (spec : BrainCreate)
| Upload (id : jsstring) (files : list UploadFile)
| DeleteDocument (id : jsstring) (doc : string)
| DeleteBrain (id : jsstring).

Definition exec (op : Op) (st : State) : State :=
  match op with
  | Create spec => (create spec st).2
  | Upload id files => (upload id files st).2
  | DeleteDocument id doc => (delete_document id doc st).2
  | DeleteBrain id => (delete_brain id st).2
  end.

Definition run (ops : list Op) (st : State) : State :=
  foldl (fun s op => exec op s) st ops.

End Service.

(** ** The streaming query orchestrator, from the specification *)

Module Streaming.

(** Modelled from the spec: the events of a streamed query (section 4.5).
    The orchestrator is part of the Python service, whose sources are not
    among the repository's files. *)
Inductive Event :=
| content (fragment : jsstring)
| sources (citations : list jsstring)
| done
| error (message : jsstring).

(** Modelled from the spec: the states of a streamed query (section 4.5). *)
Inductive Phase :=
| STARTED
| EMITTING_CONTENT
| EMITTING_SOURCES
| DONE
| ERROR.


(** Modelled from the spec: [STARTED -> EMITTING_CONTENT (zero or more) ->
    EMITTING_SOURCES -> DONE], one event per transition, and [ERROR]
    reachable from every state that is not terminal. *)
Definition next (p : Phase) (e : Event) : option Phase :=
  match p, e with
  | (STARTED | EMITTING_CONTENT), content _ => Some EMITTING_CONTENT
  | (STARTED | EMITTING_CONTENT), sources _ => Some EMITTING_SOURCES
  | EMITTING_SOURCES, done => Some DONE
  | (STARTED | EMITTING_CONTENT | EMITTING_SOURCES), error _ => Some ERROR
  | _, _ => None
  end.

(** Modelled from the spec: the state after a sequence of events, when
    the machine allows the sequence. *)
Fixpoint after (p : Phase) (events : list Event) : option Phase :=
  match events with
  | [] => Some p
  | e :: rest => next p e ≫= fun q => after q rest
  end.


(** Modelled from the spec: what the engine's streaming variant
    (section 6) produces for one query, the text fragments it generated,
    in order, and how the generation ended. *)
Inductive Ending :=
| Completed (citations : list jsstring)
| FailedAfterSources (citations : list jsstring) (message : jsstring)
| Failed (message : jsstring).

Record Generation := { fragments : list jsstring; ending : Ending }.

(** Modelled from the spec: the orchestrator turns one generation into
    events: a [content] event per fragment, then [sources], then [done];
    a failure of the engine ends the stream with an [error] event
    instead. *)
Definition orchestrate (g : Generation) : list Event :=
  (content <$> fragments g)
  ++ match ending g with
     | Completed c => [sources c; done]
     | FailedAfterSources c m => [sources c; error m]
     | Failed m => [error m]
     end.

Definition is_content (e : Event) : bool :=
  match e with content _ => true | _ => false end.



End Streaming.

(** ** The requests the specification accepts

    Written from the specification's words, to be compared with what the
    schemas accept. *)

(** A query request: a question of 1 to 2000 characters, [max_tokens] an
    integer in [100, 4096] or absent (then 1024), [temperature] in [0, 1]
    or absent (then 0.7); [q] is the query the request stands for. *)
Definition acceptable_query (body : option json) (q : QueryRequest) : Prop :=
  exists props, body = Some (JObj props) /\
    (prop (js "question") props = Some (JStr (question q))
     /\ (1 <= length (question q) <= 2000)%nat) /\
    ((prop (js "max_tokens") props = None /\ max_tokens q = num 1024)
     \/ (exists n : Z, prop (js "max_tokens") props = Some (JNum (num n))
                       /\ max_tokens q = num n /\ 100 <= n <= 4096)) /\
    ((prop (js "temperature") props = None /\ temperature q = num_0_7)
     \/ (exists t : Qc, prop (js "temperature") props = Some (JNum (Fin t))
                        /\ temperature q = Fin t /\ (0 <= t <= 1)%Qc)).


(** The response to a request that fails validation *)
Definition validation_error_response (issues : list ZodIssue) : Response :=
  {| status := 400;
     body := Some (JObj [(js "error", JStr (js "Validation error"));
                         (js "details", JArr (ZodIssue_json <$> issues))]) |}.

(** The model a brain gets when the request names none *)
Definition DEFAULT_MODEL : jsstring := js "claude-3-5-sonnet-20241022".

(** A brain creation request: a name of 1 to 100 characters, a description
    of at most 500 characters or none, a provider of the enumeration or
    none (then anthropic), a model or none (then the default model); [b]
    is the brain data the request stands for. *)
Definition acceptable_brain (body : option json) (b : BrainCreate) : Prop :=
  exists props, body = Some (JObj props) /\
    (prop (js "name") props = Some (JStr (bc_name b))
     /\ (1 <= length (bc_name b) <= 100)%nat) /\
    ((prop (js "description") props = None /\ bc_description b = None)
     \/ (exists d, prop (js "description") props = Some (JStr d)
                   /\ bc_description b = Some d /\ (length d <= 500)%nat)) /\
    ((prop (js "llm_provider") props = None /\ bc_llm_provider b = js "anthropic")
     \/ (prop (js "llm_provider") props = Some (JStr (bc_llm_provider b))
         /\ bc_llm_provider b ∈ PROVIDERS)) /\
    ((prop (js "model") props = None /\ bc_model b = DEFAULT_MODEL)
     \/ prop (js "model") props = Some (JStr (bc_model b))).

(** The model a creation request gets when it names a provider and no
    model *)
Definition default_model_of (provider : jsstring) : option jsstring :=
  match parse BrainCreateSchema
          (Some (JObj [(js "name", JStr (js "Docs"));
                       (js "llm_provider", JStr provider)])) with
  | inr b => Some (bc_model b)
  | inl _ => None
  end.

(** Defaults are appropriate to the providers when each provider offers
    the model it gets by default, no model being offered by two
    providers. *)
Definition provider_appropriate (default_model : jsstring -> option jsstring)
  : Prop :=
  exists offers : jsstring -> jsstring -> Prop,
    (forall p q m, offers p m -> offers q m -> p = q)
    /\ forall p, p ∈ PROVIDERS -> exists m, default_model p = Some m /\ offers p m.

(** ** Example hosts and worlds *)

(** The lower case of the letters of Latin-1 *)
Definition latin1_lower (c : Z) : Z :=
  if bool_decide (0xC0 ≤ c ≤ 0xDE /\ c <> 0xD7) then c + 32 else ascii_lower c.

(** It keeps the characters outside ASCII outside ASCII. *)
Definition latin1_lower_outside_ascii (s : jsstring) :
  Exists (fun c => 128 <= c) s ->
  Exists (fun c => 128 <= c \/ c = 107) (latin1_lower <$> s).
Proof.
  intros H. apply Exists_fmap. eapply Exists_impl; [exact H|].
  intros c Hc. left. unfold compose, latin1_lower, ascii_lower.
  cbn beta in *. repeat case_bool_decide; lia.
Qed.

(** A host whose regular expressions accept every string, and that knows
    the letters of Latin-1 *)
Definition a_host : Builtins :=
  {| ToString := fun _ => js "[object Object]";
     zod_message := fun _ => js "[]";
     is_uuid := fun _ => true;
     is_datetime := fun _ => true;
     unicode_lower := fmap latin1_lower;
     unicode_lower_outside_ascii := latin1_lower_outside_ascii |}.

(** A world with nothing on the disk and nothing sent *)
Definition a_world {S} (s : S) : World S :=
  {| svc := s; sent := []; disk := ∅; busy := ∅; console := [];
     clock := js "2024-01-20T10:00:00.000Z" |}.

(** A service that does not answer in time: axios gives up after 60 s. *)
Definition silent_service (r : UpRequest) (s : unit) : AxiosResult * unit :=
  (inl {| ae_message := js "timeout of 60000ms exceeded"; ae_response := None |}, s).

(** The request [queryBrain] sends *)
Definition query_request (brainId : jsstring) (query : QueryRequest) : UpRequest :=
  {| method := POST; url := js "/brains/" ++ brainId ++ js "/query";
     payload := JsonBody (QueryRequest_json query) |}.

(** The request [health] sends *)
Definition health_request : UpRequest :=
  {| method := GET; url := js "/health"; payload := NoBody |}.

(** A property of a response's body *)
Definition body_prop (key : string) (r : Response) : option json :=
  match body r with
  | Some (JObj props) => prop (js key) props
  | _ => None
  end.

(** The status the service reports about itself, when its answer to the
    health check is a report: an object whose [status] is one of the three
    states, whose [version] is a string and whose [timestamp] is the text
    of a date and time.  Any other answer is no report. *)
Definition reported_status (B : Builtins) (data : json) : option jsstring :=
  match data with
  | JObj props =>
    match prop (js "status") props, prop (js "version") props,
          prop (js "timestamp") props with
    | Some (JStr state), Some (JStr _), Some (JStr timestamp) =>
      if includes HEALTH_STATES state && is_datetime B timestamp
      then Some state else None
    | _, _, _ => None
    end
  | _ => None
  end.

(** A service that reports its state when asked *)
Definition a_reporting_service (state : string) (r : UpRequest) (s : unit)
  : AxiosResult * unit :=
  (inr (JObj [(js "status", JStr (js state));
              (js "version", JStr (js "0.1.0"));
              (js "timestamp", JStr (js "2024-01-20T10:00:00Z"))]), s).

(** A service that cannot be reached *)
Definition an_unreachable_service (r : UpRequest) (s : unit) : AxiosResult * unit :=
  (inl {| ae_message := js "connect ECONNREFUSED 127.0.0.1:8000";
          ae_response := None |}, s).

(** ** Upload requests, in the specification's words *)

(** The paths of a list of files *)
Definition paths (files : list File) : gset jsstring :=
  list_to_set (path_ <$> files).

(** Two worlds that differ on the disk and the console only: the service
    is in the same state and has been sent the same requests. *)
Definition same_service {S} (w w' : World S) : Prop :=
  svc w' = svc w /\ sent w' = sent w /\ busy w' = busy w /\ clock w' = clock w.

(** The disk [d] after the removal of [files], those that cannot be
    removed staying *)
Definition removed {S} (files : list File) (w : World S) (d : gset jsstring)
  : gset jsstring :=
  d ∖ (paths files ∖ busy w).

(** The file parts of a body *)
Definition file_parts (parts : list File) : list File :=
  filter (fun part => is_file_part part = true) parts.

(** The files of a body: its file parts that have a file name, as multer is
    told of them *)
Definition named_parts (parts : list File) : list File :=
  filter (fun f => originalname f <> []) (received <$> file_parts parts).

(** A file of less than 50MB whose extension and declared content type are
    on the allow-lists *)
Definition valid_file (B : Builtins) (f : File) : Prop :=
  size f < MAX_FILE_SIZE
  /\ toLowerCase B (extname (originalname f)) ∈ ALLOWED_EXTENSIONS
  /\ mimetype f ∈ ALLOWED_MIME_TYPES.



(** The files multer stores from the parts behind the first one it
    refuses, and leaves *)
Fixpoint left_behind (B : Builtins) (late : File -> bool) (seen : nat)
    (parts : list File) : list File :=
  match parts with
  | [] => []
  | part :: rest =>
    if negb (is_file_part part) then
      if MAX_FIELD_SIZE <=? size part then staged_late B late (js "files") rest
      else left_behind B late seen rest
    else if bool_decide (seen = MAX_FILES) then []
    else
      let file := received part in
      if bool_decide (originalname file = []) then
        left_behind B late (Datatypes.S seen) rest
      else if negb (bool_decide (fieldname file = js "files")) then
        staged_late B late (js "files") rest
      else
        match fileFilter B file with
        | inl e => staged_late B late (js "files") rest
        | inr false => left_behind B late (Datatypes.S seen) rest
        | inr true =>
          if MAX_FILE_SIZE <=? size file then staged_late B late (js "files") rest
          else left_behind B late (Datatypes.S seen) rest
        end
  end.


(** The request [uploadDocumentsWithFormData] sends for the files *)
Definition upload_request (id : jsstring) (files : list File) : UpRequest :=
  {| method := POST; url := js "/brains/" ++ id ++ js "/documents";
     payload := FormBody ((fun file => {| ff_filename := originalname file;
                                          ff_contentType := mimetype file;
                                          ff_stream := path_ file |}) <$> files) |}.


(** A service that accepts every request *)
Definition agreeable_service (r : UpRequest) (s : unit) : AxiosResult * unit :=
  (inr (JObj [(js "message", JStr (js "Successfully uploaded"))]), s).


Definition a_pdf : File :=
  {| fieldname := js "files"; originalname := js "notes.pdf";
     mimetype := js "application/pdf"; size := 2048;
     path_ := js "uploads/notes-1700000000000-42.pdf" |}.

Definition an_exe : File :=
  {| fieldname := js "files"; originalname := js "report.exe";
     mimetype := js "application/pdf"; size := 2048;
     path_ := js "uploads/report-1700000000000-43.exe" |}.


(** A text field *)
Definition a_text_field : File :=
  {| fieldname := js "note"; originalname := [];
     mimetype := js "text/plain"; size := 5; path_ := [] |}.

Definition all_late (file : File) : bool := true.

(** ** Document paths, in the specification's words *)

(** [String.prototype.isWellFormed]: the string has no unpaired
    surrogate (and its code units are 16-bit). *)
Fixpoint isWellFormed (s : jsstring) : bool :=
  match s with
  | [] => true
  | c :: rest =>
    if is_lead c then
      match rest with
      | d :: rest' => is_trail d && isWellFormed rest'
      | [] => false
      end
    else (0 <=? c) && (c <? 0x10000) && negb (is_trail c) && isWellFormed rest
  end.

(** ** The path of a request (URL Standard)

    axios joins the URL of a request to its [baseURL] with one [/], in
    place of those the URL starts with, and reads the result with
    [new URL]; the request goes to the path that gives.  What follows is
    the path state of the URL Standard's parser for an [http] URL, for a
    base URL that has no path of its own: tabs and newlines are dropped,
    the path ends before the first [?] or [#], [/] and [\] separate its
    segments, and the segments [.] and [..], also written with [%2e], are
    resolved.  (The parser also percent-encodes the characters a path
    cannot hold; the segments are given as written.) *)
Definition CHAR_BACKWARD_SLASH : Z := 92.
Definition CHAR_QUESTION_MARK : Z := 63.
Definition CHAR_HASH : Z := 35.

Definition is_tab_or_newline (c : Z) : bool :=
  (c =? 9) || (c =? 10) || (c =? 13).

Definition ends_path (c : Z) : bool :=
  (c =? CHAR_QUESTION_MARK) || (c =? CHAR_HASH).

Definition separates (c : Z) : bool :=
  (c =? CHAR_FORWARD_SLASH) || (c =? CHAR_BACKWARD_SLASH).

(** [relativeURL.replace(/^\/+/, '')] *)
Fixpoint strip_leading_slashes (u : jsstring) : jsstring :=
  match u with
  | c :: rest => if c =? CHAR_FORWARD_SLASH then strip_leading_slashes rest else u
  | [] => []
  end.

(** The text of the path: what comes before the query and the fragment *)
Fixpoint path_text (u : jsstring) : jsstring :=
  match u with
  | [] => []
  | c :: rest => if ends_path c then [] else c :: path_text rest
  end.

(** The text between the separators *)
Fixpoint split_segments (p : jsstring) : list jsstring :=
  match p with
  | [] => [[]]
  | c :: rest =>
    if separates c then [] :: split_segments rest
    else match split_segments rest with
         | s :: ss => (c :: s) :: ss
         | [] => [[c]]
         end
  end.

Definition SINGLE_DOT : list jsstring := [js "."; js "%2e"; js "%2E"].

Definition DOUBLE_DOT : list jsstring :=
  [js ".."; js ".%2e"; js ".%2E"; js "%2e."; js "%2E.";
   js "%2e%2e"; js "%2e%2E"; js "%2E%2e"; js "%2E%2E"].

(** The path state: a segment is appended to the path, unless it is a dot
    segment; [..] shortens the path, and a dot segment at the end leaves
    an empty segment. *)
Fixpoint path_state (segments path : list jsstring) : list jsstring :=
  match segments with
  | [] => path
  | s :: rest =>
    let at_end := bool_decide (rest = []) in
    path_state rest
      (if includes DOUBLE_DOT s
       then removelast path ++ (if at_end then [[]] else [])
       else if includes SINGLE_DOT s
       then path ++ (if at_end then [[]] else [])
       else path ++ [s])
  end.

(** The segments of the path of the request for the URL [u] *)
Definition request_path (u : jsstring) : list jsstring :=
  path_state
    (split_segments
       (path_text (filter (fun c => is_tab_or_newline c = false)
                          (strip_leading_slashes u))))
    [].

(** The request [getDocument] sends, and the one [deleteDocument] sends *)
Definition get_document_request (u : jsstring) : UpRequest :=
  {| method := GET; url := u; payload := NoBody |}.
Definition delete_document_request (u : jsstring) : UpRequest :=
  {| method := DELETE; url := u; payload := NoBody |}.

(** A Unicode scalar value: a code point that is not a surrogate *)
Definition scalar (cp : Z) : Prop :=
  0 <= cp <= 0x10FFFF /\ ~ (0xD800 <= cp <= 0xDFFF).


(** ** The registry's invariant, in the specification's words *)

(** [document_count] equals the number of documents stored for the brain,
    for every brain of the registry. *)
Definition counts_agree (st : Service.State) : Prop :=
  forall id b,
    Service.brains st !! id = Some b ->
    Service.document_count b = Z.of_nat (base.size (Service.documents_of st id)).

(** ** Example states of the service *)

(** An engine that never answers *)
Definition no_engine (id : jsstring) (q : QueryRequest)
  : option Service.EngineAnswer := None.

(** A brain without documents *)
Definition an_empty_brain : Service.Brain :=
  {| Service.name := js "Docs"; Service.description := None;
     Service.llm_provider := js "anthropic"; Service.model := DEFAULT_MODEL;
     Service.document_count := 0; Service.created_at := 0;
     Service.updated_at := 0 |}.

(** A service whose only brain, [b1], has no documents *)
Definition a_service_with_an_empty_brain : Service.State :=
  {| Service.brains := {[js "b1" := an_empty_brain]};
     Service.documents := {[js "b1" := ∅]};
     Service.engine_calls := []; Service.time := 1 |}.

(** The response of the gateway to a query of a brain without documents *)
Definition empty_brain_response : Response :=
  {| status := 400;
     body := Some (JObj [(js "error", JStr (js "Brain has no documents"));
                         (js "details",
                          JObj [(js "detail", JStr (js "Brain has no documents"))])]) |}.

(** ** The order of a stream's events, in the specification's words *)



(** A service whose only brain, [b1], has one document *)
Definition a_service_with_a_document : Service.State :=
  {| Service.brains :=
       {[js "b1" := {| Service.name := js "Docs"; Service.description := None;
                       Service.llm_provider := js "anthropic";
                       Service.model := DEFAULT_MODEL;
                       Service.document_count := 1; Service.created_at := 0;
                       Service.updated_at := 1 |}]};
     Service.documents :=
       {[js "b1" := {["a.pdf"%string := {| Service.doc_size := 2048;
                                           Service.doc_mime := "pdf";
                                           Service.doc_created_at := 1 |}]}]};
     Service.engine_calls := []; Service.time := 2 |}.

(** The files and the brain of the scenario of the specification's
    section 8 *)
Definition a_pdf_upload : Service.UploadFile :=
  {| Service.file_name := "a.pdf"; Service.file_extension := "pdf";
     Service.file_content_type := "pdf"; Service.file_size := 2048 |}.

Definition b_txt_upload : Service.UploadFile :=
  {| Service.file_name := "b.txt"; Service.file_extension := "txt";
     Service.file_content_type := "txt"; Service.file_size := 512 |}.

Definition an_exe_upload : Service.UploadFile :=
  {| Service.file_name := "x.exe"; Service.file_extension := "exe";
     Service.file_content_type := "pdf"; Service.file_size := 512 |}.

Definition docs_brain : BrainCreate :=
  {| bc_name := js "Docs"; bc_description := None;
     bc_llm_provider := js "anthropic"; bc_model := DEFAULT_MODEL |}.

(** The identifier the registry gives its first brain *)
Definition first_id : jsstring := fresh (dom (Service.brains Service.empty)).


(** ** The other schemas, client methods and routes of the gateway *)

Record BrainList := {
  bl_brains : list BrainResponse;
  bl_total : number
}.

Definition BrainListSchema (B : Builtins) : Schema BrainList :=
  z_object (fun p o =>
    Build_BrainList
      <$z> field "brains" (z_array (BrainResponseSchema B)) p o
      <*z> field "total" z_count p o).

Record ErrorResponse := {
  er_error : jsstring;
  er_detail : option jsstring;
  er_request_id : option jsstring
}.

Definition ErrorResponseSchema (B : Builtins) : Schema ErrorResponse :=
  z_object (fun p o =>
    Build_ErrorResponse
      <$z> field "error" (z_string []) p o
      <*z> field "detail" (optional (z_string [])) p o
      <*z> field "request_id" (optional (z_string [SFormat (is_uuid B)])) p o).

Record DocumentList := {
  dl_documents : list DocumentMetadata;
  dl_total : number
}.

Definition DocumentListSchema (B : Builtins) : Schema DocumentList :=
  z_object (fun p o =>
    Build_DocumentList
      <$z> field "documents" (z_array (DocumentMetadataSchema B)) p o
      <*z> field "total" z_count p o).

Record FileStats := {
  fs_originalName : jsstring;
  fs_size : number;
  fs_mimeType : jsstring;
  fs_extension : jsstring;
  fs_uploadedAt : jsstring
}.

Record FileUploadResponse := {
  fu_message : jsstring;
  fu_files : list FileStats;
  fu_brain_id : jsstring
}.

Definition FileStatsSchema : Schema FileStats :=
  z_object (fun p o =>
    Build_FileStats
      <$z> field "originalName" (z_string []) p o
      <*z> field "size" (z_number []) p o
      <*z> field "mimeType" (z_string []) p o
      <*z> field "extension" (z_string []) p o
      <*z> field "uploadedAt" (z_string []) p o).

Definition FileUploadResponseSchema (B : Builtins) : Schema FileUploadResponse :=
  z_object (fun p o =>
    Build_FileUploadResponse
      <$z> field "message" (z_string []) p o
      <*z> field "files" (z_array FileStatsSchema) p o
      <*z> field "brain_id" (z_string [SFormat (is_uuid B)]) p o).

Definition BrainList_json (l : BrainList) : json :=
  JObj [(js "brains", JArr (BrainResponse_json <$> bl_brains l));
        (js "total", JNum (bl_total l))].

Definition DocumentList_json (l : DocumentList) : json :=
  JObj [(js "documents", JArr (DocumentMetadata_json <$> dl_documents l));
        (js "total", JNum (dl_total l))].

Section Brains.

Context (B : Builtins) {S : Type} (send : UpRequest -> S -> AxiosResult * S).

(** *** The client ([client/quivr-client.ts]) *)

Definition listBrains : M S BrainList :=
  data <- request B send GET (js "/brains") NoBody ;;
  parse_or_throw (BrainListSchema B) (Some data).

Definition getBrain (brainId : jsstring) : M S BrainResponse :=
  data <- request B send GET (js "/brains/" ++ brainId) NoBody ;;
  parse_or_throw (BrainResponseSchema B) (Some data).

Definition deleteBrain (brainId : jsstring) : M S unit :=
  request B send DELETE (js "/brains/" ++ brainId) NoBody ;;;
  ret tt.

Definition listDocuments (brainId : jsstring) : M S DocumentList :=
  data <- request B send GET (js "/brains/" ++ brainId ++ js "/documents") NoBody ;;
  parse_or_throw (DocumentListSchema B) (Some data).

(** *** The routes ([routes/brains.ts]) *)

(** [GET /brains] *)
Definition get_brains : M S Response :=
  brains <- listBrains ;;
  ret {| status := 200; body := Some (BrainList_json brains) |}.

(** [GET /brains/:id] *)
Definition get_brain (id : jsstring) : M S Response :=
  brain <- getBrain id ;;
  ret {| status := 200; body := Some (BrainResponse_json brain) |}.

(** [DELETE /brains/:id] *)
Definition delete_brain (id : jsstring) : M S Response :=
  deleteBrain id ;;;
  ret {| status := 204; body := None |}.

(** [GET /brains/:id/documents] *)
Definition get_documents (id : jsstring) : M S Response :=
  result <- listDocuments id ;;
  ret {| status := 200; body := Some (DocumentList_json result) |}.

End Brains.


(** ** Replies and their JSON form *)

(** A schema reads back what [enc] writes: a value the schema has parsed
    from some input is parsed again, at any path, from its JSON form. *)
Definition reads_back {T} (inner : Schema T) (enc : T -> json) : Prop :=
  forall p input v,
    inner p input = inr v -> forall q, inner q (Some (enc v)) = inr v.

(** The world once the service has answered the request [r] and is in the
    state [s'] *)
Definition answered {S} (r : UpRequest) (s' : S) (w : World S) : World S :=
  {| svc := s'; sent := r :: sent w; disk := disk w; busy := busy w;
     console := console w; clock := clock w |}.

(** The response to a request that the service answers with an error, or
    does not answer: the status and the body of the service's answer,
    under [details], with the [detail] of that body as the message. *)
Definition relayed_error_response (B : Builtins) (error : AxiosError) : Response :=
  match ae_response error with
  | Some r =>
    {| status := ar_status r;
       body := Some (JObj [(js "error",
                            JStr (match detail_of (ar_data r) with
                                  | Some (JStr s) => s
                                  | Some v => ToString B v
                                  | None => ae_message error
                                  end));
                           (js "details", ar_data r)]) |}
  | None =>
    {| status := 500;
       body := Some (JObj [(js "error", JStr (ae_message error))]) |}
  end.

(** A request without a body *)
Definition bare_request (m : Method) (u : jsstring) : UpRequest :=
  {| method := m; url := u; payload := NoBody |}.

(** The request [createBrain] sends *)
Definition create_request (brainData : BrainCreate) : UpRequest :=
  {| method := POST; url := js "/brains";
     payload := JsonBody (BrainCreate_json brainData) |}.


(** ** The answer to an upload *)

(** What [getFileStats] gives for a file at the time [uploadedAt], and
    the same as [FileUploadResponseSchema] reads it *)
Definition file_stats_json (uploadedAt : jsstring) (file : File) : json :=
  JObj [(js "originalName", JStr (originalname file));
        (js "size", JNum (num (size file)));
        (js "mimeType", JStr (mimetype file));
        (js "extension", JStr (extname (originalname file)));
        (js "uploadedAt", JStr uploadedAt)].

Definition file_stats (uploadedAt : jsstring) (file : File) : FileStats :=
  {| fs_originalName := originalname file;
     fs_size := num (size file);
     fs_mimeType := mimetype file;
     fs_extension := extname (originalname file);
     fs_uploadedAt := uploadedAt |}.


(** ** The loop of [path.extname], by the part of the path it has read *)

(** The state in which the loop starts *)
Definition ext_init : ExtScan :=
  {| startDot := -1; startPart := 0; endIdx := -1;
     matchedSlash := true; preDotState := 0 |}.

(** [preDotState] once the characters [a] that precede the last dot of
    the segment have been read: 0 when there is none, 1 when the first is
    a dot, -1 otherwise. *)
Definition pre_dot_state (a : jsstring) : Z :=
  match a with
  | [] => 0
  | c :: _ => if c =? CHAR_DOT then 1 else -1
  end.

(** The state of the loop when it has read the end [t] of the last
    segment of the path, [t] starting at the index [off] and ending
    before the index [e]. *)
Definition scanned (off : nat) (t : jsstring) (e : Z) (st : ExtScan) : Prop :=
  endIdx st = e /\ matchedSlash st = false /\ startPart st = 0
  /\ (((CHAR_DOT ∉ t) /\ startDot st = -1 /\ preDotState st = 0)
      \/ exists a s,
           t = a ++ CHAR_DOT :: s /\ (CHAR_DOT ∉ s)
           /\ startDot st = Z.of_nat (off + length a)
           /\ preDotState st = pre_dot_state a).


(** ** [path.basename] (Node, POSIX flavour) and the names of the stored
    files ([middleware/upload.ts])

    The two loops of Node's implementation: the one that matches the
    suffix while it scans the path from its end, and the one that runs
    when there is no suffix to match. *)
Record BaseScan := {
  start_ : Z;
  end_ : Z;
  matched : bool;            (* [matchedSlash] *)
  extIdx : Z;
  firstNonSlashEnd : Z
}.

Fixpoint basename_suffix_scan (path suffix : jsstring) (n : nat) (st : BaseScan)
  : BaseScan :=
  match n with
  | O => st
  | Datatypes.S i =>
    let code := nth i path 0 in
    if code =? CHAR_FORWARD_SLASH then
      if negb (matched st)
      then {| start_ := Z.of_nat i + 1; end_ := end_ st; matched := matched st;
              extIdx := extIdx st; firstNonSlashEnd := firstNonSlashEnd st |}
      else basename_suffix_scan path suffix i st
    else
      let st1 :=
        if firstNonSlashEnd st =? -1
        then {| start_ := start_ st; end_ := end_ st; matched := false;
                extIdx := extIdx st; firstNonSlashEnd := Z.of_nat i + 1 |}
        else st in
      let st2 :=
        if 0 <=? extIdx st1 then
          if code =? nth (Z.to_nat (extIdx st1)) suffix 0 then
            if extIdx st1 - 1 =? -1
            then {| start_ := start_ st1; end_ := Z.of_nat i;
                    matched := matched st1; extIdx := extIdx st1 - 1;
                    firstNonSlashEnd := firstNonSlashEnd st1 |}
            else {| start_ := start_ st1; end_ := end_ st1;
                    matched := matched st1; extIdx := extIdx st1 - 1;
                    firstNonSlashEnd := firstNonSlashEnd st1 |}
          else {| start_ := start_ st1; end_ := firstNonSlashEnd st1;
                  matched := matched st1; extIdx := -1;
                  firstNonSlashEnd := firstNonSlashEnd st1 |}
        else st1 in
      basename_suffix_scan path suffix i st2
  end.

Fixpoint basename_scan (path : jsstring) (n : nat) (st : BaseScan) : BaseScan :=
  match n with
  | O => st
  | Datatypes.S i =>
    if nth i path 0 =? CHAR_FORWARD_SLASH then
      if negb (matched st)
      then {| start_ := Z.of_nat i + 1; end_ := end_ st; matched := matched st;
              extIdx := extIdx st; firstNonSlashEnd := firstNonSlashEnd st |}
      else basename_scan path i st
    else if end_ st =? -1 then
      basename_scan path i
        {| start_ := start_ st; end_ := Z.of_nat i + 1; matched := false;
           extIdx := extIdx st; firstNonSlashEnd := firstNonSlashEnd st |}
    else basename_scan path i st
  end.

(** [path.basename(path, suffix)] *)
Definition basename (path suffix : jsstring) : jsstring :=
  let init := {| start_ := 0; end_ := -1; matched := true;
                 extIdx := Z.of_nat (length suffix) - 1;
                 firstNonSlashEnd := -1 |} in
  if (0 <? length suffix)%nat && (length suffix <=? length path)%nat then
    if bool_decide (suffix = path) then []
    else
      let st := basename_suffix_scan path suffix (length path) init in
      let e := if start_ st =? end_ st then firstNonSlashEnd st
               else if end_ st =? -1 then Z.of_nat (length path)
               else end_ st in
      slice path (start_ st) e
  else
    let st := basename_scan path (length path) init in
    if end_ st =? -1 then [] else slice path (start_ st) (end_ st).

(** The [filename] function of the disk storage: [dateNow] is
    [Date.now()] and [random] is [Math.round(Math.random() * 1e9)], both
    written in decimal by the template literal. *)
Definition storage_filename (dateNow random : N) (file : File) : jsstring :=
  let uniqueSuffix := js (pretty dateNow) ++ js "-" ++ js (pretty random) in
  let ext := extname (originalname file) in
  let name := basename (originalname file) ext in
  name ++ js "-" ++ uniqueSuffix ++ ext.


(** ** The console, and the issues of a refused request *)

(** The world once [line] has been written by [console.error] *)
Definition logged {S} (line : jsstring) (w : World S) : World S :=
  {| svc := svc w; sent := sent w; disk := disk w; busy := busy w;
     console := line :: console w; clock := clock w |}.

(** An issue about the body as a whole, or about one of the keys *)
Definition located (keys : list string) (i : ZodIssue) : Prop :=
  path i = [] \/ exists k, k ∈ keys /\ path i = [Key (js k)].

(** A schema whose issues, when it has some, are about the value it is
    given *)
Definition reports_in_place {T} (inner : Schema T) : Prop :=
  forall p input issues,
    inner p input = inl issues ->
    issues <> [] /\ Forall (fun i => path i = p) issues.


(** ** Example replies of the service *)

(** A reply about a brain, with a key the schema does not have *)
Definition a_brain_reply : json :=
  JObj [(js "id", JStr (js "123e4567-e89b-12d3-a456-426614174000"));
        (js "name", JStr (js "Docs"));
        (js "description", JNull);
        (js "llm_provider", JStr (js "anthropic"));
        (js "model", JStr DEFAULT_MODEL);
        (js "document_count", JNum (num 0));
        (js "created_at", JStr (js "2024-01-20T10:00:00Z"));
        (js "updated_at", JStr (js "2024-01-20T10:00:00Z"));
        (js "owner", JStr (js "someone"))].

(** The brain of that reply *)
Definition a_brain : BrainResponse :=
  {| br_id := js "123e4567-e89b-12d3-a456-426614174000";
     br_name := js "Docs"; br_description := None;
     br_llm_provider := js "anthropic"; br_model := DEFAULT_MODEL;
     br_document_count := num 0;
     br_created_at := js "2024-01-20T10:00:00Z";
     br_updated_at := js "2024-01-20T10:00:00Z" |}.

(** A service that answers every request with the reply about the brain *)
Definition a_registry (r : UpRequest) (s : unit) : AxiosResult * unit :=
  (inr a_brain_reply, s).

(** A service that finds nothing: it answers every request with 404 *)
Definition an_empty_registry (r : UpRequest) (s : unit) : AxiosResult * unit :=
  (inl {| ae_message := js "Request failed with status code 404";
          ae_response :=
            Some {| ar_status := 404;
                    ar_data := JObj [(js "detail", JStr (js "Brain not found"))] |} |},
   s).

(** A service that accepts an upload, and lists the files by their names *)
Definition an_upload_service (r : UpRequest) (s : unit) : AxiosResult * unit :=
  (inr (JObj [(js "message", JStr (js "Successfully uploaded 1 files"));
              (js "files", JArr [JStr (js "notes.pdf")]);
              (js "brain_id", JStr (js "123e4567-e89b-12d3-a456-426614174000"))]),
   s).

(** A service that answers every request with a document whose size is
    written [1e999] *)
Definition a_service_with_a_huge_document (r : UpRequest) (s : unit)
  : AxiosResult * unit :=
  (inr (JObj [(js "name", JStr (js "a.pdf"));
              (js "size", JNum PosInf);
              (js "created_at", JStr (js "2024-01-20T10:00:00Z"));
              (js "modified_at", JStr (js "2024-01-20T10:00:00Z"));
              (js "path", JStr (js "/data/a.pdf"))]), s).

(** A world with one file in the upload directory *)
Definition a_world_with_a_file (p : jsstring) : World unit :=
  {| svc := tt; sent := []; disk := {[p]}; busy := ∅; console := [];
     clock := js "2024-01-20T10:00:00.000Z" |}.

(** A file whose name is in upper case *)
Definition an_upper_case_pdf : File :=
  {| fieldname := js "files"; originalname := js "NOTES.PDF";
     mimetype := js "application/pdf"; size := 2048;
     path_ := js "uploads/NOTES-1700000000000-44.PDF" |}.


(** ** The failures of a cleanup *)

(** The files [cleanupFiles] fails to remove: those on the disk that
    cannot be removed *)
Definition cleanup_failures {S} (files : list File) (w : World S) : list File :=
  filter (fun f => path_ f ∈ disk w /\ path_ f ∈ busy w) files.

(** The line [cleanupFiles] logs for a file it fails to remove *)
Definition cleanup_line (file : File) : jsstring :=
  js "Failed to cleanup file " ++ path_ file ++ js ":".


(** * Properties *)

(** ** [path.extname] on examples of Node's documentation *)

Example extname_html : extname (js "index.html") = js ".html".
Proof. reflexivity. Qed.
Example extname_two_dots : extname (js "index.coffee.md") = js ".md".
Proof. reflexivity. Qed.
Example extname_trailing_dot : extname (js "index.") = js ".".
Proof. reflexivity. Qed.
Example extname_none : extname (js "index") = [].
Proof. reflexivity. Qed.
Example extname_hidden : extname (js ".index") = [].
Proof. reflexivity. Qed.
Example extname_hidden_md : extname (js ".index.md") = js ".md".
Proof. reflexivity. Qed.
Example extname_dotdot : extname (js "a/..") = [].
Proof. reflexivity. Qed.

(** ** Numbers *)

Lemma Qred_inject_Z z : Qred (inject_Z z) = inject_Z z.
Proof.
  unfold inject_Z, Qred.
  pose proof (Z.ggcd_gcd z 1) as Hg.
  pose proof (Z.ggcd_correct_divisors z 1) as Hd.
  destruct (Z.ggcd z 1) as [g [aa bb]]; simpl in *.
  rewrite Z.gcd_1_r in Hg. subst g.
  destruct Hd as [Ha Hb].
  rewrite Z.mul_1_l in Ha, Hb. subst. reflexivity.
Qed.

Lemma isInteger_num z : isInteger (num z) = true.
Proof.
  unfold isInteger, num. apply bool_decide_eq_true.
  simpl. rewrite Qred_inject_Z. reflexivity.
Qed.

Lemma isInteger_inv x : isInteger x = true -> exists z, x = num z.
Proof.
  destruct x as [q| |]; simpl; try discriminate.
  intros H. apply bool_decide_eq_true in H.
  exists (Qnum (this q)). unfold num. f_equal.
  apply Qc_is_canon. simpl. rewrite Qred_inject_Z.
  destruct q as [[n d] Hc]; simpl in *. subst d. reflexivity.
Qed.

Lemma num_le_num a b : num_le (num a) (num b) = true <-> a <= b.
Proof.
  unfold num_le, num. rewrite bool_decide_eq_true.
  unfold Qcle. simpl. rewrite !Qred_inject_Z, Zle_Qle. tauto.
Qed.

Lemma num_lt_num a b : num_lt (num a) (num b) = false <-> b <= a.
Proof. unfold num_lt. rewrite negb_false_iff. apply num_le_num. Qed.

Lemma num_le_Fin p q : num_le (Fin p) (Fin q) = true <-> (p <= q)%Qc.
Proof. unfold num_le. apply bool_decide_eq_true. Qed.

Lemma zmap_inr {A C} (f : A -> C) x v :
  f <$z> x = inr v <-> exists a, x = inr a /\ v = f a.
Proof.
  destruct x; simpl; split.
  - discriminate.
  - intros (a & ? & ?); discriminate.
  - intros [= <-]. eauto.
  - intros (a' & [= <-] & ->). reflexivity.
Qed.

Lemma zap_inr {A C} (f : Parsed (A -> C)) x v :
  f <*z> x = inr v <-> exists g a, f = inr g /\ x = inr a /\ v = g a.
Proof.
  destruct f, x; simpl; split; try discriminate;
    try (intros (g & a' & ? & ? & ?); discriminate).
  - intros [= <-]. eauto.
  - intros (g & a' & [= <-] & [= <-] & ->). reflexivity.
Qed.

Lemma checked_inr {T} issues (v w : T) :
  checked issues v = inr w <-> issues = [] /\ w = v.
Proof.
  destruct issues; simpl; split.
  - intros [= <-]. auto.
  - intros [_ ->]. reflexivity.
  - discriminate.
  - intros [? _]. discriminate.
Qed.

Lemma z_string_range lo hi p input s :
  z_string [SMin lo; SMax hi] p input = inr s <->
  input = Some (JStr s) /\ (lo <= length s <= hi)%nat.
Proof.
  unfold z_string.
  destruct input as [[| | |s0| |]|];
    try (split; [discriminate | intros [H _]; discriminate]).
  rewrite checked_inr. simpl.
  destruct (Nat.ltb_spec (length s0) lo), (Nat.ltb_spec hi (length s0)); simpl;
    (split; [intros [Hi ->] | intros [[= ->] Hr]]);
    try discriminate; try lia; auto with lia.
Qed.

Lemma z_string_any p input s :
  z_string [] p input = inr s <-> input = Some (JStr s).
Proof.
  unfold z_string.
  destruct input as [[| | |s0| |]|]; simpl; split; try discriminate;
    intros [= ->]; reflexivity.
Qed.

Lemma default_inr {T} (inner : Schema T) d p input v :
  default_ inner d p input = inr v <->
  (input = None /\ v = d) \/ (input <> None /\ inner p input = inr v).
Proof.
  unfold default_. destruct input; split.
  - intros H. right. split; [discriminate | exact H].
  - intros [[[=] _] | [_ H]]. exact H.
  - intros [= <-]. left. auto.
  - intros [[_ ->] | [H _]]; [reflexivity | contradiction].
Qed.

Lemma z_tokens_range p input x :
  z_number [NInt; NMin (num 100); NMax (num 4096)] p input = inr x <->
  exists n : Z, input = Some (JNum (num n)) /\ x = num n /\ 100 <= n <= 4096.
Proof.
  unfold z_number.
  destruct input as [[| |y| | |]|];
    try (split; [discriminate | intros (n & [=] & _)]).
  rewrite checked_inr. simpl. split.
  - intros [Hi ->].
    destruct (isInteger y) eqn:Hint; [|discriminate].
    apply isInteger_inv in Hint as [n ->].
    destruct (num_lt (num n) (num 100)) eqn:Hlo; [discriminate|].
    destruct (num_lt (num 4096) (num n)) eqn:Hhi; [discriminate|].
    apply num_lt_num in Hlo, Hhi. exists n. auto.
  - intros (n & [= ->] & -> & Hlo & Hhi).
    rewrite isInteger_num.
    apply num_lt_num in Hlo, Hhi. rewrite Hlo, Hhi. auto.
Qed.

Lemma z_temperature_range p input x :
  z_number [NMin (num 0); NMax (num 1)] p input = inr x <->
  exists t : Qc, input = Some (JNum (Fin t)) /\ x = Fin t /\ (0 <= t <= 1)%Qc.
Proof.
  unfold z_number.
  destruct input as [[| |y| | |]|];
    try (split; [discriminate | intros (n & [=] & _)]).
  rewrite checked_inr. simpl. split.
  - intros [Hi ->].
    destruct (num_lt y (num 0)) eqn:Hlo; [discriminate|].
    destruct (num_lt (num 1) y) eqn:Hhi; [discriminate|].
    unfold num_lt in Hlo, Hhi. apply negb_false_iff in Hlo, Hhi.
    destruct y as [t| |]; try discriminate.
    apply num_le_Fin in Hlo, Hhi. exists t. auto.
  - intros (t & [= ->] & -> & Hlo & Hhi).
    unfold num_lt.
    assert (num_le (num 0) (Fin t) = true) as -> by (apply num_le_Fin; exact Hlo).
    assert (num_le (Fin t) (num 1) = true) as -> by (apply num_le_Fin; exact Hhi).
    auto.
Qed.

Lemma QueryRequestSchema_accepts body q :
  parse QueryRequestSchema body = inr q <-> acceptable_query body q.
Proof.
  unfold parse, QueryRequestSchema, z_object, acceptable_query.
  destruct body as [[| | | | |props]|];
    try (split; [discriminate | intros (props' & [=] & _)]).
  rewrite zap_inr. split.
  - intros (g & temp & Hg & Htemp & ->).
    apply zap_inr in Hg as (g' & tok & Hg' & Htok & ->).
    apply zmap_inr in Hg' as (qu & Hqu & ->).
    unfold field in *. simpl in *.
    apply z_string_range in Hqu as [Hqu Hlen].
    apply default_inr in Htok, Htemp.
    exists props. split; [reflexivity|]. split; [auto|]. split.
    + destruct Htok as [[? ->] | [_ Htok]]; [left; auto|].
      apply z_tokens_range in Htok as (n & ? & -> & ?). right. eauto.
    + destruct Htemp as [[? ->] | [_ Htemp]]; [left; auto|].
      apply z_temperature_range in Htemp as (t & ? & -> & ?). right. eauto.
  - intros (props' & [= <-] & [Hqu Hlen] & Htok & Htemp).
    destruct q as [qu tok temp]. simpl in *.
    exists (Build_QueryRequest qu tok), temp. split; [|split; [|reflexivity]].
    + apply zap_inr. exists (Build_QueryRequest qu), tok.
      split; [|split; [|reflexivity]].
      * apply zmap_inr. exists qu. split; [|reflexivity].
        unfold field. simpl. apply z_string_range. auto.
      * unfold field. simpl. apply default_inr.
        destruct Htok as [[? ->] | (n & Hn & -> & ?)]; [left; auto|].
        right. split; [congruence|]. apply z_tokens_range. eauto.
    + unfold field. simpl. apply default_inr.
      destruct Htemp as [[? ->] | (t & Ht & -> & ?)]; [left; auto|].
      right. split; [congruence|]. apply z_temperature_range. eauto.
Qed.

(** ** Query requests are validated at the boundary *)

Section QueryValidation.

Context (B : Builtins) {S : Type} (send : UpRequest -> S -> AxiosResult * S).

Lemma post_query_rejected id body issues (w : World S) :
  parse QueryRequestSchema body = inl issues ->
  route (post_query B send id body) w = (validation_error_response issues, w).
Proof.
  intros H. unfold route, asyncHandler, try_catch, post_query, bind, parse_or_throw.
  rewrite H. reflexivity.
Qed.

(** C5: [QueryRequestSchema] accepts a request body exactly when its
    question has 1 to 2000 characters (code units, as JavaScript counts
    them), [max_tokens] is an integer in
    [100, 4096] or absent (then 1024) and [temperature] is in [0, 1] or
    absent (then 0.7); a body that is not acceptable is answered by
    [POST /brains/:id/query] with status 400 and the error
    ["Validation error"], and the world is left as it was: no request has
    been sent to the service and its state has not changed. *)
Theorem C5_query_request_validated_at_the_boundary id body (w : World S) :
  (forall q, parse QueryRequestSchema body = inr q <-> acceptable_query body q)
  /\ ((~ exists q, acceptable_query body q) ->
      exists issues,
        route (post_query B send id body) w
        = (validation_error_response issues, w)).
Proof.
  split.
  - intros q. apply QueryRequestSchema_accepts.
  - intros Hno. destruct (parse QueryRequestSchema body) as [issues|q] eqn:Hp.
    + exists issues. apply post_query_rejected. exact Hp.
    + exfalso. apply Hno. exists q. apply QueryRequestSchema_accepts. exact Hp.
Qed.

End QueryValidation.

(** C5, witness: a request with an empty question is answered 400, the
    world unchanged. *)
Lemma C5_an_empty_question_is_refused :
  exists issues,
    route (post_query a_host agreeable_service (js "b1")
             (Some (JObj [(js "question", JStr [])])))
          (a_world tt)
    = (validation_error_response issues, a_world tt).
Proof.
  destruct (C5_query_request_validated_at_the_boundary
              a_host agreeable_service (js "b1")
              (Some (JObj [(js "question", JStr [])])) (a_world tt))
    as [Hiff Hrefused].
  apply Hrefused. intros [q Hq]. apply Hiff in Hq. discriminate Hq.
Defined.

Example a_question_alone_gets_the_defaults :
  parse QueryRequestSchema (Some (JObj [(js "question", JStr (js "hi"))]))
  = inr {| question := js "hi"; max_tokens := num 1024; temperature := num_0_7 |}.
Proof. reflexivity. Qed.

Example every_field_out_of_range_is_reported :
  parse QueryRequestSchema
        (Some (JObj [(js "question", JStr []);
                     (js "max_tokens", JNum (num 99));
                     (js "temperature", JNum (Fin (Q2Qc (3 # 2))))]))
  = inl [issue too_small [Key (js "question")];
         issue too_small [Key (js "max_tokens")];
         issue too_big [Key (js "temperature")]].
Proof. reflexivity. Qed.

Example a_fractional_max_tokens_is_refused :
  parse QueryRequestSchema
        (Some (JObj [(js "question", JStr (js "hi"));
                     (js "max_tokens", JNum (Fin (Q2Qc (201 # 2))))]))
  = inl [issue invalid_type [Key (js "max_tokens")]].
Proof. reflexivity. Qed.

Example a_missing_body_is_refused :
  parse QueryRequestSchema None = inl [issue invalid_type []].
Proof. reflexivity. Qed.

(** ** Brain creation requests *)

Lemma z_string_max hi p input s :
  z_string [SMax hi] p input = inr s <->
  input = Some (JStr s) /\ (length s <= hi)%nat.
Proof.
  unfold z_string.
  destruct input as [[| | |s0| |]|];
    try (split; [discriminate | intros [H _]; discriminate]).
  rewrite checked_inr. simpl.
  destruct (Nat.ltb_spec hi (length s0)); simpl;
    (split; [intros [Hi ->] | intros [[= ->] Hr]]);
    try discriminate; try lia; auto with lia.
Qed.

Lemma optional_inr {T} (inner : Schema T) p input v :
  optional inner p input = inr v <->
  (input = None /\ v = None)
  \/ (input <> None /\ exists x, inner p input = inr x /\ v = Some x).
Proof.
  unfold optional. destruct input; split.
  - intros H. apply zmap_inr in H. right. split; [discriminate | exact H].
  - intros [[[=] _] | [_ H]]. apply zmap_inr. exact H.
  - intros [= <-]. left. auto.
  - intros [[_ ->] | [H _]]; [reflexivity | contradiction].
Qed.

Lemma z_enum_inr values p input s :
  z_enum values p input = inr s <-> input = Some (JStr s) /\ s ∈ values.
Proof.
  unfold z_enum, includes.
  destruct input as [[| | |s0| |]|];
    try (split; [discriminate | intros [H _]; discriminate]).
  case_bool_decide; split.
  - intros [= <-]. auto.
  - intros [[= ->] _]. reflexivity.
  - discriminate.
  - intros [[= ->] ?]. contradiction.
Qed.

Lemma BrainCreateSchema_accepts body b :
  parse BrainCreateSchema body = inr b <-> acceptable_brain body b.
Proof.
  unfold parse, BrainCreateSchema, z_object, acceptable_brain.
  destruct body as [[| | | | |props]|];
    try (split; [discriminate | intros (props' & [=] & _)]).
  rewrite zap_inr. split.
  - intros (g3 & mo & Hg3 & Hmo & ->).
    apply zap_inr in Hg3 as (g2 & pr & Hg2 & Hpr & ->).
    apply zap_inr in Hg2 as (g1 & de & Hg1 & Hde & ->).
    apply zmap_inr in Hg1 as (na & Hna & ->).
    unfold field in *. simpl in *.
    apply z_string_range in Hna as [Hna Hlen].
    apply optional_inr in Hde. apply default_inr in Hpr, Hmo.
    exists props. split; [reflexivity|]. split; [auto|]. split; [|split].
    + destruct Hde as [[? ->] | [_ (d & Hd & ->)]]; [left; auto|].
      apply z_string_max in Hd as [? ?]. right. eauto.
    + destruct Hpr as [[? ->] | [_ Hpr]]; [left; auto|].
      apply z_enum_inr in Hpr. right. exact Hpr.
    + destruct Hmo as [[? ->] | [_ Hmo]]; [left; auto|].
      apply z_string_any in Hmo. right. exact Hmo.
  - intros (props' & [= <-] & [Hna Hlen] & Hde & Hpr & Hmo).
    destruct b as [na de pr mo]. simpl in *.
    exists (Build_BrainCreate na de pr), mo. split; [|split; [|reflexivity]].
    + apply zap_inr. exists (Build_BrainCreate na de), pr.
      split; [|split; [|reflexivity]].
      * apply zap_inr. exists (Build_BrainCreate na), de.
        split; [|split; [|reflexivity]].
        -- apply zmap_inr. exists na. split; [|reflexivity].
           unfold field. simpl. apply z_string_range. auto.
        -- unfold field. simpl. apply optional_inr.
           destruct Hde as [[? ->] | (d & Hd & -> & ?)]; [left; auto|].
           right. split; [congruence|]. exists d. split; [|reflexivity].
           apply z_string_max. auto.
      * unfold field. simpl. apply default_inr.
        destruct Hpr as [[? ->] | [Hp ?]]; [left; auto|].
        right. split; [congruence|]. apply z_enum_inr. auto.
    + unfold field. simpl. apply default_inr.
      destruct Hmo as [[? ->] | Hm]; [left; auto|].
      right. split; [congruence|]. apply z_string_any. exact Hm.
Qed.

Section BrainCreation.

Context (B : Builtins) {S : Type} (send : UpRequest -> S -> AxiosResult * S).

Lemma post_brain_rejected body issues (w : World S) :
  parse BrainCreateSchema body = inl issues ->
  route (post_brain B send body) w = (validation_error_response issues, w).
Proof.
  intros H. unfold route, asyncHandler, try_catch, post_brain, bind, parse_or_throw.
  rewrite H. reflexivity.
Qed.

(** C8, as amended: [BrainCreateSchema] accepts a request body exactly
    when its name has 1 to 100 characters (code units, as JavaScript
    counts them), its description is absent or
    has at most 500 characters, its provider is absent (then anthropic) or
    one of anthropic, openai and mistral, and its model is absent (then
    the fixed model claude-3-5-sonnet-20241022, whatever the provider) or a
    string; a body that is not acceptable is answered by [POST /brains]
    with status 400 and the error ["Validation error"], before anything
    is sent to the service. *)
Theorem C8_brain_creation_validated body (w : World S) :
  (forall b, parse BrainCreateSchema body = inr b <-> acceptable_brain body b)
  /\ ((~ exists b, acceptable_brain body b) ->
      exists issues,
        route (post_brain B send body) w = (validation_error_response issues, w)).
Proof.
  split.
  - intros b. apply BrainCreateSchema_accepts.
  - intros Hno. destruct (parse BrainCreateSchema body) as [issues|b] eqn:Hp.
    + exists issues. apply post_brain_rejected. exact Hp.
    + exfalso. apply Hno. exists b. apply BrainCreateSchema_accepts. exact Hp.
Qed.

End BrainCreation.

(** C8, witness: a request without a name is answered 400, the world
    unchanged. *)
Lemma C8_a_missing_name_is_refused :
  exists issues,
    route (post_brain a_host agreeable_service
             (Some (JObj [(js "description", JStr (js "no name"))])))
          (a_world tt)
    = (validation_error_response issues, a_world tt).
Proof.
  destruct (C8_brain_creation_validated
              a_host agreeable_service
              (Some (JObj [(js "description", JStr (js "no name"))]))
              (a_world tt))
    as [Hiff Hrefused].
  apply Hrefused. intros [b Hb]. apply Hiff in Hb. discriminate Hb.
Defined.

Example a_name_alone_gets_the_defaults :
  parse BrainCreateSchema (Some (JObj [(js "name", JStr (js "Docs"))]))
  = inr {| bc_name := js "Docs"; bc_description := None;
           bc_llm_provider := js "anthropic"; bc_model := DEFAULT_MODEL |}.
Proof. reflexivity. Qed.

Example an_unknown_provider_is_refused :
  parse BrainCreateSchema
        (Some (JObj [(js "name", JStr (js "Docs"));
                     (js "llm_provider", JStr (js "gemini"))]))
  = inl [issue invalid_enum_value [Key (js "llm_provider")]].
Proof. reflexivity. Qed.

(** C8, counterexample: a request that names the provider openai and no
    model gets the model claude-3-5-sonnet-20241022, the one a request for
    anthropic gets; so the defaults are not appropriate to the providers. *)
Lemma C8_default_model_ignores_provider :
  default_model_of (js "openai") = Some DEFAULT_MODEL
  /\ default_model_of (js "anthropic") = Some DEFAULT_MODEL
  /\ ~ provider_appropriate default_model_of.
Proof.
  assert (default_model_of (js "openai") = Some DEFAULT_MODEL) as Ho
    by (vm_compute; reflexivity).
  assert (default_model_of (js "anthropic") = Some DEFAULT_MODEL) as Ha
    by (vm_compute; reflexivity).
  split; [exact Ho|]. split; [exact Ha|].
  intros (offers & Hdisj & Hall).
  destruct (Hall (js "openai")) as (m1 & H1 & Ho1).
  { unfold PROVIDERS. set_solver. }
  destruct (Hall (js "anthropic")) as (m2 & H2 & Ho2).
  { unfold PROVIDERS. set_solver. }
  rewrite Ho in H1. rewrite Ha in H2.
  injection H1 as <-. injection H2 as <-.
  pose proof (Hdisj _ _ _ Ho1 Ho2) as Heq.
  vm_compute in Heq. discriminate.
Qed.

(** ** Errors and their status codes *)

Section ErrorStatuses.

Context (B : Builtins) {S : Type} (send : UpRequest -> S -> AxiosResult * S).

Lemma post_query_forwards id body q (w : World S) :
  parse QueryRequestSchema body = inr q ->
  post_query B send id body w
  = (result <- queryBrain B send id q ;;
     ret {| status := 200; body := Some (QueryResponse_json result) |}) w.
Proof.
  intros H. unfold post_query, bind at 1, parse_or_throw. rewrite H. reflexivity.
Qed.

Lemma post_query_relays id body q error s' (w : World S) :
  parse QueryRequestSchema body = inr q ->
  send (query_request id q) (svc w) = (inl error, s') ->
  (route (post_query B send id body) w).1
  = {| status := default 500 (ar_status <$> ae_response error);
       body := Some (object [(js "error",
                              Some (JStr (match (ar_data <$> ae_response error)
                                                ≫= detail_of with
                                          | Some (JStr s) => s
                                          | Some v => ToString B v
                                          | None => ae_message error
                                          end)));
                             (js "details", ar_data <$> ae_response error)]) |}.
Proof.
  intros Hp Hs. unfold route, asyncHandler, try_catch.
  rewrite (post_query_forwards _ _ _ _ Hp).
  unfold bind, queryBrain, bind, request.
  fold (query_request id q). rewrite Hs. reflexivity.
Qed.

(** The reports [HealthResponseSchema] accepts are those with a reported
    status, and the value read carries that status. *)
Lemma HealthResponseSchema_accepts data :
  match reported_status B data with
  | Some state =>
    exists report, parse (HealthResponseSchema B) (Some data) = inr report
                   /\ hr_status report = state
  | None => exists issues, parse (HealthResponseSchema B) (Some data) = inl issues
  end.
Proof.
  unfold reported_status, parse, HealthResponseSchema, z_object.
  destruct data as [| | | | |props]; try (eexists; reflexivity).
  unfold field, z_enum, z_string. cbn [app].
  destruct (prop (js "status") props) as [[| | |state| |]|];
    destruct (prop (js "version") props) as [[| | |version| |]|];
    destruct (prop (js "timestamp") props) as [[| | |timestamp| |]|];
    cbn [flat_map string_check checked app zmap zap];
    try (destruct (includes HEALTH_STATES state));
    try (destruct (is_datetime B timestamp));
    cbn [flat_map string_check checked app zmap zap andb];
    try (eexists; reflexivity);
    try (eexists; split; reflexivity).
Qed.

(** [GET /health] answers itself, whatever the service does. *)
Lemma get_health_cases (w : World S) :
  exists r w',
    get_health B send w = (Return r, w')
    /\ body_prop "typescript_service" r = Some (JStr (js "healthy"))
    /\ match send health_request (svc w) with
       | (inr data, _) =>
         match reported_status B data with
         | Some state =>
           status r = 200
           /\ body_prop "python_service" r = Some (JStr state)
         | None =>
           status r = 503
           /\ body_prop "python_service" r = Some (JStr (js "unhealthy"))
         end
       | (inl _, _) =>
         status r = 503
         /\ body_prop "python_service" r = Some (JStr (js "unhealthy"))
       end.
Proof.
  unfold get_health, try_catch, health, bind, request, parse_or_throw, now.
  fold health_request.
  destruct (send health_request (svc w)) as [[err|data] s'].
  - eexists _, _. repeat split; reflexivity.
  - pose proof (HealthResponseSchema_accepts data) as Hs.
    destruct (reported_status B data) as [state|].
    + destruct Hs as (report & -> & <-).
      eexists _, _. repeat split; reflexivity.
    + destruct Hs as (issues & ->).
      eexists _, _. repeat split; reflexivity.
Qed.

Lemma route_of_an_answer (fn : M S Response) r (w w' : World S) :
  fn w = (Return r, w') -> route fn w = (r, w').
Proof. intros H. unfold route, asyncHandler, try_catch. rewrite H. reflexivity. Qed.

(** C7, as amended: the error handler answers a Zod validation error with
    400, an error of the client with the status the service answered
    with, or with 500 when it has none, and any other error with 500.
    Every error a route passes on reaches the error handler, so the route
    answers with that status; a query whose request the service answers
    with an error status gets that status (404 for an unknown brain, 400
    for an empty one, 503 when the service says so), and a query whose
    request gets no answer, as on a timeout, gets 500.  [GET /health]
    passes no error on: it answers 503 itself when the health check fails,
    be it that the request is rejected, with or without an answer, or that
    the answer is no report. *)
Theorem C7_error_statuses (w : World S) :
  (forall e, exists r w',
      errorHandler e w = (Return r, w')
      /\ status r = match e with
                    | ZodError _ => 400
                    | QuivrClientError _ (Some s) _ => s
                    | QuivrClientError _ None _ => 500
                    | Error _ => 500
                    end)
  /\ (forall (fn : M S Response) e w',
         fn w = (Throw e, w') ->
         status (route fn w).1
         = match e with
           | ZodError _ => 400
           | QuivrClientError _ (Some s) _ => s
           | QuivrClientError _ None _ => 500
           | Error _ => 500
           end)
  /\ (forall id body q error s',
         parse QueryRequestSchema body = inr q ->
         send (query_request id q) (svc w) = (inl error, s') ->
         status (route (post_query B send id body) w).1
         = match ae_response error with
           | Some r => ar_status r
           | None => 500
           end)
  /\ (forall error s',
         send health_request (svc w) = (inl error, s') ->
         status (route (get_health B send) w).1 = 503)
  /\ (forall data s',
         send health_request (svc w) = (inr data, s') ->
         reported_status B data = None ->
         status (route (get_health B send) w).1 = 503).
Proof.
  split; [|split; [|split; [|split]]].
  - intros [issues | message [s|] details | message]; simpl; eauto.
  - intros fn e w' H. unfold route, asyncHandler, try_catch. rewrite H.
    destruct e as [issues | message [s|] details | message]; reflexivity.
  - intros id body q error s' Hp Hs.
    rewrite (post_query_relays _ _ _ _ _ _ Hp Hs). simpl.
    destruct (ae_response error); reflexivity.
  - intros error s' Hs.
    destruct (get_health_cases w) as (r & w' & Hr & _ & Hcase).
    rewrite (route_of_an_answer _ _ _ _ Hr). rewrite Hs in Hcase. apply Hcase.
  - intros data s' Hs Hno.
    destruct (get_health_cases w) as (r & w' & Hr & _ & Hcase).
    rewrite (route_of_an_answer _ _ _ _ Hr). rewrite Hs, Hno in Hcase. apply Hcase.
Qed.

End ErrorStatuses.

(** C7, counterexample: the service does not answer a query in time; the
    gateway's response has status 500, not 503. *)
Lemma C7_timeout_is_answered_500 :
  status (route (post_query a_host silent_service (js "b1")
                   (Some (JObj [(js "question", JStr (js "What is this about?"))])))
                (a_world tt)).1
  = 500.
Proof. vm_compute. reflexivity. Qed.

(** ** The health endpoint *)

(** A service whose engine fails answers 503, and the gateway relays it. *)
Example an_engine_failure_is_relayed_503 :
  status (route (post_query a_host (Service.serve no_engine) (js "b1")
                   (Some (JObj [(js "question", JStr (js "What is this about?"))])))
                (a_world a_service_with_a_document)).1
  = 503.
Proof. vm_compute. reflexivity. Qed.

(** C7, witness: the service answers a query of an unknown brain with
    404, and so does the gateway. *)
Lemma C7_a_404_of_the_service_is_relayed :
  status (route (post_query a_host (Service.serve no_engine) (js "b2")
                   (Some (JObj [(js "question", JStr (js "What is this about?"))])))
                (a_world a_service_with_a_document)).1
  = 404.
Proof.
  destruct (C7_error_statuses a_host (Service.serve no_engine)
              (a_world a_service_with_a_document)) as (_ & _ & Hrelay & _).
  apply (Hrelay (js "b2")
           (Some (JObj [(js "question", JStr (js "What is this about?"))]))
           {| question := js "What is this about?"; max_tokens := num 1024;
              temperature := num_0_7 |}
           (Service.error_reply Service.NotFoundError)
           a_service_with_a_document).
  - reflexivity.
  - vm_compute. reflexivity.
Defined.


Section Health.

Context (B : Builtins) {S : Type} (send : UpRequest -> S -> AxiosResult * S).

(** C9: [GET /health] always answers, and never passes an error on: the
    body says the gateway is healthy; when the service answers the health
    check with a report (an object with one of the three states, a version
    and the text of a date and time), the status is 200 and the body
    carries the state the service reported; when the check fails (the
    request is rejected or the answer is no report), the status is 503
    and the body marks the service unhealthy. *)
Theorem C9_health_reports_both_services (w : World S) :
  exists r w',
    get_health B send w = (Return r, w')
    /\ route (get_health B send) w = (r, w')
    /\ body_prop "typescript_service" r = Some (JStr (js "healthy"))
    /\ match send health_request (svc w) with
       | (inr data, _) =>
         match reported_status B data with
         | Some state =>
           status r = 200
           /\ body_prop "python_service" r = Some (JStr state)
         | None =>
           status r = 503
           /\ body_prop "python_service" r = Some (JStr (js "unhealthy"))
         end
       | (inl _, _) =>
         status r = 503
         /\ body_prop "python_service" r = Some (JStr (js "unhealthy"))
       end.
Proof.
  destruct (get_health_cases B send w) as (r & w' & Hr & Hts & Hcase).
  exists r, w'. repeat split; try assumption.
  apply route_of_an_answer, Hr.
Qed.

End Health.

(** C9, witness: a service that reports itself healthy, or degraded, is
    answered 200 with that state; a service that cannot be reached is
    answered 503 and marked unhealthy. *)
Lemma C9_the_state_of_the_service_is_reported :
  (status (route (get_health a_host (a_reporting_service "healthy")) (a_world tt)).1 = 200
   /\ body_prop "python_service"
        (route (get_health a_host (a_reporting_service "healthy")) (a_world tt)).1
      = Some (JStr (js "healthy")))
  /\ (status (route (get_health a_host (a_reporting_service "degraded")) (a_world tt)).1 = 200
      /\ body_prop "python_service"
           (route (get_health a_host (a_reporting_service "degraded")) (a_world tt)).1
         = Some (JStr (js "degraded")))
  /\ (status (route (get_health a_host an_unreachable_service) (a_world tt)).1 = 503
      /\ body_prop "python_service"
           (route (get_health a_host an_unreachable_service) (a_world tt)).1
         = Some (JStr (js "unhealthy"))).
Proof.
  destruct (C9_health_reports_both_services a_host (a_reporting_service "healthy")
              (a_world tt)) as (r1 & w1 & _ & E1 & _ & H1).
  destruct (C9_health_reports_both_services a_host (a_reporting_service "degraded")
              (a_world tt)) as (r2 & w2 & _ & E2 & _ & H2).
  destruct (C9_health_reports_both_services a_host an_unreachable_service
              (a_world tt)) as (r3 & w3 & _ & E3 & _ & H3).
  rewrite E1, E2, E3. vm_compute in H1, H2, H3.
  exact (conj H1 (conj H2 H3)).
Defined.

(** ** Uploads: the files multer stages and their removal *)

Section Effects.

Context {S : Type}.
Implicit Types w : World S.

Lemma bind_return {A C} (m : M S A) (k : A -> M S C) w a w' :
  m w = (Return a, w') -> bind m k w = k a w'.
Proof. intros H. unfold bind. rewrite H. reflexivity. Qed.

Lemma bind_throw {A C} (m : M S A) (k : A -> M S C) w e w' :
  m w = (Throw e, w') -> bind m k w = (Throw e, w').
Proof. intros H. unfold bind. rewrite H. reflexivity. Qed.

Lemma same_service_refl w : same_service w w.
Proof. repeat split. Qed.

Lemma same_service_trans w1 w2 w3 :
  same_service w1 w2 -> same_service w2 w3 -> same_service w1 w3.
Proof.
  unfold same_service. intros (?&?&?&?) (?&?&?&?). repeat split; congruence.
Qed.

Lemma cleanup_one (file : File) w :
  exists w',
    try_catch
      (present <- existsSync (path_ file) ;;
       if present : bool then unlinkSync (path_ file) else ret tt)
      (fun error =>
         console_error (js "Failed to cleanup file " ++ path_ file ++ js ":")) w
    = (Return tt, w')
    /\ same_service w w'
    /\ disk w' = disk w ∖ ({[path_ file]} ∖ busy w).
Proof.
  unfold try_catch, bind, existsSync, unlinkSync, ret, console_error.
  destruct (decide (path_ file ∈ disk w)) as [Hd|Hd].
  - rewrite !(bool_decide_eq_true_2 _ Hd).
    destruct (decide (path_ file ∈ busy w)) as [Hb|Hb].
    + rewrite (bool_decide_eq_true_2 _ Hb).
      eexists. split; [reflexivity|]. split; [repeat split|]. simpl. set_solver.
    + rewrite (bool_decide_eq_false_2 _ Hb).
      eexists. split; [reflexivity|]. split; [repeat split|]. simpl. set_solver.
  - rewrite (bool_decide_eq_false_2 _ Hd).
    eexists. split; [reflexivity|]. split; [repeat split|]. set_solver.
Qed.

(** [cleanupFiles] returns, leaves the service alone and removes from
    the disk every file that can be removed. *)
Lemma cleanupFiles_spec files w :
  exists w',
    cleanupFiles files w = (Return tt, w')
    /\ same_service w w'
    /\ disk w' = removed files w (disk w).
Proof.
  unfold cleanupFiles, removed, paths. revert w.
  induction files as [|file files IH]; intros w; cbn [forEach fmap list_fmap].
  - exists w. split; [reflexivity|]. split; [apply same_service_refl|]. set_solver.
  - destruct (cleanup_one file w) as (w1 & H1 & Hs1 & Hd1).
    destruct (IH w1) as (w2 & H2 & Hs2 & Hd2).
    exists w2. split; [|split].
    + unfold bind at 1. rewrite H1. exact H2.
    + eapply same_service_trans; eauto.
    + rewrite Hd2, Hd1. destruct Hs1 as (_ & _ & -> & _). set_solver.
Qed.

Lemma remove_stored_spec (file : File) w :
  exists w',
    remove_stored file w = (Return tt, w')
    /\ same_service w w'
    /\ disk w' = disk w ∖ ({[path_ file]} ∖ busy w).
Proof.
  unfold remove_stored, try_catch, unlinkSync, ret.
  destruct (decide (path_ file ∈ disk w)) as [Hd|Hd].
  - rewrite !(bool_decide_eq_true_2 _ Hd).
    destruct (decide (path_ file ∈ busy w)) as [Hb|Hb].
    + rewrite (bool_decide_eq_true_2 _ Hb).
      eexists. split; [reflexivity|]. split; [repeat split|]. simpl. set_solver.
    + rewrite (bool_decide_eq_false_2 _ Hb).
      eexists. split; [reflexivity|]. split; [repeat split|]. simpl. set_solver.
  - rewrite (bool_decide_eq_false_2 _ Hd).
    eexists. split; [reflexivity|]. split; [repeat split|]. set_solver.
Qed.

Lemma remove_all_stored_spec stored w :
  exists w',
    forEach remove_stored stored w = (Return tt, w')
    /\ same_service w w'
    /\ disk w' = removed stored w (disk w).
Proof.
  unfold removed, paths. revert w.
  induction stored as [|file stored IH]; intros w; cbn [forEach fmap list_fmap].
  - exists w. split; [reflexivity|]. split; [apply same_service_refl|]. set_solver.
  - destruct (remove_stored_spec file w) as (w1 & H1 & Hs1 & Hd1).
    destruct (IH w1) as (w2 & H2 & Hs2 & Hd2).
    exists w2. split; [|split].
    + unfold bind at 1. rewrite H1. exact H2.
    + eapply same_service_trans; eauto.
    + rewrite Hd2, Hd1. destruct Hs1 as (_ & _ & -> & _). set_solver.
Qed.

Lemma store_spec (file : File) w :
  exists w',
    store file w = (Return tt, w')
    /\ same_service w w' /\ disk w' = {[path_ file]} ∪ disk w.
Proof. eexists. split; [reflexivity|]. split; [repeat split|reflexivity]. Qed.

Lemma store_all_spec files w :
  exists w',
    forEach store files w = (Return tt, w')
    /\ same_service w w'
    /\ disk w' = paths files ∪ disk w.
Proof.
  unfold paths. revert w.
  induction files as [|file files IH]; intros w; cbn [forEach fmap list_fmap].
  - exists w. split; [reflexivity|]. split; [apply same_service_refl|]. set_solver.
  - destruct (store_spec file w) as (w1 & H1 & Hs1 & Hd1).
    destruct (IH w1) as (w2 & H2 & Hs2 & Hd2).
    exists w2. split; [|split].
    + unfold bind at 1. rewrite H1. exact H2.
    + eapply same_service_trans; eauto.
    + rewrite Hd2, Hd1. set_solver.
Qed.

(** An aborted upload passes the error on after it has removed the files
    stored so far; the files stored behind the refused part stay. *)
Lemma abort_spec {A} stored staged e w :
  exists w',
    abort (A := A) stored staged e w = (Throw e, w')
    /\ same_service w w'
    /\ disk w' = paths staged ∪ removed stored w (disk w).
Proof.
  unfold abort.
  destruct (remove_all_stored_spec stored w) as (w1 & H1 & Hs1 & Hd1).
  destruct (store_all_spec staged w1) as (w2 & H2 & Hs2 & Hd2).
  exists w2. unfold bind at 1. rewrite H1. unfold bind at 1. rewrite H2.
  split; [reflexivity|]. split; [eapply same_service_trans; eauto|].
  rewrite Hd2, Hd1. reflexivity.
Qed.

End Effects.

(** *** The file filter *)

Lemma fileFilter_accepts B f :
  fileFilter B f = inr true <->
  toLowerCase B (extname (originalname f)) ∈ ALLOWED_EXTENSIONS
  /\ mimetype f ∈ ALLOWED_MIME_TYPES.
Proof.
  unfold fileFilter, includes.
  destruct (decide (toLowerCase B (extname (originalname f)) ∈ ALLOWED_EXTENSIONS))
    as [He|He].
  - rewrite (bool_decide_eq_true_2 _ He). simpl.
    destruct (decide (mimetype f ∈ ALLOWED_MIME_TYPES)) as [Hm|Hm].
    + rewrite (bool_decide_eq_true_2 _ Hm). simpl. tauto.
    + rewrite (bool_decide_eq_false_2 _ Hm). simpl.
      split; [discriminate | tauto].
  - rewrite (bool_decide_eq_false_2 _ He). simpl.
    split; [discriminate | tauto].
Qed.


(** *** The files of a body *)



Lemma received_path part : path_ (received part) = path_ part.
Proof. reflexivity. Qed.

Lemma paths_received parts : paths (received <$> parts) = paths parts.
Proof.
  unfold paths. rewrite <- list_fmap_compose. reflexivity.
Qed.

Lemma paths_filter (P : File -> Prop) `{!forall f, Decision (P f)} files :
  paths (filter P files) ⊆ paths files.
Proof.
  unfold paths. intros p Hp. apply elem_of_list_to_set in Hp.
  apply elem_of_list_to_set.
  apply list_elem_of_fmap in Hp as (f & -> & Hf).
  apply list_elem_of_filter in Hf as [_ Hf].
  apply list_elem_of_fmap. eauto.
Qed.

Lemma paths_named_parts parts : paths (named_parts parts) ⊆ paths parts.
Proof.
  unfold named_parts, file_parts.
  etransitivity; [apply paths_filter|].
  rewrite paths_received. apply paths_filter.
Qed.

Lemma paths_staged_late B late name rest :
  paths (staged_late B late name rest) ⊆ paths rest.
Proof.
  unfold staged_late.
  etransitivity; [apply paths_filter|].
  rewrite paths_received. apply paths_filter.
Qed.

Lemma paths_cons (file : File) files : paths (file :: files) = {[path_ file]} ∪ paths files.
Proof. reflexivity. Qed.

Lemma paths_snoc (file : File) files : paths (files ++ [file]) ≡ paths files ∪ {[path_ file]}.
Proof. unfold paths. rewrite fmap_app. cbn. set_solver. Qed.

Lemma paths_left_behind B late parts : forall seen,
  paths (left_behind B late seen parts) ⊆ paths parts.
Proof.
  induction parts as [|part rest IH]; intros seen; cbn [left_behind];
    [reflexivity|].
  rewrite paths_cons.
  pose proof (paths_staged_late B late (js "files") rest) as Hst.
  repeat match goal with
         | |- context [if ?b then _ else _] => destruct b
         | |- context [match ?x with _ => _ end] => destruct x
         end;
    try (etransitivity; [apply IH|]); set_solver.
Qed.

Section Multer.

Context (B : Builtins) {S : Type} (late : File -> bool).
Implicit Types w : World S.


End Multer.



Section UploadRoute.

Context (B : Builtins) {S : Type} (send : UpRequest -> S -> AxiosResult * S)
        (late : File -> bool).
Implicit Types w : World S.

Lemma getFileStats_one (file : File) w :
  exists stat, getFileStats file w = (Return stat, w).
Proof. eexists. reflexivity. Qed.

Lemma getFileStats_spec files w :
  exists stats, mapM getFileStats files w = (Return stats, w).
Proof.
  induction files as [|file files [stats IH]]; cbn [mapM].
  - eexists. reflexivity.
  - destruct (getFileStats_one file w) as [stat H1].
    eexists. unfold bind at 1. rewrite H1.
    unfold bind at 1. rewrite IH. reflexivity.
Qed.

(** The handler sends one request, the files it was given, and removes
    the files whether the service accepts them or not. *)
Lemma upload_handler_spec id file files w :
  exists o w',
    upload_handler B send id (Some (file :: files)) w = (o, w')
    /\ sent w' = upload_request id (file :: files) :: sent w
    /\ svc w' = (send (upload_request id (file :: files)) (svc w)).2
    /\ busy w' = busy w
    /\ disk w' = removed (file :: files) w (disk w)
    /\ match (send (upload_request id (file :: files)) (svc w)).1 with
       | inr data => exists r, o = Return r /\ status r = 201
       | inl error => o = Throw (onRejected B error)
       end.
Proof.
  unfold upload_handler, try_catch, uploadDocumentsWithFormData.
  unfold bind at 1, request. fold (upload_request id (file :: files)).
  destruct (send (upload_request id (file :: files)) (svc w)) as [[err|data] s'];
    cbn [fst snd].
  - cbn beta iota. unfold bind at 1.
    match goal with |- context [cleanupFiles ?fs ?w1] =>
      destruct (cleanupFiles_spec fs w1) as (w2 & H2 & Hs2 & Hd2) end.
    rewrite H2. unfold throw.
    eexists _, _. split; [reflexivity|].
    destruct Hs2 as (Hsvc & Hsent & Hbusy & _). cbn in Hsvc, Hsent, Hbusy, Hd2.
    repeat split; auto.
  - cbn beta iota. unfold bind at 1.
    match goal with |- context [cleanupFiles ?fs ?w1] =>
      destruct (cleanupFiles_spec fs w1) as (w2 & H2 & Hs2 & Hd2) end.
    rewrite H2.
    destruct (getFileStats_spec (file :: files) w2) as [stats Hst].
    unfold bind at 1. rewrite Hst. unfold ret.
    eexists _, _. split; [reflexivity|].
    destruct Hs2 as (Hsvc & Hsent & Hbusy & _). cbn in Hsvc, Hsent, Hbusy, Hd2.
    repeat split; eauto.
Qed.

Lemma errorHandler_spec e w :
  exists r w', errorHandler e w = (Return r, w')
               /\ same_service w w' /\ disk w' = disk w.
Proof.
  destruct e; simpl; eexists _, _; (split; [reflexivity|]);
    (split; [repeat split|reflexivity]).
Qed.

Lemma route_spec (fn : M S Response) w :
  match fn w with
  | (Return r, w') => route fn w = (r, w')
  | (Throw e, w') =>
    exists r w'', route fn w = (r, w'')
                  /\ errorHandler e w' = (Return r, w'')
                  /\ same_service w' w'' /\ disk w'' = disk w'
  end.
Proof.
  unfold route, asyncHandler, try_catch.
  destruct (fn w) as [[r|e] w']; [reflexivity|].
  destruct (errorHandler_spec e w') as (r & w'' & H & Hs & Hd).
  rewrite H. eauto 10.
Qed.


End UploadRoute.





Section UploadClaims.

Context (B : Builtins) {S : Type} (send : UpRequest -> S -> AxiosResult * S)
        (late : File -> bool).
Implicit Types w : World S.





End UploadClaims.




Example an_upper_case_extension_is_accepted :
  fileFilter a_host
             {| fieldname := js "files"; originalname := js "REPORT.PDF";
                mimetype := js "application/pdf"; size := 2048;
                path_ := js "uploads/REPORT-1700000000000-7.PDF" |}
  = inr true.
Proof. vm_compute. reflexivity. Qed.

Example a_refused_content_type_is_named :
  fileFilter a_host
             {| fieldname := js "files"; originalname := js "photo.pdf";
                mimetype := js "image/png"; size := 2048;
                path_ := js "uploads/photo-1700000000000-8.pdf" |}
  = inl (Error (js "MIME type not allowed: image/png")).
Proof. vm_compute. reflexivity. Qed.

(** The extension is put in lower case as a whole: that of [RÉSUMÉ.EXÉ] is
    named [.exé]. *)
Example a_refused_extension_is_named_in_lower_case :
  fileFilter a_host
             {| fieldname := js "files";
                originalname := js "R" ++ [0xC9] ++ js "SUM" ++ [0xC9] ++ js ".EX" ++ [0xC9];
                mimetype := js "application/pdf"; size := 2048;
                path_ := js "uploads/resume-1700000000000-9.exe" |}
  = inl (Error (js "File type not allowed: .ex" ++ [0xE9]
                ++ js ". Allowed types: .pdf, .txt, .md, .doc, .docx, .csv, .json")).
Proof. vm_compute. reflexivity. Qed.

Example a_valid_file_is_forwarded_and_removed :
  (route (post_documents a_host agreeable_service all_late (js "b1") [a_pdf])
         (a_world tt)).2
  = {| svc := tt; sent := [upload_request (js "b1") [a_pdf]]; disk := ∅;
       busy := ∅; console := []; clock := js "2024-01-20T10:00:00.000Z" |}.
Proof. vm_compute. reflexivity. Qed.

(** Text fields are no files: a body of a file and thirty fields is
    forwarded. *)
Example text_fields_are_not_counted :
  sent (route (post_documents a_host agreeable_service all_late (js "b1")
                 (a_pdf :: replicate 30 a_text_field))
              (a_world tt)).2
  = [upload_request (js "b1") [a_pdf]].
Proof. vm_compute. reflexivity. Qed.

(** A file is forwarded under the base name of the name its part
    declares. *)
Example a_file_is_forwarded_under_its_base_name :
  named_parts [{| fieldname := js "files"; originalname := js "C:\docs\notes.pdf";
                  mimetype := js "application/pdf"; size := 2048;
                  path_ := js "uploads/notes-1700000000000-42.pdf" |}]
  = [a_pdf].
Proof. vm_compute. reflexivity. Qed.

(** The refusal of a file is not a [ZodError] nor an error of the client:
    the error handler answers it as an unhandled error. *)
Example a_refused_upload_is_answered_500 :
  (route (post_documents a_host agreeable_service all_late (js "b1") [a_pdf; an_exe])
         (a_world tt)).1
  = {| status := 500;
       body := Some (JObj [(js "error", JStr (js "Internal server error"));
                           (js "message",
                            JStr (js "File type not allowed: .exe. Allowed types: .pdf, .txt, .md, .doc, .docx, .csv, .json"))]) |}.
Proof. vm_compute. reflexivity. Qed.



(** ** Document names in request paths *)

Lemma hex_value_digit d : 0 <= d < 16 -> hex_value (hex_digit d) = Some d.
Proof.
  intros Hd. unfold hex_value, hex_digit.
  destruct (Z.ltb_spec d 10).
  - replace ((48 <=? 48 + d) && (48 + d <=? 57)) with true
      by (symmetry; apply andb_true_iff; split; apply Z.leb_le; lia).
    f_equal. lia.
  - replace ((48 <=? 55 + d) && (55 + d <=? 57)) with false
      by (symmetry; apply andb_false_iff; right; apply Z.leb_gt; lia).
    replace ((65 <=? 55 + d) && (55 + d <=? 70)) with true
      by (symmetry; apply andb_true_iff; split; apply Z.leb_le; lia).
    f_equal. lia.
Qed.

Lemma read_octet_percent b rest :
  0 <= b < 256 -> read_octet (percent b ++ rest) = Some (b, rest).
Proof.
  intros Hb. unfold percent, read_octet. cbn [app].
  rewrite Z.eqb_refl.
  rewrite !hex_value_digit by (Z.div_mod_to_equations; lia).
  cbn. do 2 f_equal. Z.div_mod_to_equations; lia.
Qed.

Lemma uriUnreserved_not_percent c : uriUnreserved c = true -> c <> PERCENT.
Proof. intros H ->. vm_compute in H. discriminate. Qed.

Lemma uriUnreserved_not_slash c :
  uriUnreserved c = true -> c <> CHAR_FORWARD_SLASH.
Proof. intros H ->. vm_compute in H. discriminate. Qed.

Lemma read_octets_percent bs rest :
  Forall (fun b => 0 <= b < 256) bs ->
  read_octets (length bs) (flat_map percent bs ++ rest) = Some (bs, rest).
Proof.
  induction 1 as [|b bs Hb _ IH]; [reflexivity|].
  cbn [length read_octets flat_map]. rewrite <- app_assoc.
  rewrite read_octet_percent by exact Hb. cbn [mbind option_bind fst snd].
  rewrite IH. reflexivity.
Qed.

Lemma decode_loop_percent fuel rest :
  decode_loop (Datatypes.S fuel) (PERCENT :: rest)
  = r ← read_octet (PERCENT :: rest);
    if r.1 <? 0x80 then cons r.1 <$> decode_loop fuel r.2
    else
      if bool_decide (leading_ones r.1 = 1%nat)
         || bool_decide (4 < leading_ones r.1)%nat then None
      else
        rs ← read_octets (leading_ones r.1 - 1) r.2;
        cp ← utf8_decode (r.1 :: rs.1);
        app (utf16 cp) <$> decode_loop fuel rs.2.
Proof. cbn [decode_loop]. rewrite Z.eqb_refl. reflexivity. Qed.

Lemma decode_loop_plain fuel c rest :
  c <> PERCENT ->
  decode_loop (Datatypes.S fuel) (c :: rest) = cons c <$> decode_loop fuel rest.
Proof.
  intros Hc. cbn [decode_loop].
  destruct (Z.eqb_spec c PERCENT); [contradiction|reflexivity].
Qed.

(** One round of the decoding loop reads back an octet below 0x80. *)
Lemma decode_one_octet fuel b rest :
  0 <= b < 0x80 ->
  decode_loop (Datatypes.S fuel) (percent b ++ rest)
  = cons b <$> decode_loop fuel rest.
Proof.
  intros Hb. change (percent b ++ rest) with (PERCENT :: (tail (percent b) ++ rest)).
  rewrite decode_loop_percent.
  change (PERCENT :: (tail (percent b) ++ rest)) with (percent b ++ rest).
  rewrite read_octet_percent by lia. cbn [mbind option_bind fst snd].
  destruct (Z.ltb_spec b 0x80); [reflexivity|lia].
Qed.

(** One round of the decoding loop reads back the octets of a code point
    encoded on two to four octets. *)
Lemma decode_octets fuel b0 bs cp rest :
  0x80 <= b0 < 256 ->
  Forall (fun b => 0 <= b < 256) bs ->
  leading_ones b0 = Datatypes.S (length bs) ->
  (1 <= length bs <= 3)%nat ->
  utf8_decode (b0 :: bs) = Some cp ->
  decode_loop (Datatypes.S fuel) (flat_map percent (b0 :: bs) ++ rest)
  = app (utf16 cp) <$> decode_loop fuel rest.
Proof.
  intros Hb0 Hbs Hn Hlen Hcp. cbn [flat_map]. rewrite <- app_assoc.
  change (percent b0 ++ flat_map percent bs ++ rest)
    with (PERCENT :: (tail (percent b0) ++ flat_map percent bs ++ rest)).
  rewrite decode_loop_percent.
  change (PERCENT :: (tail (percent b0) ++ flat_map percent bs ++ rest))
    with (percent b0 ++ flat_map percent bs ++ rest).
  rewrite read_octet_percent by lia. cbn [mbind option_bind fst snd].
  destruct (Z.ltb_spec b0 0x80); [lia|].
  rewrite Hn.
  rewrite (bool_decide_eq_false_2 (Datatypes.S (length bs) = 1%nat)) by lia.
  rewrite (bool_decide_eq_false_2 (4 < Datatypes.S (length bs))%nat) by lia.
  cbn [orb].
  replace (Datatypes.S (length bs) - 1)%nat with (length bs) by lia.
  rewrite read_octets_percent by exact Hbs. cbn [mbind option_bind fst snd].
  rewrite Hcp. reflexivity.
Qed.

(** Arithmetic on quotients and remainders by constants *)
Ltac divmod := Z.div_mod_to_equations; lia.

(** Decides a comparison of the goal by arithmetic. *)
Ltac decide_leb :=
  repeat match goal with
         | |- context [?a <=? ?b] =>
           first [ replace (a <=? b) with true
                     by (symmetry; apply Z.leb_le; divmod)
                 | replace (a <=? b) with false
                     by (symmetry; apply Z.leb_gt; divmod) ]
         | |- context [?a <? ?b] =>
           first [ replace (a <? b) with true
                     by (symmetry; apply Z.ltb_lt; divmod)
                 | replace (a <? b) with false
                     by (symmetry; apply Z.ltb_ge; divmod) ]
         end.

Lemma decode_code_point fuel cp rest :
  scalar cp ->
  decode_loop (Datatypes.S fuel) (flat_map percent (utf8 cp) ++ rest)
  = app (utf16 cp) <$> decode_loop fuel rest.
Proof.
  intros [Hr Hs]. unfold utf8.
  destruct (Z.ltb_spec cp 0x80) as [H1|H1].
  { cbn [flat_map]. rewrite app_nil_r. rewrite decode_one_octet by lia.
    unfold utf16. decide_leb. reflexivity. }
  destruct (Z.ltb_spec cp 0x800) as [H2|H2].
  { apply decode_octets.
    - divmod.
    - repeat constructor; divmod.
    - unfold leading_ones. decide_leb. reflexivity.
    - cbn [length]. lia.
    - unfold utf8_decode, continuation.
      replace ((0xC0 + cp / 64 - 0xC0) * 64 + (0x80 + cp mod 64 - 0x80)) with cp
        by divmod.
      decide_leb. reflexivity. }
  destruct (Z.ltb_spec cp 0x10000) as [H3|H3].
  { apply decode_octets.
    - divmod.
    - repeat constructor; divmod.
    - unfold leading_ones. decide_leb. reflexivity.
    - cbn [length]. lia.
    - unfold utf8_decode, continuation.
      replace ((0xE0 + cp / 4096 - 0xE0) * 4096
               + (0x80 + (cp / 64) mod 64 - 0x80) * 64
               + (0x80 + cp mod 64 - 0x80)) with cp by divmod.
      decide_leb.
      replace ((0xD800 <=? cp) && (cp <=? 0xDFFF)) with false
        by (symmetry; apply andb_false_iff;
            destruct (Z.leb_spec 0xD800 cp); [right; apply Z.leb_gt; lia|left; reflexivity]).
      reflexivity. }
  apply decode_octets.
  - divmod.
  - repeat constructor; divmod.
  - unfold leading_ones. decide_leb. reflexivity.
  - cbn [length]. lia.
  - unfold utf8_decode, continuation.
    replace ((0xF0 + cp / 262144 - 0xF0) * 262144
             + (0x80 + (cp / 4096) mod 64 - 0x80) * 4096
             + (0x80 + (cp / 64) mod 64 - 0x80) * 64
             + (0x80 + cp mod 64 - 0x80)) with cp by divmod.
    decide_leb. reflexivity.
Qed.

Lemma hex_digit_unreserved d : 0 <= d < 16 -> uriUnreserved (hex_digit d) = true.
Proof.
  intros Hd. unfold hex_digit, uriUnreserved.
  destruct (Z.ltb_spec d 10).
  - replace ((48 <=? 48 + d) && (48 + d <=? 57)) with true
      by (symmetry; apply andb_true_iff; split; apply Z.leb_le; lia).
    rewrite !orb_true_r. reflexivity.
  - replace ((65 <=? 55 + d) && (55 + d <=? 90)) with true
      by (symmetry; apply andb_true_iff; split; apply Z.leb_le; lia).
    reflexivity.
Qed.

Lemma percent_chars b :
  0 <= b < 256 ->
  Forall (fun c => uriUnreserved c = true \/ c = PERCENT) (percent b).
Proof.
  intros Hb. unfold percent.
  constructor; [right; reflexivity|].
  constructor; [left; apply hex_digit_unreserved; divmod|].
  constructor; [left; apply hex_digit_unreserved; divmod|].
  constructor.
Qed.

Lemma utf8_octets cp :
  scalar cp -> Forall (fun b => 0 <= b < 256) (utf8 cp).
Proof.
  intros [Hr _]. unfold utf8.
  destruct (Z.ltb_spec cp 0x80); [repeat constructor; lia|].
  destruct (Z.ltb_spec cp 0x800); [repeat constructor; divmod|].
  destruct (Z.ltb_spec cp 0x10000); repeat constructor; divmod.
Qed.

Lemma percent_utf8_chars cp :
  scalar cp ->
  Forall (fun c => uriUnreserved c = true \/ c = PERCENT)
         (flat_map percent (utf8 cp)).
Proof.
  intros Hsc. pose proof (utf8_octets cp Hsc) as Hoct.
  induction Hoct as [|b bs Hb _ IH]; [constructor|].
  cbn [flat_map]. apply Forall_app. split; [apply percent_chars; exact Hb|exact IH].
Qed.

Lemma uriUnreserved_ascii c : uriUnreserved c = true -> 0 <= c < 128.
Proof.
  unfold uriUnreserved. rewrite !orb_true_iff, !andb_true_iff, !Z.leb_le.
  intros [[[H|H]|H]|H]; try lia.
  apply bool_decide_eq_true in H. vm_compute js in H.
  repeat (apply elem_of_cons in H as [->|H]; [lia|]).
  apply elem_of_nil in H. contradiction.
Qed.

Lemma pair_code_point_scalar c d :
  is_lead c = true -> is_trail d = true ->
  scalar (pair_code_point c d) /\ utf16 (pair_code_point c d) = [c; d].
Proof.
  unfold is_lead, is_trail, scalar, pair_code_point, utf16.
  rewrite !andb_true_iff, !Z.leb_le. intros [? ?] [? ?].
  split; [lia|]. decide_leb. f_equal; [|f_equal]; divmod.
Qed.

Lemma decode_loop_nil fuel : decode_loop fuel [] = Some [].
Proof. destruct fuel; reflexivity. Qed.

(** What [encodeURIComponent] makes of a well-formed string: a string of
    unreserved characters and percent signs that the decoding loop reads
    back. *)
Lemma encode_decode n : forall s,
  (length s <= n)%nat ->
  isWellFormed s = true ->
  exists enc,
    encodeURIComponent s = Some enc
    /\ (forall fuel, (length s <= fuel)%nat -> decode_loop fuel enc = Some s)
    /\ (length s <= length enc)%nat
    /\ Forall (fun c => uriUnreserved c = true \/ c = PERCENT) enc.
Proof.
  induction n as [|n IH]; intros s Hlen Hwf.
  { destruct s; [|cbn in Hlen; lia]. exists []. split; [reflexivity|].
    split; [intros; apply decode_loop_nil|]. split; [reflexivity|constructor]. }
  destruct s as [|c rest].
  { exists []. split; [reflexivity|].
    split; [intros; apply decode_loop_nil|]. split; [reflexivity|constructor]. }
  cbn [length] in Hlen. cbn [isWellFormed] in Hwf. cbn [encodeURIComponent].
  destruct (uriUnreserved c) eqn:Hun.
  { pose proof (uriUnreserved_ascii _ Hun) as Hc.
    assert (is_lead c = false) as Hl
      by (unfold is_lead; apply andb_false_iff; left; apply Z.leb_gt; lia).
    rewrite Hl in Hwf. apply andb_true_iff in Hwf as [_ Hwf].
    destruct (IH rest ltac:(lia) Hwf) as (enc & He & Hd & Hle & Hall).
    exists (c :: enc). rewrite He. split; [reflexivity|]. split; [|split].
    - intros [|fuel] Hf; [cbn in Hf; lia|]. cbn [length] in Hf.
      rewrite decode_loop_plain by (apply uriUnreserved_not_percent; exact Hun).
      rewrite Hd by lia. reflexivity.
    - cbn [length]. lia.
    - constructor; [left; exact Hun|exact Hall]. }
  destruct (is_trail c) eqn:Ht.
  { exfalso. destruct (is_lead c) eqn:Hl.
    - unfold is_lead, is_trail in *.
      rewrite andb_true_iff, !Z.leb_le in Hl, Ht. lia.
    - rewrite !andb_true_iff in Hwf. destruct Hwf as [[_ Hwf] _]. discriminate. }
  destruct (is_lead c) eqn:Hl.
  - destruct rest as [|d rest']; [discriminate|].
    apply andb_true_iff in Hwf as [Hd Hwf]. rewrite Hd.
    cbn [length] in Hlen.
    destruct (IH rest' ltac:(lia) Hwf) as (enc & He & Hdec & Hle & Hall).
    destruct (pair_code_point_scalar c d Hl Hd) as [Hsc H16].
    eexists. rewrite He. split; [reflexivity|]. split; [|split].
    + intros [|fuel] Hf; [cbn in Hf; lia|]. cbn [length] in Hf.
      rewrite decode_code_point by exact Hsc.
      rewrite Hdec by lia. rewrite H16. reflexivity.
    + rewrite length_app. cbn [length].
      assert (2 <= length (flat_map percent (utf8 (pair_code_point c d))))%nat.
      { unfold utf8. repeat destruct (_ <? _); cbn; lia. }
      lia.
    + apply Forall_app. split; [|exact Hall].
      apply percent_utf8_chars. exact Hsc.
  - rewrite !andb_true_iff in Hwf. destruct Hwf as [[[H0 H1] _] Hwf].
    apply Z.leb_le in H0. apply Z.ltb_lt in H1.
    destruct (IH rest ltac:(lia) Hwf) as (enc & He & Hdec & Hle & Hall).
    assert (scalar c) as Hsc.
    { unfold scalar. split; [lia|]. intros Hsur.
      unfold is_lead, is_trail in *.
      rewrite andb_false_iff, !Z.leb_gt in Hl, Ht. lia. }
    eexists. rewrite He. split; [reflexivity|]. split; [|split].
    + intros [|fuel] Hf; [cbn in Hf; lia|]. cbn [length] in Hf.
      rewrite decode_code_point by exact Hsc.
      rewrite Hdec by lia. unfold utf16. decide_leb. reflexivity.
    + rewrite length_app. cbn [length].
      assert (1 <= length (flat_map percent (utf8 c)))%nat.
      { unfold utf8. repeat destruct (_ <? _); cbn; lia. }
      lia.
    + apply Forall_app. split; [|exact Hall].
      apply percent_utf8_chars. exact Hsc.
Qed.

Lemma path_text_all u :
  Forall (fun c => ends_path c = false) u -> path_text u = u.
Proof.
  induction 1 as [|c u Hc _ IH]; [reflexivity|].
  cbn [path_text]. rewrite Hc, IH. reflexivity.
Qed.

Lemma split_segments_cons p : exists s ss, split_segments p = s :: ss.
Proof.
  induction p as [|c p (s & ss & IH)]; cbn [split_segments]; [eauto|].
  destruct (separates c); [eauto|]. rewrite IH. eauto.
Qed.

Lemma split_segments_one seg :
  Forall (fun c => separates c = false) seg -> split_segments seg = [seg].
Proof.
  induction 1 as [|c seg Hc _ IH]; [reflexivity|].
  cbn [split_segments]. rewrite Hc, IH. reflexivity.
Qed.

Lemma split_segments_snoc pre seg :
  Forall (fun c => separates c = false) seg ->
  split_segments (pre ++ CHAR_FORWARD_SLASH :: seg) = split_segments pre ++ [seg].
Proof.
  intros Hseg. induction pre as [|c pre IH]; cbn [app split_segments].
  - change (separates CHAR_FORWARD_SLASH) with true. cbn iota.
    rewrite (split_segments_one _ Hseg). reflexivity.
  - destruct (separates c); [rewrite IH; reflexivity|].
    rewrite IH. destruct (split_segments_cons pre) as (s & ss & ->). reflexivity.
Qed.

Lemma path_state_snoc seg : forall segments path,
  includes DOUBLE_DOT seg = false ->
  includes SINGLE_DOT seg = false ->
  exists path', path_state (segments ++ [seg]) path = path' ++ [seg].
Proof.
  intros segments path Hdd Hd. revert path.
  induction segments as [|s segments IH]; intros path; cbn [app path_state].
  - rewrite Hdd, Hd. eauto.
  - apply IH.
Qed.

(** The characters of an encoded name are kept by the parser, and are
    inside a segment of the path. *)
Lemma encoded_char_in_path c :
  uriUnreserved c = true \/ c = PERCENT ->
  is_tab_or_newline c = false /\ ends_path c = false /\ separates c = false.
Proof.
  intros H.
  assert (forall d, c = d -> uriUnreserved d = false -> d <> PERCENT -> False) as Hno.
  { intros d -> Hu Hp. destruct H as [H|H]; congruence. }
  unfold is_tab_or_newline, ends_path, separates.
  repeat split; repeat (apply orb_false_iff; split); apply Z.eqb_neq; intros E;
    apply (Hno _ E); vm_compute; congruence.
Qed.

Lemma request_path_last c pre seg :
  c <> CHAR_FORWARD_SLASH ->
  Forall (fun c => ends_path c = false) (c :: pre) ->
  Forall (fun c => uriUnreserved c = true \/ c = PERCENT) seg ->
  includes DOUBLE_DOT seg = false ->
  includes SINGLE_DOT seg = false ->
  last (request_path (CHAR_FORWARD_SLASH :: (c :: pre) ++ CHAR_FORWARD_SLASH :: seg))
  = Some seg.
Proof.
  intros Hc Hpre Hseg Hdd Hd. unfold request_path.
  assert (Forall (fun c => is_tab_or_newline c = false /\ ends_path c = false
                           /\ separates c = false) seg) as Hs.
  { eapply Forall_impl; [exact Hseg|]. exact encoded_char_in_path. }
  cbn [strip_leading_slashes app]. rewrite Z.eqb_refl.
  rewrite (proj2 (Z.eqb_neq c CHAR_FORWARD_SLASH) Hc).
  change (c :: pre ++ CHAR_FORWARD_SLASH :: seg)
    with ((c :: pre) ++ [CHAR_FORWARD_SLASH] ++ seg).
  rewrite !filter_app.
  change (filter _ [CHAR_FORWARD_SLASH]) with [CHAR_FORWARD_SLASH].
  set (pre' := filter _ (c :: pre)).
  assert (filter (fun c => is_tab_or_newline c = false) seg = seg) as ->.
  { clear -Hs. induction Hs as [|x seg (Hx & _) _ IH]; [reflexivity|].
    rewrite filter_cons_True by exact Hx. rewrite IH. reflexivity. }
  assert (Forall (fun c => ends_path c = false) pre') as Hpre'.
  { apply Forall_forall. intros x Hx. apply list_elem_of_filter in Hx as [_ Hx].
    rewrite Forall_forall in Hpre. auto. }
  rewrite path_text_all.
  2:{ apply Forall_app. split; [exact Hpre'|].
      constructor; [reflexivity|].
      eapply Forall_impl; [exact Hs|]. intros x (_ & Hx & _). exact Hx. }
  cbn [app].
  rewrite split_segments_snoc
    by (eapply Forall_impl; [exact Hs|]; intros x (_ & _ & Hx); exact Hx).
  destruct (path_state_snoc seg (split_segments pre') [] Hdd Hd) as (path' & ->).
  apply last_snoc.
Qed.

Lemma includes_elem_of xs x : includes xs x = true <-> x ∈ xs.
Proof. unfold includes. apply bool_decide_eq_true. Qed.

Lemma dot_segments_decode seg :
  (includes SINGLE_DOT seg = true -> decodeURIComponent seg = Some (js "."))
  /\ (includes DOUBLE_DOT seg = true -> decodeURIComponent seg = Some (js "..")).
Proof.
  split; intros H; apply includes_elem_of in H;
    unfold SINGLE_DOT, DOUBLE_DOT in H;
    repeat (apply elem_of_cons in H as [->|H]; [vm_compute; reflexivity|]);
    apply elem_of_nil in H; contradiction.
Qed.

Lemma encoded_name_is_no_dot_segment name seg :
  decodeURIComponent seg = Some name ->
  name <> js "." -> name <> js ".." ->
  includes DOUBLE_DOT seg = false /\ includes SINGLE_DOT seg = false.
Proof.
  intros Hd H1 H2. destruct (dot_segments_decode seg) as [Hs Hdd].
  split.
  - destruct (includes DOUBLE_DOT seg); [|reflexivity].
    rewrite Hdd in Hd by reflexivity. congruence.
  - destruct (includes SINGLE_DOT seg); [|reflexivity].
    rewrite Hs in Hd by reflexivity. congruence.
Qed.

Lemma document_path_last brainId name segment :
  CHAR_QUESTION_MARK ∉ brainId ->
  CHAR_HASH ∉ brainId ->
  decodeURIComponent segment = Some name ->
  Forall (fun c => uriUnreserved c = true \/ c = PERCENT) segment ->
  name <> js "." -> name <> js ".." ->
  last (request_path (js "/brains/" ++ brainId ++ js "/documents/" ++ segment))
  = Some segment.
Proof.
  intros Hq Hh Hd Hall H1 H2.
  destruct (encoded_name_is_no_dot_segment _ _ Hd H1 H2) as [Hdd Hsd].
  change (js "/brains/") with (CHAR_FORWARD_SLASH :: 98 :: js "rains/").
  change (js "/documents/") with (js "/documents" ++ [CHAR_FORWARD_SLASH]).
  rewrite <- (app_assoc (js "/documents")). cbn [app].
  rewrite (app_assoc brainId), (app_assoc (js "rains/")).
  apply request_path_last; [discriminate| |exact Hall|exact Hdd|exact Hsd].
  constructor; [reflexivity|].
  apply Forall_app. split; [|apply Forall_app; split].
  - apply Forall_forall. intros c Hc. vm_compute in Hc.
    repeat (apply elem_of_cons in Hc as [->|Hc]; [reflexivity|]).
    apply elem_of_nil in Hc. contradiction.
  - apply Forall_forall. intros c Hc. unfold ends_path.
    apply orb_false_iff. split; apply Z.eqb_neq; intros ->; contradiction.
  - apply Forall_forall. intros c Hc. vm_compute in Hc.
    repeat (apply elem_of_cons in Hc as [->|Hc]; [reflexivity|]).
    apply elem_of_nil in Hc. contradiction.
Qed.

Section DocumentPaths.

Context (B : Builtins) {S : Type} (send : UpRequest -> S -> AxiosResult * S).

Lemma getDocument_sends brainId documentName segment (w : World S) :
  encodeURIComponent documentName = Some segment ->
  exists o w',
    getDocument B send brainId documentName w = (o, w')
    /\ sent w' = get_document_request
                   (js "/brains/" ++ brainId ++ js "/documents/" ++ segment)
                 :: sent w.
Proof.
  intros He. unfold getDocument, document_path. rewrite He.
  unfold bind at 1, ret at 1. unfold bind at 1, request.
  fold (get_document_request (js "/brains/" ++ brainId ++ js "/documents/" ++ segment)).
  destruct (send _ (svc w)) as [[err|data] s']; cbn beta iota.
  - eexists _, _. split; reflexivity.
  - unfold parse_or_throw.
    destruct (parse _ _); eexists _, _; split; reflexivity.
Qed.

Lemma deleteDocument_sends brainId documentName segment (w : World S) :
  encodeURIComponent documentName = Some segment ->
  exists o w',
    deleteDocument B send brainId documentName w = (o, w')
    /\ sent w' = delete_document_request
                   (js "/brains/" ++ brainId ++ js "/documents/" ++ segment)
                 :: sent w.
Proof.
  intros He. unfold deleteDocument, document_path. rewrite He.
  unfold bind at 1, ret at 1. unfold bind at 1, request.
  fold (delete_document_request
          (js "/brains/" ++ brainId ++ js "/documents/" ++ segment)).
  destruct (send _ (svc w)) as [[err|data] s']; cbn beta iota;
    eexists _, _; split; reflexivity.
Qed.

(** C10, as amended: for every brain id without [?] and [#], and every
    document name that is a well-formed string (one without unpaired
    surrogates) other than [.] and [..], [getDocument] and
    [deleteDocument] encode the name once with [encodeURIComponent]: the
    encoded name holds unreserved characters and percent signs only (no
    [/], [?], [#] or space), it is the last segment of the path of the
    request, [decodeURIComponent] gives the name back from it, and both
    operations send their request to the same URL, so they address the
    same document. *)
Theorem C10_document_name_round_trips brainId documentName (w : World S) :
  isWellFormed documentName = true ->
  CHAR_QUESTION_MARK ∉ brainId ->
  CHAR_HASH ∉ brainId ->
  documentName <> js "." ->
  documentName <> js ".." ->
  exists segment,
    encodeURIComponent documentName = Some segment
    /\ decodeURIComponent segment = Some documentName
    /\ Forall (fun c => uriUnreserved c = true \/ c = PERCENT) segment
    /\ last (request_path (js "/brains/" ++ brainId ++ js "/documents/" ++ segment))
       = Some segment
    /\ (exists o w',
           getDocument B send brainId documentName w = (o, w')
           /\ sent w' = get_document_request
                          (js "/brains/" ++ brainId ++ js "/documents/" ++ segment)
                        :: sent w)
    /\ (exists o w',
           deleteDocument B send brainId documentName w = (o, w')
           /\ sent w' = delete_document_request
                          (js "/brains/" ++ brainId ++ js "/documents/" ++ segment)
                        :: sent w).
Proof.
  intros Hwf Hq Hh Hdot Hdots.
  destruct (encode_decode (length documentName) documentName (le_n _) Hwf)
    as (segment & He & Hd & Hlen & Hall).
  exists segment. split; [exact He|]. split; [apply Hd; exact Hlen|].
  split; [exact Hall|]. split; [|split].
  - apply (document_path_last _ documentName); try assumption.
    apply Hd; exact Hlen.
  - apply getDocument_sends. exact He.
  - apply deleteDocument_sends. exact He.
Qed.

End DocumentPaths.

(** C10, witness: the name [a b/c?d#e.pdf]. *)
Lemma C10_round_trip_of_a_reserved_name :
  exists segment,
    encodeURIComponent (js "a b/c?d#e.pdf") = Some segment
    /\ decodeURIComponent segment = Some (js "a b/c?d#e.pdf")
    /\ Forall (fun c => uriUnreserved c = true \/ c = PERCENT) segment
    /\ last (request_path (js "/brains/" ++ js "b1" ++ js "/documents/" ++ segment))
       = Some segment
    /\ (exists o w',
           getDocument a_host agreeable_service (js "b1") (js "a b/c?d#e.pdf")
                       (a_world tt) = (o, w')
           /\ sent w' = get_document_request
                          (js "/brains/" ++ js "b1" ++ js "/documents/" ++ segment)
                        :: sent (a_world tt))
    /\ (exists o w',
           deleteDocument a_host agreeable_service (js "b1") (js "a b/c?d#e.pdf")
                          (a_world tt) = (o, w')
           /\ sent w' = delete_document_request
                          (js "/brains/" ++ js "b1" ++ js "/documents/" ++ segment)
                        :: sent (a_world tt)).
Proof.
  apply (C10_document_name_round_trips a_host agreeable_service (js "b1")
           (js "a b/c?d#e.pdf") (a_world tt)).
  - reflexivity.
  - apply (bool_decide_unpack _). vm_compute. exact I.
  - apply (bool_decide_unpack _). vm_compute. exact I.
  - vm_compute. discriminate.
  - vm_compute. discriminate.
Defined.

(** C10, counterexample: three requests that do not round-trip.  The name
    made of the lone surrogate U+D800 is not encoded:
    [encodeURIComponent] throws, and [getDocument] and [deleteDocument]
    fail with that error before any request is sent.  With the brain id
    [b#] the path of the request ends before the [#]: the request for the
    document [a.pdf] goes to [/brains/b], and so does that for any other
    name.  The name [..] is sent as it is, and the path of its request is
    [/brains/b1/]. *)
Lemma C10_requests_that_do_not_round_trip :
  (encodeURIComponent [0xD800] = None
   /\ getDocument a_host agreeable_service (js "b1") [0xD800] (a_world tt)
      = (Throw (Error (js "URI malformed")), a_world tt)
   /\ deleteDocument a_host agreeable_service (js "b1") [0xD800] (a_world tt)
      = (Throw (Error (js "URI malformed")), a_world tt))
  /\ (sent (getDocument a_host agreeable_service (js "b#") (js "a.pdf")
              (a_world tt)).2
      = [get_document_request (js "/brains/b#/documents/a.pdf")]
      /\ request_path (js "/brains/b#/documents/a.pdf") = [js "brains"; js "b"]
      /\ sent (deleteDocument a_host agreeable_service (js "b#") (js "other.pdf")
                 (a_world tt)).2
         = [delete_document_request (js "/brains/b#/documents/other.pdf")]
      /\ request_path (js "/brains/b#/documents/other.pdf") = [js "brains"; js "b"])
  /\ (sent (getDocument a_host agreeable_service (js "b1") (js "..")
              (a_world tt)).2
      = [get_document_request (js "/brains/b1/documents/..")]
      /\ request_path (js "/brains/b1/documents/..") = [js "brains"; js "b1"; []]).
Proof. vm_compute. repeat split. Qed.

(** ** The brain registry: document counts *)

Module ServiceFacts.
Import Service.

Lemma put_size f now (docs : gmap string Document) :
  base.size (put f now docs) = Datatypes.S (base.size docs).
Proof.
  unfold put. apply map_size_insert_None.
  apply not_elem_of_dom. apply fresh_string_of_set_fresh.
Qed.

Lemma put_all_size files now : forall docs : gmap string Document,
  base.size (put_all files now docs) = (base.size docs + length files)%nat.
Proof.
  unfold put_all. induction files as [|f files IH]; intros docs; cbn [foldl length].
  - lia.
  - rewrite IH, put_size. lia.
Qed.

Lemma documents_of_set_documents id docs st id' :
  documents_of (set_documents id docs st) id'
  = if decide (id = id') then docs else documents_of st id'.
Proof.
  unfold documents_of, set_documents. cbn [documents].
  rewrite lookup_insert. destruct (decide (id = id')); reflexivity.
Qed.

(** [recordDocumentChange] changes the count of one brain and nothing of
    the documents. *)
Lemma recordDocumentChange_Some id delta st st' :
  recordDocumentChange id delta st = Some st' ->
  exists b,
    brains st !! id = Some b
    /\ 0 <= document_count b + delta
    /\ (exists b', brains st' = <[id := b']> (brains st)
                   /\ document_count b' = document_count b + delta)
    /\ documents st' = documents st
    /\ engine_calls st' = engine_calls st.
Proof.
  unfold recordDocumentChange. destruct (brains st !! id) as [b|]; [|discriminate].
  cbn [mbind option_bind].
  destruct (Z.ltb_spec (document_count b + delta) 0); [discriminate|].
  intros [= <-]. exists b. split; [reflexivity|]. split; [lia|].
  split; [eexists; split; reflexivity|]. split; reflexivity.
Qed.

Lemma recordDocumentChange_succeeds id delta st b :
  brains st !! id = Some b -> 0 <= document_count b + delta ->
  exists st', recordDocumentChange id delta st = Some st'.
Proof.
  intros Hb Hd. unfold recordDocumentChange. rewrite Hb. cbn [mbind option_bind].
  destruct (Z.ltb_spec (document_count b + delta) 0); [lia|]. eauto.
Qed.

Lemma counts_agree_empty : counts_agree empty.
Proof. intros id b H. cbn in H. rewrite lookup_empty in H. discriminate. Qed.

Lemma create_counts_agree spec st :
  counts_agree st -> counts_agree (create spec st).2.
Proof.
  intros Hst. unfold create.
  repeat (destruct (negb _); [exact Hst|]).
  cbn [snd]. intros id b. unfold documents_of. cbn [brains documents].
  rewrite !lookup_insert.
  destruct (decide (fresh (dom (brains st)) = id)) as [_|Hne].
  - intros [= <-]. cbn. rewrite map_size_empty. reflexivity.
  - apply Hst.
Qed.

Lemma upload_counts_agree id files st :
  counts_agree st -> counts_agree (upload id files st).2.
Proof.
  intros Hst. unfold upload.
  destruct (brains st !! id) as [b|] eqn:Hb; [|exact Hst].
  destruct (_ || _); [exact Hst|].
  destruct (offending_file files); [exact Hst|].
  destruct (recordDocumentChange _ _ _) as [st'|] eqn:Hrec; [|exact Hst].
  cbn [snd].
  apply recordDocumentChange_Some in Hrec
    as (b0 & Hb0 & _ & (b' & Hbr & Hcount) & Hdocs & _).
  cbn [brains set_documents] in Hb0, Hbr. rewrite Hb in Hb0. injection Hb0 as <-.
  intros id' b''. unfold documents_of, call_engine. cbn [brains documents].
  rewrite Hbr, Hdocs. cbn [documents set_documents].
  rewrite !lookup_insert. destruct (decide (id = id')) as [<-|Hne].
  - intros [= <-]. cbn [from_option Datatypes.id]. rewrite Hcount, put_all_size.
    rewrite (Hst _ _ Hb). lia.
  - apply Hst.
Qed.

Lemma delete_document_counts_agree id doc st :
  counts_agree st -> counts_agree (delete_document id doc st).2.
Proof.
  intros Hst. unfold delete_document.
  destruct (brains st !! id) as [b|] eqn:Hb; [|exact Hst].
  destruct (documents_of st id !! doc) as [d|] eqn:Hd; [|exact Hst].
  destruct (recordDocumentChange _ _ _) as [st'|] eqn:Hrec; [|exact Hst].
  cbn [snd].
  apply recordDocumentChange_Some in Hrec
    as (b0 & Hb0 & _ & (b' & Hbr & Hcount) & Hdocs & _).
  cbn [brains set_documents] in Hb0, Hbr. rewrite Hb in Hb0. injection Hb0 as <-.
  intros id' b''. unfold documents_of at 1, call_engine. cbn [brains documents].
  rewrite Hbr, Hdocs. cbn [documents set_documents].
  rewrite !lookup_insert. destruct (decide (id = id')) as [<-|Hne].
  - intros [= <-]. cbn [from_option Datatypes.id]. rewrite Hcount.
    rewrite map_size_delete_Some by (rewrite Hd; eauto).
    rewrite (Hst _ _ Hb).
    assert (base.size (documents_of st id) <> 0%nat).
    { intros H0. apply map_size_empty_inv in H0. rewrite H0 in Hd.
      rewrite lookup_empty in Hd. discriminate. }
    lia.
  - apply Hst.
Qed.

Lemma delete_brain_counts_agree id st :
  counts_agree st -> counts_agree (delete_brain id st).2.
Proof.
  intros Hst. unfold delete_brain.
  destruct (brains st !! id) as [b|] eqn:Hb; [|exact Hst].
  cbn [snd]. intros id' b'. unfold documents_of. cbn [brains documents].
  rewrite !lookup_delete. destruct (decide (id = id')); [discriminate|].
  apply Hst.
Qed.

Lemma exec_counts_agree op st : counts_agree st -> counts_agree (exec op st).
Proof.
  destruct op; cbn [exec].
  - apply create_counts_agree.
  - apply upload_counts_agree.
  - apply delete_document_counts_agree.
  - apply delete_brain_counts_agree.
Qed.

Lemma run_counts_agree ops : forall st,
  counts_agree st -> counts_agree (run ops st).
Proof.
  unfold run. induction ops as [|op ops IH]; intros st Hst; cbn [foldl].
  - exact Hst.
  - apply IH, exec_counts_agree, Hst.
Qed.

(** A failed upload leaves the state as it was. *)
Lemma upload_failed id files st e st' :
  upload id files st = (inl e, st') -> st' = st.
Proof.
  unfold upload.
  destruct (brains st !! id); [|intros [= _ <-]; reflexivity].
  destruct (_ || _); [intros [= _ <-]; reflexivity|].
  destruct (offending_file files); [intros [= _ <-]; reflexivity|].
  destruct (recordDocumentChange _ _ _); [discriminate|].
  intros [= _ <-]. reflexivity.
Qed.

End ServiceFacts.

Lemma z_count_accepts n :
  0 <= n -> z_count [] (Some (JNum (num n))) = inr (num n).
Proof.
  intros Hn. unfold z_count, z_number. apply checked_inr. split; [|reflexivity].
  cbn [flat_map number_check]. rewrite isInteger_num.
  apply num_lt_num in Hn. rewrite Hn. reflexivity.
Qed.

(** C1: after any sequence of brain creations, uploads, document
    deletions and brain deletions, every brain's [document_count] is the
    number of documents stored for it, a non-negative integer, which the
    gateway's [BrainResponseSchema] accepts; and an upload that fails
    leaves the registry and the stored documents as they were. *)
Theorem C1_document_count_is_the_number_of_documents (ops : list Service.Op) :
  counts_agree (Service.run ops Service.empty)
  /\ (forall id b,
         Service.brains (Service.run ops Service.empty) !! id = Some b ->
         0 <= Service.document_count b
         /\ z_count [] (Some (JNum (num (Service.document_count b))))
            = inr (num (Service.document_count b)))
  /\ (forall id files e st',
         Service.upload id files (Service.run ops Service.empty) = (inl e, st') ->
         st' = Service.run ops Service.empty).
Proof.
  pose proof (ServiceFacts.run_counts_agree ops _ ServiceFacts.counts_agree_empty)
    as Hagree.
  split; [exact Hagree|]. split.
  - intros id b Hb. rewrite (Hagree _ _ Hb).
    split; [lia|]. apply z_count_accepts. lia.
  - intros id files e st'. apply ServiceFacts.upload_failed.
Qed.

(** The scenario of the specification: a brain, two uploads, a deletion. *)
Example two_uploads_make_two_documents :
  Service.document_count
    <$> Service.brains
          (Service.run [Service.Create docs_brain;
                        Service.Upload first_id [a_pdf_upload; b_txt_upload]]
                       Service.empty) !! first_id
  = Some 2.
Proof. vm_compute. reflexivity. Qed.

Example a_deletion_leaves_one_document :
  Service.document_count
    <$> Service.brains
          (Service.run [Service.Create docs_brain;
                        Service.Upload first_id [a_pdf_upload; b_txt_upload];
                        Service.DeleteDocument first_id "a.pdf"]
                       Service.empty) !! first_id
  = Some 1.
Proof. vm_compute. reflexivity. Qed.

Example a_batch_with_an_invalid_file_is_refused_whole :
  (Service.upload first_id [a_pdf_upload; an_exe_upload]
     (Service.run [Service.Create docs_brain] Service.empty)).1
  = inl (Service.ValidationError "x.exe").
Proof. vm_compute. reflexivity. Qed.

Example a_name_taken_gets_a_suffix :
  (fst <$> map_to_list
             (Service.documents_of
                (Service.run [Service.Create docs_brain;
                              Service.Upload first_id [a_pdf_upload; a_pdf_upload]]
                             Service.empty) first_id))
  = ["a.pdf0"; "a.pdf"]%string.
Proof. vm_compute. reflexivity. Qed.

(** C1, witness: the upload of a PDF file and an executable fails, and
    the service is as it was after the creation of the brain. *)
Lemma C1_a_failed_upload_changes_nothing :
  (Service.upload first_id [a_pdf_upload; an_exe_upload]
     (Service.run [Service.Create docs_brain] Service.empty)).2
  = Service.run [Service.Create docs_brain] Service.empty.
Proof.
  destruct (C1_document_count_is_the_number_of_documents
              [Service.Create docs_brain]) as (_ & _ & Hfailed).
  destruct (Service.upload first_id [a_pdf_upload; an_exe_upload]
              (Service.run [Service.Create docs_brain] Service.empty))
    as [[e|names] st'] eqn:Hupload.
  - exact (Hfailed _ _ _ _ Hupload).
  - vm_compute in Hupload. discriminate Hupload.
Defined.

(** ** Queries of a brain without documents *)

Lemma strip_prefix_app p s : Service.strip_prefix p (p ++ s) = Some s.
Proof.
  unfold Service.strip_prefix.
  rewrite take_app_length, drop_app_length.
  rewrite bool_decide_eq_true_2 by reflexivity. reflexivity.
Qed.

Lemma strip_suffix_app q s : Service.strip_suffix q (s ++ q) = Some s.
Proof.
  unfold Service.strip_suffix. rewrite length_app.
  replace (length s + length q - length q)%nat with (length s) by lia.
  rewrite take_app_length, drop_app_length.
  rewrite bool_decide_eq_true_2 by reflexivity. reflexivity.
Qed.

Lemma query_url_of_request id q :
  Service.query_url (url (query_request id q)) = Some id.
Proof.
  unfold Service.query_url, query_request. cbn [url].
  rewrite strip_prefix_app. cbn [mbind option_bind].
  apply strip_suffix_app.
Qed.

(** The query the gateway forwards passes the service's validation. *)
Lemma forwarded_query_is_valid body q :
  parse QueryRequestSchema body = inr q ->
  parse QueryRequestSchema (Some (QueryRequest_json q)) = inr q.
Proof.
  rewrite !QueryRequestSchema_accepts.
  intros (props & _ & [_ Hlen] & Htok & Htemp).
  eexists. split; [reflexivity|]. split; [split; [reflexivity|exact Hlen]|].
  split.
  - right. destruct Htok as [[_ ->] | (n & _ & -> & Hn)].
    + exists 1024. split; [reflexivity|]. split; [reflexivity|lia].
    + exists n. split; [reflexivity|]. split; [reflexivity|exact Hn].
  - right. destruct Htemp as [[_ ->] | (t & _ & -> & Ht)].
    + eexists. split; [reflexivity|]. split; [reflexivity|].
      split; vm_compute; discriminate.
    + exists t. split; [reflexivity|]. split; [reflexivity|exact Ht].
Qed.

Section EmptyBrain.

Context (engine : jsstring -> QueryRequest -> option Service.EngineAnswer).
Context (B : Builtins).

Lemma query_of_empty_brain id q st b :
  Service.brains st !! id = Some b ->
  Service.document_count b = 0 ->
  Service.query engine id q st = (inl Service.EmptyBrainError, st).
Proof.
  intros Hb Hc. unfold Service.query. rewrite Hb, Hc. reflexivity.
Qed.

Lemma serve_empty_brain id body q st b :
  parse QueryRequestSchema body = inr q ->
  Service.brains st !! id = Some b ->
  Service.document_count b = 0 ->
  Service.serve engine (query_request id q) st
  = (inl (Service.error_reply Service.EmptyBrainError), st).
Proof.
  intros Hp Hb Hc. unfold Service.serve.
  rewrite query_url_of_request. cbn [method payload query_request].
  rewrite (forwarded_query_is_valid _ _ Hp).
  rewrite (query_of_empty_brain _ _ _ _ Hb Hc). reflexivity.
Qed.

(** C4: a query of a brain whose [document_count] is zero fails in the
    service with [EmptyBrainError], whose status is 400 and which is not
    a validation error, and leaves the service as it was: the engine has
    not been called.  The gateway relays the failure: a valid query
    request for such a brain is answered 400 with the error
    ["Brain has no documents"], which is not the answer to a request that
    fails validation. *)
Theorem C4_empty_brain_is_not_queried id body q b (w : World Service.State) :
  parse QueryRequestSchema body = inr q ->
  Service.brains (svc w) !! id = Some b ->
  Service.document_count b = 0 ->
  Service.query engine id q (svc w) = (inl Service.EmptyBrainError, svc w)
  /\ Service.status_of Service.EmptyBrainError = 400
  /\ (forall offending,
         Service.EmptyBrainError <> Service.ValidationError offending)
  /\ (route (post_query B (Service.serve engine) id body) w).1
     = empty_brain_response
  /\ (forall issues, empty_brain_response <> validation_error_response issues)
  /\ svc (route (post_query B (Service.serve engine) id body) w).2 = svc w
  /\ Service.engine_calls
       (svc (route (post_query B (Service.serve engine) id body) w).2)
     = Service.engine_calls (svc w).
Proof.
  intros Hp Hb Hc.
  pose proof (serve_empty_brain id body q (svc w) b Hp Hb Hc) as Hserve.
  assert (route (post_query B (Service.serve engine) id body) w
          = (empty_brain_response,
             {| svc := svc w; sent := query_request id q :: sent w;
                disk := disk w; busy := busy w;
                console := console w; clock := clock w |})) as Hroute.
  { unfold route, asyncHandler, try_catch.
    rewrite (post_query_forwards B (Service.serve engine) _ _ _ _ Hp).
    unfold bind, queryBrain, bind, request.
    fold (query_request id q). rewrite Hserve. reflexivity. }
  split; [apply (query_of_empty_brain _ _ _ _ Hb Hc)|].
  split; [reflexivity|]. split; [discriminate|].
  rewrite Hroute. cbn [fst snd svc].
  split; [reflexivity|]. split; [discriminate|]. split; reflexivity.
Qed.

End EmptyBrain.

(** C4, witness: the question ["What is this about?"] asked of the empty
    brain [b1]. *)
Lemma C4_a_query_of_an_empty_brain :
  Service.query no_engine (js "b1")
    {| question := js "What is this about?"; max_tokens := num 1024;
       temperature := num_0_7 |}
    a_service_with_an_empty_brain
  = (inl Service.EmptyBrainError, a_service_with_an_empty_brain)
  /\ Service.status_of Service.EmptyBrainError = 400
  /\ (forall offending,
         Service.EmptyBrainError <> Service.ValidationError offending)
  /\ (route (post_query a_host (Service.serve no_engine) (js "b1")
               (Some (JObj [(js "question", JStr (js "What is this about?"))])))
            (a_world a_service_with_an_empty_brain)).1
     = empty_brain_response
  /\ (forall issues, empty_brain_response <> validation_error_response issues)
  /\ svc (route (post_query a_host (Service.serve no_engine) (js "b1")
                   (Some (JObj [(js "question", JStr (js "What is this about?"))])))
                (a_world a_service_with_an_empty_brain)).2
     = a_service_with_an_empty_brain
  /\ Service.engine_calls
       (svc (route (post_query a_host (Service.serve no_engine) (js "b1")
                      (Some (JObj [(js "question", JStr (js "What is this about?"))])))
                   (a_world a_service_with_an_empty_brain)).2)
     = [].
Proof.
  apply (C4_empty_brain_is_not_queried no_engine a_host (js "b1")
           (Some (JObj [(js "question", JStr (js "What is this about?"))]))
           {| question := js "What is this about?"; max_tokens := num 1024;
              temperature := num_0_7 |}
           an_empty_brain (a_world a_service_with_an_empty_brain)).
  - reflexivity.
  - vm_compute. reflexivity.
  - reflexivity.
Defined.

(** ** Streamed queries *)

Module StreamingFacts.
Import Streaming.









End StreamingFacts.


Example a_completed_stream :
  Streaming.orchestrate
    {| Streaming.fragments := [js "Hello"; js " world"];
       Streaming.ending := Streaming.Completed [js "a.pdf"] |}
  = [Streaming.content (js "Hello"); Streaming.content (js " world");
     Streaming.sources [js "a.pdf"]; Streaming.done].
Proof. reflexivity. Qed.

Example a_stream_that_fails_midway :
  Streaming.orchestrate
    {| Streaming.fragments := [js "Hello"];
       Streaming.ending := Streaming.Failed (js "engine unavailable") |}
  = [Streaming.content (js "Hello"); Streaming.error (js "engine unavailable")].
Proof. reflexivity. Qed.

Example nothing_follows_a_terminal_event :
  Streaming.after Streaming.STARTED
    [Streaming.sources []; Streaming.done; Streaming.error (js "late")]
  = None.
Proof. reflexivity. Qed.



(** * Further properties of the gateway

    The schemas read back what the gateway writes. *)

Lemma string_check_path p q s c :
  string_check p s c = [] -> string_check q s c = [].
Proof. destruct c; simpl; destruct (_ : bool); easy. Qed.

Lemma number_check_path p q x c :
  number_check p x c = [] -> number_check q x c = [].
Proof. destruct c; simpl; destruct (_ : bool); easy. Qed.

Lemma flat_map_nil {A C} (f g : A -> list C) xs :
  (forall x, f x = [] -> g x = []) -> flat_map f xs = [] -> flat_map g xs = [].
Proof.
  intros H. induction xs as [|x xs IH]; [reflexivity|]. cbn [flat_map].
  intros Hf. apply app_eq_nil in Hf as [H1 H2].
  rewrite (H _ H1), (IH H2). reflexivity.
Qed.

Lemma z_string_reads_back checks : reads_back (z_string checks) JStr.
Proof.
  intros p input v H q. unfold z_string in *.
  destruct input as [[| | |s| |]|]; try discriminate.
  apply checked_inr in H as [H ->]. apply checked_inr. split; [|reflexivity].
  revert H. apply flat_map_nil. intros c. apply string_check_path.
Qed.

Lemma z_number_reads_back checks : reads_back (z_number checks) JNum.
Proof.
  intros p input v H q. unfold z_number in *.
  destruct input as [[| |x| | |]|]; try discriminate.
  apply checked_inr in H as [H ->]. apply checked_inr. split; [|reflexivity].
  revert H. apply flat_map_nil. intros c. apply number_check_path.
Qed.

Lemma z_enum_reads_back values : reads_back (z_enum values) JStr.
Proof.
  intros p input v H q. apply z_enum_inr in H as [_ H].
  apply z_enum_inr. auto.
Qed.

Lemma nullable_reads_back {T} (inner : Schema T) enc :
  reads_back inner enc ->
  (forall v, enc v <> JNull) ->
  reads_back (nullable inner) (nullable_json enc).
Proof.
  intros Hin Hnn p input v H q. unfold nullable in *.
  destruct v as [v|]; cbn [nullable_json].
  - assert (inner p input = inr v) as Hv.
    { destruct input as [[]|]; try discriminate;
        apply zmap_inr in H as (a & Ha & [= ->]); exact Ha. }
    specialize (Hin _ _ _ Hv q). specialize (Hnn v).
    destruct (enc v); try contradiction; rewrite Hin; reflexivity.
  - reflexivity.
Qed.

Lemma z_array_items_reads_back {T} (inner : Schema T) enc :
  reads_back inner enc ->
  forall items p i vs,
    z_array_items inner p i items = inr vs ->
    forall q j, z_array_items inner q j (enc <$> vs) = inr vs.
Proof.
  intros Hin. induction items as [|x items IH]; intros p i vs H q j.
  - injection H as <-. reflexivity.
  - cbn [z_array_items] in H.
    apply zap_inr in H as (g & rest & Hg & Hrest & ->).
    apply zmap_inr in Hg as (v & Hv & ->).
    cbn [fmap list_fmap z_array_items].
    rewrite (Hin _ _ _ Hv), (IH _ _ _ Hrest). reflexivity.
Qed.

Lemma z_array_reads_back {T} (inner : Schema T) enc :
  reads_back inner enc ->
  reads_back (z_array inner) (fun vs => JArr (enc <$> vs)).
Proof.
  intros Hin p input vs H q. unfold z_array in *.
  destruct input as [[| | | |items|]|]; try discriminate.
  eapply z_array_items_reads_back; eauto.
Qed.

Lemma default_reads_back {T} (inner : Schema T) enc d :
  reads_back inner enc ->
  (forall q, inner q (Some (enc d)) = inr d) ->
  reads_back (default_ inner d) enc.
Proof.
  intros Hin Hd p input v H q. apply default_inr in H as [[_ ->]|[_ H]].
  - apply Hd.
  - exact (Hin _ _ _ H q).
Qed.

Lemma BrainResponseSchema_reads_back B :
  reads_back (BrainResponseSchema B) BrainResponse_json.
Proof.
  intros p input b H q. unfold BrainResponseSchema, z_object in *.
  destruct input as [[| | | | |o]|]; try discriminate.
  repeat (apply zap_inr in H as (? & ? & H & ? & ->)).
  apply zmap_inr in H as (? & ? & ->).
  unfold field in *. cbn [BrainResponse_json].
  repeat match goal with
  | H : z_string _ _ _ = inr _ |- _ => apply z_string_reads_back in H
  | H : z_count _ _ = inr _ |- _ => apply z_number_reads_back in H
  | H : nullable _ _ _ = inr _ |- _ =>
    apply (nullable_reads_back _ _ (z_string_reads_back _)) in H; [|discriminate]
  end.
  cbn.
  repeat match goal with H : forall q, _ = inr _ |- _ => rewrite H; clear H end.
  reflexivity.
Qed.

(** A document reads back when its size is finite; an infinite size is
    written [null], which the schema refuses. *)
Lemma DocumentMetadataSchema_reads_back B p input b :
  DocumentMetadataSchema B p input = inr b ->
  forall q,
    DocumentMetadataSchema B q (Some (DocumentMetadata_json b))
    = if isFinite (dm_size b) then inr b
      else inl [issue invalid_type (q ++ [Key (js "size")])].
Proof.
  intros H q. unfold DocumentMetadataSchema, z_object in *.
  destruct input as [[| | | | |o]|]; try discriminate.
  repeat (apply zap_inr in H as (? & ? & H & ? & ->)).
  apply zmap_inr in H as (? & ? & ->).
  unfold field in *. cbn [DocumentMetadata_json].
  repeat match goal with
  | H : z_string _ _ _ = inr _ |- _ => apply z_string_reads_back in H
  | H : z_number _ _ _ = inr _ |- _ => apply z_number_reads_back in H
  end.
  cbn.
  repeat match goal with
  | H : forall q, z_string _ _ _ = inr _ |- _ => rewrite H; clear H
  end.
  match goal with
  | H : forall q, z_number _ _ (Some (JNum ?x)) = inr _ |- _ =>
    destruct x; cbn; [rewrite H|..]; reflexivity
  end.
Qed.

Lemma documents_read_back B docs : forall p i items,
  z_array_items (DocumentMetadataSchema B) p i items = inr docs ->
  forall q j,
    (Forall (fun d => isFinite (dm_size d) = true) docs ->
     z_array_items (DocumentMetadataSchema B) q j (DocumentMetadata_json <$> docs)
     = inr docs)
    /\ (Exists (fun d => isFinite (dm_size d) = false) docs ->
        exists issues,
          z_array_items (DocumentMetadataSchema B) q j (DocumentMetadata_json <$> docs)
          = inl issues).
Proof.
  induction docs as [|d docs IH]; intros p i items H q j.
  - split; [reflexivity|]. intros He. apply Exists_nil in He. contradiction.
  - destruct items as [|x items]; [discriminate|].
    cbn [z_array_items] in H.
    apply zap_inr in H as (g & rest & Hg & Hrest & Heq).
    apply zmap_inr in Hg as (v & Hv & ->). injection Heq as <- <-.
    cbn [fmap list_fmap z_array_items].
    rewrite (DocumentMetadataSchema_reads_back _ _ _ _ Hv).
    destruct (IH _ _ _ Hrest q (S j)) as [Hall Hex].
    change (list_fmap _ _ DocumentMetadata_json docs)
      with (DocumentMetadata_json <$> docs).
    split.
    + intros Hf. apply Forall_cons in Hf as [Hd Hf].
      rewrite Hd, (Hall Hf). reflexivity.
    + intros He. destruct (isFinite (dm_size d)) eqn:Hd.
      * apply Exists_cons in He as [He|He]; [congruence|].
        destruct (Hex He) as (issues & ->). eexists. reflexivity.
      * cbn [zmap zap].
        destruct (z_array_items (DocumentMetadataSchema B) q (S j) _);
          eexists; reflexivity.
Qed.


Lemma QueryResponseSchema_reads_back :
  reads_back QueryResponseSchema QueryResponse_json.
Proof.
  intros p input b H q. unfold QueryResponseSchema, z_object in *.
  destruct input as [[| | | | |o]|]; try discriminate.
  repeat (apply zap_inr in H as (? & ? & H & ? & ->)).
  apply zmap_inr in H as (? & ? & ->).
  unfold field in *. cbn [QueryResponse_json].
  repeat match goal with
  | H : z_string _ _ _ = inr _ |- _ => apply z_string_reads_back in H
  | H : z_number _ _ _ = inr _ |- _ => apply z_number_reads_back in H
  | H : nullable _ _ _ = inr _ |- _ =>
    apply (nullable_reads_back _ _ (z_number_reads_back _)) in H; [|discriminate]
  | H : default_ _ _ _ _ = inr _ |- _ =>
    apply (default_reads_back _ _ _
             (z_array_reads_back _ _ (z_string_reads_back []))) in H;
      [|reflexivity]
  end.
  cbn.
  repeat match goal with H : forall q, _ = inr _ |- _ => rewrite H; clear H end.
  reflexivity.
Qed.

Lemma BrainListSchema_reads_back B :
  reads_back (BrainListSchema B) BrainList_json.
Proof.
  intros p input b H q. unfold BrainListSchema, z_object in *.
  destruct input as [[| | | | |o]|]; try discriminate.
  repeat (apply zap_inr in H as (? & ? & H & ? & ->)).
  apply zmap_inr in H as (? & ? & ->).
  unfold field in *. cbn [BrainList_json].
  repeat match goal with
  | H : z_count _ _ = inr _ |- _ => apply z_number_reads_back in H
  | H : z_array _ _ _ = inr _ |- _ =>
    apply (z_array_reads_back _ _ (BrainResponseSchema_reads_back B)) in H
  end.
  cbn.
  repeat match goal with H : forall q, _ = inr _ |- _ => rewrite H; clear H end.
  reflexivity.
Qed.

Lemma DocumentListSchema_reads_back B p input l :
  DocumentListSchema B p input = inr l ->
  forall q,
    (Forall (fun d => isFinite (dm_size d) = true) (dl_documents l) ->
     DocumentListSchema B q (Some (DocumentList_json l)) = inr l)
    /\ (Exists (fun d => isFinite (dm_size d) = false) (dl_documents l) ->
        exists issues,
          DocumentListSchema B q (Some (DocumentList_json l)) = inl issues).
Proof.
  intros H q. unfold DocumentListSchema, z_object in *.
  destruct input as [[| | | | |o]|]; try discriminate.
  apply zap_inr in H as (g & total & H & Ht & ->).
  apply zmap_inr in H as (docs & Hd & ->).
  unfold field in *. cbn [DocumentList_json dl_documents dl_total].
  apply z_number_reads_back in Ht.
  unfold z_array in Hd.
  destruct (prop (js "documents") o) as [[| | | |items|]|]; try discriminate.
  destruct (documents_read_back _ _ _ _ _ Hd (q ++ [Key (js "documents")]) 0%nat)
    as [Hall Hex].
  change (prop (js "documents") (_ :: _))
    with (Some (JArr (DocumentMetadata_json <$> docs))).
  change (prop (js "total") (_ :: _)) with (Some (JNum total)).
  unfold z_count in *. rewrite Ht. unfold z_array.
  split.
  - intros Hf. rewrite (Hall Hf). reflexivity.
  - intros He. destruct (Hex He) as (issues & ->). eexists. reflexivity.
Qed.


Section Replies.

Context (B : Builtins) {S : Type} (send : UpRequest -> S -> AxiosResult * S).
Implicit Types w : World S.

Lemma errorHandler_relays error w :
  errorHandler (onRejected B error) w = (Return (relayed_error_response B error), w).
Proof.
  unfold errorHandler, onRejected, relayed_error_response, ret.
  destruct (ae_response error) as [r|]; reflexivity.
Qed.

(** A route that sends one request, parses the reply and answers with the
    parsed value *)
Lemma reading_route {T} (schema : Schema T) (enc : T -> json) m u payload code w :
  route (v <- (data <- request B send m u payload ;;
               parse_or_throw schema (Some data)) ;;
         ret {| status := code; body := Some (enc v) |}) w
  = let r := {| method := m; url := u; payload := payload |} in
    match send r (svc w) with
    | (inr data, s') =>
      (match parse schema (Some data) with
       | inr v => {| status := code; body := Some (enc v) |}
       | inl issues => validation_error_response issues
       end, answered r s' w)
    | (inl error, s') => (relayed_error_response B error, answered r s' w)
    end.
Proof.
  unfold route, asyncHandler, try_catch, bind, request, parse_or_throw.
  cbn zeta.
  destruct (send _ (svc w)) as [[error|data] s'].
  - rewrite errorHandler_relays. reflexivity.
  - destruct (parse schema (Some data)) as [issues|v]; reflexivity.
Qed.

(** A route that sends one request and answers without a body *)
Lemma deleting_route m u payload w :
  route (request B send m u payload ;;; ret tt ;;;
         ret {| status := 204; body := None |}) w
  = let r := {| method := m; url := u; payload := payload |} in
    match send r (svc w) with
    | (inr data, s') => ({| status := 204; body := None |}, answered r s' w)
    | (inl error, s') => (relayed_error_response B error, answered r s' w)
    end.
Proof.
  unfold route, asyncHandler, try_catch, bind, request. cbn zeta.
  destruct (send _ (svc w)) as [[error|data] s'].
  - rewrite errorHandler_relays. reflexivity.
  - reflexivity.
Qed.

End Replies.

(** ** What the routes make of the service's replies *)

Section ReplyHandling.

Context (B : Builtins) {S : Type} (send : UpRequest -> S -> AxiosResult * S).
Implicit Types w : World S.

Lemma get_document_route id name segment w :
  encodeURIComponent name = Some segment ->
  route (get_document B send id name) w
  = route (v <- (data <- request B send GET
                           (js "/brains/" ++ id ++ js "/documents/" ++ segment)
                           NoBody ;;
                 parse_or_throw (DocumentMetadataSchema B) (Some data)) ;;
           ret {| status := 200; body := Some (DocumentMetadata_json v) |}) w.
Proof.
  intros He. unfold route, asyncHandler, try_catch, get_document, getDocument,
    document_path. rewrite He. reflexivity.
Qed.

Lemma post_brain_route body b w :
  parse BrainCreateSchema body = inr b ->
  route (post_brain B send body) w
  = route (v <- (data <- request B send POST (js "/brains")
                           (JsonBody (BrainCreate_json b)) ;;
                 parse_or_throw (BrainResponseSchema B) (Some data)) ;;
           ret {| status := 201; body := Some (BrainResponse_json v) |}) w.
Proof.
  intros Hb. unfold route, asyncHandler, try_catch, post_brain, createBrain.
  unfold bind at 1, parse_or_throw at 1. rewrite Hb. reflexivity.
Qed.

Lemma post_query_route id body q w :
  parse QueryRequestSchema body = inr q ->
  route (post_query B send id body) w
  = route (v <- (data <- request B send POST (js "/brains/" ++ id ++ js "/query")
                           (JsonBody (QueryRequest_json q)) ;;
                 parse_or_throw QueryResponseSchema (Some data)) ;;
           ret {| status := 200; body := Some (QueryResponse_json v) |}) w.
Proof.
  intros Hq. unfold route, asyncHandler, try_catch, post_query, queryBrain.
  unfold bind at 1, parse_or_throw at 1. rewrite Hq. reflexivity.
Qed.

(** X1: the routes that read: when the service's reply does not fit the
    schema of the client method, the route answers 400 [Validation error]
    with the issues of the reply, as it does for an invalid request. *)
Theorem a_reply_that_fails_its_schema_is_answered_400 w :
  (forall data s' issues,
      send (bare_request GET (js "/brains")) (svc w) = (inr data, s') ->
      parse (BrainListSchema B) (Some data) = inl issues ->
      route (get_brains B send) w
      = (validation_error_response issues,
         answered (bare_request GET (js "/brains")) s' w))
  /\ (forall id data s' issues,
         send (bare_request GET (js "/brains/" ++ id)) (svc w) = (inr data, s') ->
         parse (BrainResponseSchema B) (Some data) = inl issues ->
         route (get_brain B send id) w
         = (validation_error_response issues,
            answered (bare_request GET (js "/brains/" ++ id)) s' w))
  /\ (forall id data s' issues,
         send (bare_request GET (js "/brains/" ++ id ++ js "/documents")) (svc w)
         = (inr data, s') ->
         parse (DocumentListSchema B) (Some data) = inl issues ->
         route (get_documents B send id) w
         = (validation_error_response issues,
            answered (bare_request GET (js "/brains/" ++ id ++ js "/documents"))
                     s' w))
  /\ (forall id name segment data s' issues,
         encodeURIComponent name = Some segment ->
         send (bare_request GET (js "/brains/" ++ id ++ js "/documents/" ++ segment))
              (svc w) = (inr data, s') ->
         parse (DocumentMetadataSchema B) (Some data) = inl issues ->
         route (get_document B send id name) w
         = (validation_error_response issues,
            answered (bare_request GET
                        (js "/brains/" ++ id ++ js "/documents/" ++ segment))
                     s' w)).
Proof.
  repeat split.
  - intros data s' issues Hs Hp. unfold get_brains, listBrains.
    rewrite reading_route. cbn zeta. fold (bare_request GET (js "/brains")).
    rewrite Hs, Hp. reflexivity.
  - intros id data s' issues Hs Hp. unfold get_brain, getBrain.
    rewrite reading_route. cbn zeta. fold (bare_request GET (js "/brains/" ++ id)).
    rewrite Hs, Hp. reflexivity.
  - intros id data s' issues Hs Hp. unfold get_documents, listDocuments.
    rewrite reading_route. cbn zeta.
    fold (bare_request GET (js "/brains/" ++ id ++ js "/documents")).
    rewrite Hs, Hp. reflexivity.
  - intros id name segment data s' issues He Hs Hp.
    rewrite (get_document_route _ _ _ _ He), reading_route. cbn zeta.
    fold (bare_request GET (js "/brains/" ++ id ++ js "/documents/" ++ segment)).
    rewrite Hs, Hp. reflexivity.
Qed.

(** X2: the routes that write: the request has been made, and the service
    has done what it asks, when the reply is read; a reply that does not fit
    the schema is answered 400 [Validation error] all the same. *)
Theorem a_write_whose_reply_fails_its_schema_is_answered_400 w :
  (forall body b data s' issues,
      parse BrainCreateSchema body = inr b ->
      send (create_request b) (svc w) = (inr data, s') ->
      parse (BrainResponseSchema B) (Some data) = inl issues ->
      route (post_brain B send body) w
      = (validation_error_response issues, answered (create_request b) s' w))
  /\ (forall id body q data s' issues,
         parse QueryRequestSchema body = inr q ->
         send (query_request id q) (svc w) = (inr data, s') ->
         parse QueryResponseSchema (Some data) = inl issues ->
         route (post_query B send id body) w
         = (validation_error_response issues, answered (query_request id q) s' w)).
Proof.
  split.
  - intros body b data s' issues Hb Hs Hp.
    rewrite (post_brain_route _ _ _ Hb), reading_route. cbn zeta.
    fold (create_request b). rewrite Hs, Hp. reflexivity.
  - intros id body q data s' issues Hq Hs Hp.
    rewrite (post_query_route _ _ _ _ Hq), reading_route. cbn zeta.
    fold (query_request id q). rewrite Hs, Hp. reflexivity.
Qed.

(** X3: a reply that fits the schema is answered with the value read,
    written as JSON: the keys of the schema and no other. The answer fits
    the schema in turn, and reads as the same value; but for the size of a
    document when it is infinite, which the schema accepts in the reply
    and which is written [null] in the answer: that answer does not fit
    the schema. *)
Theorem the_answers_fit_the_schemas_of_the_replies w :
  (forall data s' v,
      send (bare_request GET (js "/brains")) (svc w) = (inr data, s') ->
      parse (BrainListSchema B) (Some data) = inr v ->
      route (get_brains B send) w
      = ({| status := 200; body := Some (BrainList_json v) |},
         answered (bare_request GET (js "/brains")) s' w)
      /\ parse (BrainListSchema B) (Some (BrainList_json v)) = inr v)
  /\ (forall id data s' v,
         send (bare_request GET (js "/brains/" ++ id)) (svc w) = (inr data, s') ->
         parse (BrainResponseSchema B) (Some data) = inr v ->
         route (get_brain B send id) w
         = ({| status := 200; body := Some (BrainResponse_json v) |},
            answered (bare_request GET (js "/brains/" ++ id)) s' w)
         /\ parse (BrainResponseSchema B) (Some (BrainResponse_json v)) = inr v)
  /\ (forall id data s' v,
         send (bare_request GET (js "/brains/" ++ id ++ js "/documents")) (svc w)
         = (inr data, s') ->
         parse (DocumentListSchema B) (Some data) = inr v ->
         route (get_documents B send id) w
         = ({| status := 200; body := Some (DocumentList_json v) |},
            answered (bare_request GET (js "/brains/" ++ id ++ js "/documents"))
                     s' w)
         /\ (Forall (fun d => isFinite (dm_size d) = true) (dl_documents v) ->
             parse (DocumentListSchema B) (Some (DocumentList_json v)) = inr v)
         /\ (Exists (fun d => isFinite (dm_size d) = false) (dl_documents v) ->
             exists issues,
               parse (DocumentListSchema B) (Some (DocumentList_json v))
               = inl issues))
  /\ (forall id name segment data s' v,
         encodeURIComponent name = Some segment ->
         send (bare_request GET (js "/brains/" ++ id ++ js "/documents/" ++ segment))
              (svc w) = (inr data, s') ->
         parse (DocumentMetadataSchema B) (Some data) = inr v ->
         route (get_document B send id name) w
         = ({| status := 200; body := Some (DocumentMetadata_json v) |},
            answered (bare_request GET
                        (js "/brains/" ++ id ++ js "/documents/" ++ segment))
                     s' w)
         /\ parse (DocumentMetadataSchema B) (Some (DocumentMetadata_json v))
            = if isFinite (dm_size v) then inr v
              else inl [issue invalid_type [Key (js "size")]])
  /\ (forall body b data s' v,
         parse BrainCreateSchema body = inr b ->
         send (create_request b) (svc w) = (inr data, s') ->
         parse (BrainResponseSchema B) (Some data) = inr v ->
         route (post_brain B send body) w
         = ({| status := 201; body := Some (BrainResponse_json v) |},
            answered (create_request b) s' w)
         /\ parse (BrainResponseSchema B) (Some (BrainResponse_json v)) = inr v)
  /\ (forall id body q data s' v,
         parse QueryRequestSchema body = inr q ->
         send (query_request id q) (svc w) = (inr data, s') ->
         parse QueryResponseSchema (Some data) = inr v ->
         route (post_query B send id body) w
         = ({| status := 200; body := Some (QueryResponse_json v) |},
            answered (query_request id q) s' w)
         /\ parse QueryResponseSchema (Some (QueryResponse_json v)) = inr v).
Proof.
  repeat apply conj.
  - intros data s' v Hs Hp. split.
    + unfold get_brains, listBrains.
      rewrite reading_route. cbn zeta. fold (bare_request GET (js "/brains")).
      rewrite Hs, Hp. reflexivity.
    + exact (BrainListSchema_reads_back B _ _ _ Hp []).
  - intros id data s' v Hs Hp. split.
    + unfold get_brain, getBrain.
      rewrite reading_route. cbn zeta. fold (bare_request GET (js "/brains/" ++ id)).
      rewrite Hs, Hp. reflexivity.
    + exact (BrainResponseSchema_reads_back B _ _ _ Hp []).
  - intros id data s' v Hs Hp. split.
    + unfold get_documents, listDocuments.
      rewrite reading_route. cbn zeta.
      fold (bare_request GET (js "/brains/" ++ id ++ js "/documents")).
      rewrite Hs, Hp. reflexivity.
    + exact (DocumentListSchema_reads_back B _ _ _ Hp []).
  - intros id name segment data s' v He Hs Hp. split.
    + rewrite (get_document_route _ _ _ _ He), reading_route. cbn zeta.
      fold (bare_request GET (js "/brains/" ++ id ++ js "/documents/" ++ segment)).
      rewrite Hs, Hp. reflexivity.
    + exact (DocumentMetadataSchema_reads_back B _ _ _ Hp []).
  - intros body b data s' v Hb Hs Hp. split.
    + rewrite (post_brain_route _ _ _ Hb), reading_route. cbn zeta.
      fold (create_request b). rewrite Hs, Hp. reflexivity.
    + exact (BrainResponseSchema_reads_back B _ _ _ Hp []).
  - intros id body q data s' v Hq Hs Hp. split.
    + rewrite (post_query_route _ _ _ _ Hq), reading_route. cbn zeta.
      fold (query_request id q). rewrite Hs, Hp. reflexivity.
    + exact (QueryResponseSchema_reads_back _ _ _ Hp []).
Qed.

End ReplyHandling.

Section Relay.

Context (B : Builtins) {S : Type} (send : UpRequest -> S -> AxiosResult * S).
Implicit Types w : World S.

Lemma delete_brain_route id w :
  route (delete_brain B send id) w
  = match send (bare_request DELETE (js "/brains/" ++ id)) (svc w) with
    | (inr data, s') =>
      ({| status := 204; body := None |},
       answered (bare_request DELETE (js "/brains/" ++ id)) s' w)
    | (inl error, s') =>
      (relayed_error_response B error,
       answered (bare_request DELETE (js "/brains/" ++ id)) s' w)
    end.
Proof.
  unfold route, asyncHandler, try_catch, delete_brain, deleteBrain, bind, request.
  fold (bare_request DELETE (js "/brains/" ++ id)).
  destruct (send _ (svc w)) as [[error|data] s'].
  - rewrite errorHandler_relays. reflexivity.
  - reflexivity.
Qed.

Lemma delete_document_route id name segment w :
  encodeURIComponent name = Some segment ->
  route (delete_document B send id name) w
  = match send (bare_request DELETE
                  (js "/brains/" ++ id ++ js "/documents/" ++ segment)) (svc w) with
    | (inr data, s') =>
      ({| status := 204; body := None |},
       answered (bare_request DELETE
                   (js "/brains/" ++ id ++ js "/documents/" ++ segment)) s' w)
    | (inl error, s') =>
      (relayed_error_response B error,
       answered (bare_request DELETE
                   (js "/brains/" ++ id ++ js "/documents/" ++ segment)) s' w)
    end.
Proof.
  intros He.
  unfold route, asyncHandler, try_catch, delete_document, deleteDocument,
    document_path. rewrite He. unfold bind, ret, request.
  fold (bare_request DELETE (js "/brains/" ++ id ++ js "/documents/" ++ segment)).
  destruct (send _ (svc w)) as [[error|data] s'].
  - rewrite errorHandler_relays. reflexivity.
  - reflexivity.
Qed.

(** X4: when the service answers a request with an error, or does not
    answer, the route answers with the status of the service's answer (500
    when there is none) and a body that carries the message and, under
    [details], the whole body of the service's answer. Nothing is logged. *)
Theorem an_error_of_the_service_is_relayed_whole w :
  (forall error s',
      send (bare_request GET (js "/brains")) (svc w) = (inl error, s') ->
      route (get_brains B send) w
      = (relayed_error_response B error,
         answered (bare_request GET (js "/brains")) s' w))
  /\ (forall id error s',
         send (bare_request GET (js "/brains/" ++ id)) (svc w) = (inl error, s') ->
         route (get_brain B send id) w
         = (relayed_error_response B error,
            answered (bare_request GET (js "/brains/" ++ id)) s' w))
  /\ (forall id error s',
         send (bare_request DELETE (js "/brains/" ++ id)) (svc w) = (inl error, s') ->
         route (delete_brain B send id) w
         = (relayed_error_response B error,
            answered (bare_request DELETE (js "/brains/" ++ id)) s' w))
  /\ (forall id error s',
         send (bare_request GET (js "/brains/" ++ id ++ js "/documents")) (svc w)
         = (inl error, s') ->
         route (get_documents B send id) w
         = (relayed_error_response B error,
            answered (bare_request GET (js "/brains/" ++ id ++ js "/documents"))
                     s' w))
  /\ (forall body b error s',
         parse BrainCreateSchema body = inr b ->
         send (create_request b) (svc w) = (inl error, s') ->
         route (post_brain B send body) w
         = (relayed_error_response B error, answered (create_request b) s' w))
  /\ (forall id body q error s',
         parse QueryRequestSchema body = inr q ->
         send (query_request id q) (svc w) = (inl error, s') ->
         route (post_query B send id body) w
         = (relayed_error_response B error, answered (query_request id q) s' w)).
Proof.
  repeat apply conj.
  - intros error s' Hs. unfold get_brains, listBrains.
    rewrite reading_route. cbn zeta. fold (bare_request GET (js "/brains")).
    rewrite Hs. reflexivity.
  - intros id error s' Hs. unfold get_brain, getBrain.
    rewrite reading_route. cbn zeta. fold (bare_request GET (js "/brains/" ++ id)).
    rewrite Hs. reflexivity.
  - intros id error s' Hs. rewrite delete_brain_route, Hs. reflexivity.
  - intros id error s' Hs. unfold get_documents, listDocuments.
    rewrite reading_route. cbn zeta.
    fold (bare_request GET (js "/brains/" ++ id ++ js "/documents")).
    rewrite Hs. reflexivity.
  - intros body b error s' Hb Hs.
    rewrite (post_brain_route B send _ _ _ Hb), reading_route. cbn zeta.
    fold (create_request b). rewrite Hs. reflexivity.
  - intros id body q error s' Hq Hs.
    rewrite (post_query_route B send _ _ _ _ Hq), reading_route. cbn zeta.
    fold (query_request id q). rewrite Hs. reflexivity.
Qed.

(** X5: the routes that delete answer 204 without a body as soon as the
    service accepts the request: what the service replies is not read. *)
Theorem a_deletion_is_answered_204_whatever_the_reply w :
  (forall id data s',
      send (bare_request DELETE (js "/brains/" ++ id)) (svc w) = (inr data, s') ->
      route (delete_brain B send id) w
      = ({| status := 204; body := None |},
         answered (bare_request DELETE (js "/brains/" ++ id)) s' w))
  /\ (forall id name segment data s',
         encodeURIComponent name = Some segment ->
         send (bare_request DELETE
                 (js "/brains/" ++ id ++ js "/documents/" ++ segment)) (svc w)
         = (inr data, s') ->
         route (delete_document B send id name) w
         = ({| status := 204; body := None |},
            answered (bare_request DELETE
                        (js "/brains/" ++ id ++ js "/documents/" ++ segment))
                     s' w)).
Proof.
  split.
  - intros id data s' Hs. rewrite delete_brain_route, Hs. reflexivity.
  - intros id name segment data s' He Hs.
    rewrite (delete_document_route _ _ _ _ He), Hs. reflexivity.
Qed.

(** X6: the brain id is put in the request path as it is, where the document
    name is percent-encoded: with the id [b/documents], [GET /brains/:id]
    makes the request of [GET /brains/b/documents], and with the id
    [b/documents/n], [DELETE /brains/:id] does what [DELETE
    /brains/b/documents/:name] does for the name that [n] encodes: it
    deletes a document, not a brain. *)
Theorem a_brain_id_is_not_encoded w :
  (forall id,
      (route (get_brain B send (id ++ js "/documents")) w).2
      = (route (get_documents B send id) w).2)
  /\ (forall id name segment,
         encodeURIComponent name = Some segment ->
         route (delete_brain B send (id ++ js "/documents/" ++ segment)) w
         = route (delete_document B send id name) w).
Proof.
  split.
  - intros id. unfold get_brain, getBrain, get_documents, listDocuments.
    rewrite !reading_route. cbn zeta.
    destruct (send _ (svc w)) as [[error|data] s']; reflexivity.
  - intros id name segment He.
    rewrite delete_brain_route, (delete_document_route _ _ _ _ He). reflexivity.
Qed.

End Relay.

(** X7: for a brain id without [?] and [#], two well-formed names of
    documents, other than [.] and [..], that differ are sent to paths that
    differ. *)
Theorem distinct_names_are_sent_to_distinct_paths
    (B : Builtins) {S : Type} (send : UpRequest -> S -> AxiosResult * S)
    (w : World S) id name1 name2 :
  CHAR_QUESTION_MARK ∉ id ->
  CHAR_HASH ∉ id ->
  isWellFormed name1 = true ->
  isWellFormed name2 = true ->
  name1 ∉ [js "."; js ".."] ->
  name2 ∉ [js "."; js ".."] ->
  name1 <> name2 ->
  exists u1 u2,
    sent (getDocument B send id name1 w).2 = get_document_request u1 :: sent w
    /\ sent (getDocument B send id name2 w).2 = get_document_request u2 :: sent w
    /\ request_path u1 <> request_path u2.
Proof.
  intros Hq Hh H1 H2 Hd1 Hd2 Hne.
  destruct (encode_decode _ name1 (le_n _) H1) as (e1 & He1 & Hdec1 & Hl1 & Ha1).
  destruct (encode_decode _ name2 (le_n _) H2) as (e2 & He2 & Hdec2 & Hl2 & Ha2).
  destruct (getDocument_sends B send id _ _ w He1) as (o1 & w1 & Hg1 & Hs1).
  destruct (getDocument_sends B send id _ _ w He2) as (o2 & w2 & Hg2 & Hs2).
  eexists _, _. rewrite Hg1, Hg2. cbn [snd].
  split; [exact Hs1|]. split; [exact Hs2|].
  intros Hpath. apply (f_equal last) in Hpath.
  rewrite (document_path_last id name1), (document_path_last id name2) in Hpath;
    try assumption;
    try (apply Hdec1; exact Hl1); try (apply Hdec2; exact Hl2);
    try (intros ->; (apply Hd1 || apply Hd2); set_solver).
  injection Hpath as ->.
  specialize (Hdec1 (length name1 + length name2)%nat ltac:(lia)).
  specialize (Hdec2 (length name1 + length name2)%nat ltac:(lia)).
  congruence.
Qed.

(** ** The answer to an upload *)

Lemma prop_set_prop key v props : prop key (set_prop key v props) = Some v.
Proof.
  induction props as [|[k x] props IH]; cbn [set_prop prop].
  - rewrite decide_True by reflexivity. reflexivity.
  - destruct (decide (k = key)) as [->|Hk]; cbn [prop].
    + rewrite decide_True by reflexivity. reflexivity.
    + rewrite decide_False by exact Hk. exact IH.
Qed.

Lemma prop_set_prop_ne key key' v props :
  key' <> key -> prop key' (set_prop key v props) = prop key' props.
Proof.
  intros Hne. induction props as [|[k x] props IH]; cbn [set_prop prop].
  - rewrite decide_False by congruence. reflexivity.
  - destruct (decide (k = key)) as [->|Hk]; cbn [prop].
    + rewrite !decide_False by congruence. reflexivity.
    + destruct (decide (k = key')); [reflexivity|exact IH].
Qed.

Lemma FileStatsSchema_file_stats t file p :
  FileStatsSchema p (Some (file_stats_json t file)) = inr (file_stats t file).
Proof. reflexivity. Qed.

Lemma z_array_file_stats t files : forall p i,
  z_array_items FileStatsSchema p i (file_stats_json t <$> files)
  = inr (file_stats t <$> files).
Proof.
  induction files as [|file files IH]; intros p i; [reflexivity|].
  cbn [fmap list_fmap z_array_items].
  rewrite FileStatsSchema_file_stats.
  change (list_fmap _ _ (file_stats_json t) files) with (file_stats_json t <$> files).
  rewrite IH. reflexivity.
Qed.

Section UploadAnswer.

Context (B : Builtins) {S : Type} (send : UpRequest -> S -> AxiosResult * S).
Implicit Types w : World S.

Lemma mapM_getFileStats files w :
  mapM getFileStats files w = (Return (file_stats_json (clock w) <$> files), w).
Proof.
  induction files as [|file files IH]; [reflexivity|].
  cbn [mapM]. unfold bind at 1. unfold getFileStats at 1, now, bind at 1, ret at 1.
  unfold bind at 1. rewrite IH. reflexivity.
Qed.

Lemma upload_handler_accepted id file files result s' w :
  send (upload_request id (file :: files)) (svc w) = (inr result, s') ->
  exists w',
    upload_handler B send id (Some (file :: files)) w
    = (Return {| status := 201;
                 body := Some (JObj (set_prop (js "files")
                                       (JArr (file_stats_json (clock w)
                                                <$> file :: files))
                                       (spread result))) |}, w').
Proof.
  intros Hs.
  unfold upload_handler, try_catch, uploadDocumentsWithFormData.
  unfold bind at 1, request. fold (upload_request id (file :: files)).
  rewrite Hs. cbn beta iota. unfold bind at 1.
  match goal with |- context [cleanupFiles ?fs ?w1] =>
    destruct (cleanupFiles_spec fs w1) as (w2 & H2 & Hs2 & Hd2) end.
  rewrite H2. unfold bind at 1. rewrite mapM_getFileStats. unfold ret.
  destruct Hs2 as (_ & _ & _ & Hclock). cbn in Hclock. rewrite Hclock.
  eexists. reflexivity.
Qed.

(** X8: when the service accepts an upload, the handler answers 201 with the
    service's reply in which [files] is set to the statistics of the
    uploaded files, one for each file in their order, whatever the reply had
    under [files]; the other keys of the reply are kept. *)
Theorem the_answer_to_an_upload_lists_the_files id file files result s' w :
  send (upload_request id (file :: files)) (svc w) = (inr result, s') ->
  exists props w',
    upload_handler B send id (Some (file :: files)) w
    = (Return {| status := 201; body := Some (JObj props) |}, w')
    /\ prop (js "files") props
       = Some (JArr (file_stats_json (clock w) <$> file :: files))
    /\ forall key, key <> js "files" ->
                   prop key props = prop key (spread result).
Proof.
  intros Hs.
  destruct (upload_handler_accepted id file files result s' w Hs) as [w' H].
  eexists _, w'. split; [exact H|]. split.
  - apply prop_set_prop.
  - intros key Hk. apply prop_set_prop_ne. exact Hk.
Qed.

(** X9: the answer to an accepted upload fits [FileUploadResponseSchema]
    whenever the service's reply carries a [message] and, as [brain_id], a
    UUID: the statistics of the files always fit. *)
Theorem the_answer_to_an_upload_fits_its_schema
    id file files props message brain_id s' w :
  send (upload_request id (file :: files)) (svc w) = (inr (JObj props), s') ->
  prop (js "message") props = Some (JStr message) ->
  prop (js "brain_id") props = Some (JStr brain_id) ->
  is_uuid B brain_id = true ->
  exists answer w',
    upload_handler B send id (Some (file :: files)) w
    = (Return {| status := 201; body := Some answer |}, w')
    /\ parse (FileUploadResponseSchema B) (Some answer)
       = inr {| fu_message := message;
                fu_files := file_stats (clock w) <$> file :: files;
                fu_brain_id := brain_id |}.
Proof.
  intros Hs Hm Hb Hu.
  destruct (upload_handler_accepted id file files _ s' w Hs) as [w' H].
  eexists _, w'. split; [exact H|].
  unfold parse, FileUploadResponseSchema, z_object, field.
  rewrite prop_set_prop, !prop_set_prop_ne by (vm_compute; discriminate).
  cbn [spread]. rewrite Hm, Hb.
  unfold z_array. rewrite z_array_file_stats.
  unfold z_string. cbn [flat_map string_check app]. rewrite Hu. reflexivity.
Qed.

End UploadAnswer.

(** ** The bodies of the errors *)

Section ErrorBodies.

Context (B : Builtins) {S : Type}.
Implicit Types w : World S.

(** X10: every body [errorHandler] answers with fits [ErrorResponseSchema],
    and reads with no [detail] and no [request_id]: the handler puts the
    issues and the service's body under [details], and the message of an
    unexpected error under [message]. Only an unexpected error is logged. *)
Theorem the_error_bodies_fit_their_schema (error : JsError) w :
  exists r data,
    errorHandler error w
    = (Return r,
       match error with
       | Error _ =>
         {| svc := svc w; sent := sent w; disk := disk w; busy := busy w;
            console := js "Unhandled error:" :: console w; clock := clock w |}
       | _ => w
       end)
    /\ body r = Some data
    /\ parse (ErrorResponseSchema B) (Some data)
       = inr {| er_error := match error with
                            | ZodError _ => js "Validation error"
                            | QuivrClientError message _ _ => message
                            | Error _ => js "Internal server error"
                            end;
                er_detail := None;
                er_request_id := None |}.
Proof.
  destruct error as [issues|message statusCode details|message].
  - eexists _, _. split; [reflexivity|]. split; reflexivity.
  - eexists _, _. split; [reflexivity|]. split; [reflexivity|].
    destruct details; reflexivity.
  - eexists _, _. split; [reflexivity|]. split; reflexivity.
Qed.

End ErrorBodies.

(** ** Replies with a key left out *)

(** X11: [description] in the reply about a brain and [tokens_used] in the
    reply to a query are nullable, not optional: a reply that leaves one out
    is refused, whatever its other keys. A reply to a query with an answer,
    an integer processing time and [null] for [tokens_used] is read;
    [sources] may be left out of it, and is then read as no sources. *)
Theorem a_nullable_key_cannot_be_left_out (B : Builtins) props :
  (prop (js "description") props = None ->
   exists issues,
     parse (BrainResponseSchema B) (Some (JObj props)) = inl issues
     /\ issue invalid_type [Key (js "description")] ∈ issues)
  /\ (prop (js "tokens_used") props = None ->
      exists issues,
        parse QueryResponseSchema (Some (JObj props)) = inl issues
        /\ issue invalid_type [Key (js "tokens_used")] ∈ issues)
  /\ (forall a t,
         prop (js "answer") props = Some (JStr a) ->
         prop (js "processing_time_ms") props = Some (JNum t) ->
         isInteger t = true ->
         prop (js "tokens_used") props = Some JNull ->
         prop (js "sources") props = None ->
         parse QueryResponseSchema (Some (JObj props))
         = inr {| answer := a; sources := []; tokens_used := None;
                  processing_time_ms := t |}).
Proof.
  repeat apply conj.
  - intros Hd. unfold parse, BrainResponseSchema, z_object, field.
    cbn [app]. rewrite Hd. cbn [nullable z_string zmap].
    repeat match goal with
    | |- context [z_string ?c ?p ?i] => destruct (z_string c p i)
    | |- context [z_count ?p ?i] => destruct (z_count p i)
    end; cbn [zmap zap]; eexists; (split; [reflexivity|]); set_solver.
  - intros Hd. unfold parse, QueryResponseSchema, z_object, field.
    cbn [app]. rewrite Hd. cbn [nullable z_number zmap].
    repeat match goal with
    | |- context [z_string ?c ?p ?i] => destruct (z_string c p i)
    | |- context [z_number ?c ?p ?i] => destruct (z_number c p i)
    | |- context [default_ ?s ?d ?p ?i] => destruct (default_ s d p i)
    end; cbn [zmap zap]; eexists; (split; [reflexivity|]); set_solver.
  - intros a t Ha Hp Hi Ht Hs. unfold parse, QueryResponseSchema, z_object, field.
    cbn [app]. rewrite Ha, Hp, Ht, Hs.
    cbn [nullable default_ z_string z_number flat_map number_check app].
    rewrite Hi. reflexivity.
Qed.

(** ** What is forwarded to the service *)

Lemma forwarded_brain_is_valid body b :
  parse BrainCreateSchema body = inr b ->
  parse BrainCreateSchema (Some (BrainCreate_json b)) = inr b.
Proof.
  rewrite !BrainCreateSchema_accepts.
  intros (props & _ & [_ Hlen] & Hde & Hpr & _).
  destruct b as [name de pr mo]. cbn [bc_name bc_description bc_llm_provider bc_model] in *.
  eexists. split; [reflexivity|].
  split; [split; [destruct de; reflexivity|exact Hlen]|].
  split; [|split].
  - destruct Hde as [[_ ->] | (d & _ & -> & Hd)].
    + left. split; reflexivity.
    + right. exists d. split; [reflexivity|]. split; [reflexivity|exact Hd].
  - right. split; [destruct de; reflexivity|].
    destruct Hpr as [[_ ->] | [_ Hin]]; [|exact Hin].
    unfold PROVIDERS. set_solver.
  - right. destruct de; reflexivity.
Qed.

Section Forwarded.

Context (B : Builtins) {S : Type} (send : UpRequest -> S -> AxiosResult * S).
Implicit Types w : World S.

(** X12: a request that passes validation is forwarded once, as the value
    read: the keys of the schema and no other, the defaults filled in. What
    is forwarded passes the same validation, and reads as the same value. *)
Theorem what_is_forwarded_is_the_value_read w :
  (forall body b,
      parse BrainCreateSchema body = inr b ->
      sent (route (post_brain B send body) w).2 = create_request b :: sent w
      /\ parse BrainCreateSchema (Some (BrainCreate_json b)) = inr b)
  /\ (forall id body q,
         parse QueryRequestSchema body = inr q ->
         sent (route (post_query B send id body) w).2
         = query_request id q :: sent w
         /\ parse QueryRequestSchema (Some (QueryRequest_json q)) = inr q).
Proof.
  split.
  - intros body b Hb. split; [|exact (forwarded_brain_is_valid _ _ Hb)].
    rewrite (post_brain_route B send _ _ _ Hb), reading_route. cbn zeta.
    fold (create_request b).
    destruct (send _ (svc w)) as [[error|data] s']; reflexivity.
  - intros id body q Hq. split; [|exact (forwarded_query_is_valid _ _ Hq)].
    rewrite (post_query_route B send _ _ _ _ Hq), reading_route. cbn zeta.
    fold (query_request id q).
    destruct (send _ (svc w)) as [[error|data] s']; reflexivity.
Qed.

End Forwarded.

(** ** The extension of a file name *)
Lemma nth_at {A} (l1 : list A) c l2 d : nth (length l1) (l1 ++ c :: l2) d = c.
Proof. induction l1; simpl; auto. Qed.

Lemma scan_slashes sl : forall p rest st,
  Forall (eq CHAR_FORWARD_SLASH) sl ->
  matchedSlash st = true ->
  extname_scan (p ++ sl ++ rest) (length p + length sl) st
  = extname_scan (p ++ sl ++ rest) (length p) st.
Proof.
  induction sl as [|c sl IH] using rev_ind; intros p rest st Hall Hm.
  - simpl. rewrite Nat.add_0_r. reflexivity.
  - apply Forall_app in Hall as [Hall Hc]. rewrite Forall_singleton in Hc. subst c.
    rewrite length_app. cbn [length]. 
    replace (length p + (length sl + 1))%nat with (S (length (p ++ sl)))
      by (rewrite length_app; lia).
    cbn [extname_scan].
    replace (p ++ (sl ++ [CHAR_FORWARD_SLASH]) ++ rest)
      with ((p ++ sl) ++ CHAR_FORWARD_SLASH :: rest)
      by (rewrite <- !app_assoc; reflexivity).
    rewrite nth_at, Z.eqb_refl, Hm. cbn [negb].
    rewrite length_app.
    replace ((p ++ sl) ++ CHAR_FORWARD_SLASH :: rest)
      with (p ++ sl ++ ([CHAR_FORWARD_SLASH] ++ rest))
      by (rewrite <- !app_assoc; reflexivity).
    apply IH; assumption.
Qed.

Lemma scan_first path i c :
  nth i path 0 = c -> c <> CHAR_FORWARD_SLASH ->
  exists st',
    extname_scan path (Datatypes.S i) ext_init = extname_scan path i st'
    /\ scanned i [c] (Z.of_nat i + 1) st'.
Proof.
  intros Hn Hc. cbn [extname_scan]. rewrite Hn.
  destruct (Z.eqb_spec c CHAR_FORWARD_SLASH) as [|_]; [contradiction|].
  cbn [ext_init endIdx Z.eqb startDot preDotState startPart matchedSlash].
  destruct (Z.eqb_spec c CHAR_DOT) as [->|Hd].
  - eexists. split; [reflexivity|]. repeat split. right.
    exists [], []. cbn. repeat split; [set_solver|lia].
  - eexists. split; [reflexivity|]. repeat split. left.
    repeat split. set_solver.
Qed.

Lemma scan_step path i c t e st :
  nth i path 0 = c -> c <> CHAR_FORWARD_SLASH -> e <> -1 ->
  scanned (Datatypes.S i) t e st ->
  exists st',
    extname_scan path (Datatypes.S i) st = extname_scan path i st'
    /\ scanned i (c :: t) e st'.
Proof.
  intros Hn Hc He (Hend & Hm & Hsp & Hdot). cbn [extname_scan]. rewrite Hn.
  destruct (Z.eqb_spec c CHAR_FORWARD_SLASH) as [|_]; [contradiction|].
  destruct (Z.eqb_spec (endIdx st) (-1)) as [|_]; [congruence|].
  destruct Hdot as [(Hno & Hsd & Hpd) | (a & s & -> & Hs & Hsd & Hpd)].
  - rewrite Hsd. cbn [Z.eqb negb].
    destruct (Z.eqb_spec c CHAR_DOT) as [->|Hd].
    + eexists. split; [reflexivity|]. repeat split; auto. right.
      exists [], t. cbn. repeat split; auto; lia.
    + eexists. split; [reflexivity|]. repeat split; auto. left.
      repeat split; auto. set_solver.
  - destruct (Z.eqb_spec (startDot st) (-1)) as [|_]; [lia|]. cbn [negb].
    destruct (Z.eqb_spec c CHAR_DOT) as [->|Hd].
    + destruct (Z.eqb_spec (preDotState st) 1) as [H1|H1]; cbn [negb].
      * eexists. split; [reflexivity|]. repeat split; auto. right.
        exists (CHAR_DOT :: a), s. cbn. repeat split; auto; lia.
      * eexists. split; [reflexivity|]. repeat split; auto. right.
        exists (CHAR_DOT :: a), s. cbn. repeat split; auto; lia.
    + eexists. split; [reflexivity|]. repeat split; auto. right.
      exists (c :: a), s. cbn. repeat split; auto; [lia|].
      destruct (Z.eqb_spec c CHAR_DOT); [contradiction|reflexivity].
Qed.

Lemma scan_segment u : forall t pre rest e st,
  CHAR_FORWARD_SLASH ∉ u -> e <> -1 ->
  scanned (length pre + length u) t e st ->
  exists st',
    extname_scan (pre ++ u ++ t ++ rest) (length pre + length u) st
    = extname_scan (pre ++ u ++ t ++ rest) (length pre) st'
    /\ scanned (length pre) (u ++ t) e st'.
Proof.
  induction u as [|c u IH] using rev_ind; intros t pre rest e st Hu He Hst.
  - rewrite Nat.add_0_r in *. exists st. split; [reflexivity|exact Hst].
  - rewrite not_elem_of_app in Hu. destruct Hu as [Hu Hc].
    rewrite length_app in *. cbn [length] in *.
    replace (length pre + (length u + 1))%nat with (Datatypes.S (length pre + length u))
      in * by lia.
    replace (pre ++ (u ++ [c]) ++ t ++ rest) with (pre ++ u ++ (c :: t) ++ rest)
      by (rewrite <- !app_assoc; reflexivity).
    destruct (scan_step (pre ++ u ++ (c :: t) ++ rest) (length pre + length u) c t e st)
      as (st1 & H1 & Hst1); auto.
    { replace (pre ++ u ++ (c :: t) ++ rest) with ((pre ++ u) ++ c :: (t ++ rest))
        by (rewrite <- !app_assoc; reflexivity).
      rewrite <- length_app. apply nth_at. }
    { set_solver. }
    rewrite H1.
    destruct (IH (c :: t) pre rest e st1 Hu He Hst1) as (st2 & H2 & Hst2).
    exists st2. split; [exact H2|].
    rewrite <- app_assoc. exact Hst2.
Qed.

Lemma last_dot_unique (a a' s s' : jsstring) :
  a ++ CHAR_DOT :: s = a' ++ CHAR_DOT :: s' ->
  CHAR_DOT ∉ s -> CHAR_DOT ∉ s' -> a = a' /\ s = s'.
Proof.
  revert a'. induction a as [|x a IH]; intros [|y a'] H Hs Hs'; cbn in H.
  - injection H as ->. auto.
  - injection H as <- ->. set_solver.
  - injection H as -> <-. set_solver.
  - injection H as -> H. destruct (IH _ H Hs Hs') as [-> ->]. auto.
Qed.

(** The loop on a path whose last segment is [seg] *)
Lemma extname_scan_segment pre seg slashes :
  pre = [] \/ (exists pre', pre = pre' ++ [CHAR_FORWARD_SLASH]) ->
  seg <> [] ->
  CHAR_FORWARD_SLASH ∉ seg ->
  Forall (eq CHAR_FORWARD_SLASH) slashes ->
  exists st,
    extname_scan (pre ++ seg ++ slashes) (length (pre ++ seg ++ slashes)) ext_init
    = st
    /\ endIdx st = Z.of_nat (length pre + length seg)
    /\ startPart st = Z.of_nat (length pre)
    /\ (((CHAR_DOT ∉ seg) /\ startDot st = -1)
        \/ exists a s,
             seg = a ++ CHAR_DOT :: s /\ (CHAR_DOT ∉ s)
             /\ startDot st = Z.of_nat (length pre + length a)
             /\ preDotState st = pre_dot_state a).
Proof.
  intros Hpre Hseg Hno Hsl.
  destruct (exists_last Hseg) as (u & c & ->).
  rewrite not_elem_of_app in Hno. destruct Hno as [Hu Hc].
  assert (c <> CHAR_FORWARD_SLASH) as Hc' by set_solver.
  replace (length (pre ++ (u ++ [c]) ++ slashes))
    with (length (pre ++ u ++ [c]) + length slashes)%nat
    by (rewrite !length_app; cbn; lia).
  replace (pre ++ (u ++ [c]) ++ slashes)
    with ((pre ++ u ++ [c]) ++ slashes ++ [])
    by (rewrite app_nil_r, <- !app_assoc; reflexivity).
  rewrite scan_slashes by (assumption || reflexivity).
  replace (length (pre ++ u ++ [c])) with (Datatypes.S (length pre + length u))
    by (rewrite !length_app; cbn; lia).
  replace ((pre ++ u ++ [c]) ++ slashes ++ []) with (pre ++ u ++ [c] ++ slashes)
    by (rewrite app_nil_r, <- !app_assoc; reflexivity).
  destruct (scan_first (pre ++ u ++ [c] ++ slashes) (length pre + length u) c)
    as (st1 & H1 & Hst1); auto.
  { replace (pre ++ u ++ [c] ++ slashes) with ((pre ++ u) ++ c :: slashes)
      by (rewrite <- !app_assoc; reflexivity).
    rewrite <- length_app. apply nth_at. }
  rewrite H1.
  destruct (scan_segment u [c] pre slashes
              (Z.of_nat (length pre + length u) + 1) st1 Hu ltac:(lia) Hst1)
    as (st2 & H2 & Hend & Hm & Hsp & Hdot).
  rewrite H2. rewrite length_app. cbn [length].
  assert (exists st,
    extname_scan (pre ++ u ++ [c] ++ slashes) (length pre) st2 = st
    /\ endIdx st = endIdx st2 /\ startDot st = startDot st2
    /\ preDotState st = preDotState st2
    /\ startPart st = Z.of_nat (length pre)) as (st & Hst & He & Hd & Hp & Hs).
  { destruct Hpre as [->|[pre' ->]].
    - exists st2. cbn. auto.
    - rewrite length_app. cbn [length].
      replace (length pre' + 1)%nat with (Datatypes.S (length pre')) by lia.
      cbn [extname_scan].
      replace ((pre' ++ [CHAR_FORWARD_SLASH]) ++ u ++ [c] ++ slashes)
        with (pre' ++ CHAR_FORWARD_SLASH :: (u ++ [c] ++ slashes))
        by (rewrite <- !app_assoc; reflexivity).
      rewrite nth_at, Z.eqb_refl, Hm. cbn [negb].
      eexists. split; [reflexivity|]. cbn. repeat split; lia. }
  exists st. split; [exact Hst|]. rewrite He, Hs, Hd, Hp, Hend.
  split; [lia|]. split; [reflexivity|].
  destruct Hdot as [(Hn & Hsd & _) | (a & s & Heq & Hns & Hsd & Hpd)].
  - left. auto.
  - right. exists a, s. auto.
Qed.

(** [path.extname] by the last segment of the path: there is no extension
    when the segment has no dot, when its last dot is its first character,
    and when the segment is [..]; otherwise the extension runs from the
    last dot of the segment to the end of the segment. *)
Lemma extname_segment pre seg slashes :
  pre = [] \/ (exists pre', pre = pre' ++ [CHAR_FORWARD_SLASH]) ->
  seg <> [] ->
  CHAR_FORWARD_SLASH ∉ seg ->
  Forall (eq CHAR_FORWARD_SLASH) slashes ->
  (CHAR_DOT ∉ seg -> extname (pre ++ seg ++ slashes) = [])
  /\ (forall a s,
         seg = a ++ CHAR_DOT :: s -> CHAR_DOT ∉ s ->
         extname (pre ++ seg ++ slashes)
         = if bool_decide (a = [] \/ (a = [CHAR_DOT] /\ s = []))
           then [] else CHAR_DOT :: s).
Proof.
  intros Hpre Hseg Hno Hsl.
  destruct (extname_scan_segment pre seg slashes Hpre Hseg Hno Hsl)
    as (st & Hst & Hend & Hsp & Hdot).
  unfold extname. fold ext_init. cbv zeta. rewrite Hst. split.
  - intros Hnd. destruct Hdot as [[_ Hsd]|(a & s & -> & _)]; [|set_solver].
    rewrite Hsd. reflexivity.
  - intros a s Heq Hs.
    destruct Hdot as [[Hnd _]|(a' & s' & Heq' & Hs' & Hsd & Hpd)];
      [subst seg; set_solver|].
    rewrite Heq in Heq'. destruct (last_dot_unique _ _ _ _ Heq' Hs Hs') as [<- <-].
    rewrite Hsd, Hend, Hsp, Hpd. subst seg.
    rewrite length_app. cbn [length].
    destruct (Z.eqb_spec (Z.of_nat (length pre + length a)) (-1)); [lia|].
    destruct (Z.eqb_spec (Z.of_nat (length pre + (length a + Datatypes.S (length s)))) (-1));
      [lia|].
    cbn [orb].
    destruct a as [|x a].
    { cbn [pre_dot_state Z.eqb orb]. rewrite bool_decide_eq_true_2 by auto.
      reflexivity. }
    cbn [pre_dot_state length].
    assert (slice (pre ++ ((x :: a) ++ CHAR_DOT :: s) ++ slashes)
                  (Z.of_nat (length pre + Datatypes.S (length a)))
                  (Z.of_nat (length pre + (Datatypes.S (length a)
                                           + Datatypes.S (length s))))
            = CHAR_DOT :: s) as Hslice.
    { unfold slice.
      replace (Z.to_nat (Z.of_nat (length pre + Datatypes.S (length a))))
        with (length (pre ++ x :: a)) by (rewrite length_app; cbn; lia).
      replace (Z.to_nat (_ - _)) with (length (CHAR_DOT :: s)) by (cbn; lia).
      replace (pre ++ ((x :: a) ++ CHAR_DOT :: s) ++ slashes)
        with ((pre ++ x :: a) ++ (CHAR_DOT :: s) ++ slashes)
        by (rewrite <- !app_assoc; reflexivity).
      rewrite drop_app_length, take_app_length. reflexivity. }
    rewrite Hslice.
    destruct (Z.eqb_spec x CHAR_DOT) as [->|Hx].
    + cbn [Z.eqb orb andb].
      destruct (decide (a = [] /\ s = [])) as [[-> ->]|Hne].
      * rewrite bool_decide_eq_true_2 by auto. cbn [length].
        rewrite !(proj2 (Z.eqb_eq _ _)) by lia. reflexivity.
      * rewrite bool_decide_eq_false_2
          by (intros [?|[[= ->] ->]]; [discriminate|tauto]).
        destruct (Z.eqb_spec (Z.of_nat (length pre + Datatypes.S (length a)))
                    (Z.of_nat (length pre + (Datatypes.S (length a)
                                             + Datatypes.S (length s))) - 1));
          destruct (Z.eqb_spec (Z.of_nat (length pre + Datatypes.S (length a)))
                      (Z.of_nat (length pre) + 1));
          cbn [andb]; try reflexivity.
        exfalso. apply Hne. split.
        -- destruct a; [reflexivity|cbn in *; lia].
        -- destruct s; [reflexivity|cbn in *; lia].
    + cbn [Z.eqb orb andb].
      rewrite bool_decide_eq_false_2
        by (intros [?|[[= ->] _]]; [discriminate|contradiction]).
      reflexivity.
Qed.

Lemma extname_of_slashes path :
  Forall (eq CHAR_FORWARD_SLASH) path -> extname path = [].
Proof.
  intros Hall. unfold extname. fold ext_init. cbv zeta.
  pose proof (scan_slashes path [] [] ext_init Hall eq_refl) as H.
  cbn [app length Nat.add] in H. rewrite app_nil_r in H. rewrite H.
  reflexivity.
Qed.

(** Every path ends with a last segment and slashes, or is made of
    slashes. *)
Lemma last_segment_exists (path : jsstring) :
  Forall (eq CHAR_FORWARD_SLASH) path
  \/ exists pre seg slashes,
       path = pre ++ seg ++ slashes
       /\ (pre = [] \/ (exists pre', pre = pre' ++ [CHAR_FORWARD_SLASH]))
       /\ seg <> []
       /\ (CHAR_FORWARD_SLASH ∉ seg)
       /\ Forall (eq CHAR_FORWARD_SLASH) slashes.
Proof.
  induction path as [|c path IH] using rev_ind; [left; constructor|].
  destruct (decide (c = CHAR_FORWARD_SLASH)) as [->|Hc].
  - destruct IH as [Hall|(pre & seg & sl & -> & Hpre & Hseg & Hno & Hsl)].
    + left. apply Forall_app. split; [exact Hall|]. repeat constructor.
    + right. exists pre, seg, (sl ++ [CHAR_FORWARD_SLASH]).
      split; [rewrite <- !app_assoc; reflexivity|].
      repeat split; auto. apply Forall_app. split; [exact Hsl|]. repeat constructor.
  - right. destruct IH as [Hall|(pre & seg & sl & -> & Hpre & Hseg & Hno & Hsl)].
    + exists path, [c], []. split; [reflexivity|]. repeat split.
      * destruct path as [|x path _] using rev_ind; [left; reflexivity|].
        right. exists path. apply Forall_app in Hall as [_ Hx].
        rewrite Forall_singleton in Hx. subst x. reflexivity.
      * discriminate.
      * set_solver.
      * constructor.
    + destruct sl as [|x sl _] using rev_ind.
      * exists pre, (seg ++ [c]), []. rewrite !app_nil_r.
        split; [rewrite <- !app_assoc; reflexivity|]. repeat split; auto.
        -- destruct seg; discriminate.
        -- set_solver.
      * exists (pre ++ seg ++ sl ++ [x]), [c], [].
        split; [rewrite <- !app_assoc; reflexivity|]. repeat split.
        -- right. exists (pre ++ seg ++ sl).
           apply Forall_app in Hsl as [_ Hx].
           rewrite Forall_singleton in Hx. subst x.
           rewrite <- !app_assoc. reflexivity.
        -- discriminate.
        -- set_solver.
        -- constructor.
Qed.

Lemma segment_split (l : jsstring) :
  exists pre u,
    l = pre ++ u /\ (CHAR_FORWARD_SLASH ∉ u)
    /\ (pre = [] \/ (exists pre', pre = pre' ++ [CHAR_FORWARD_SLASH])).
Proof.
  induction l as [|c l IH] using rev_ind.
  - exists [], []. split; [reflexivity|]. split; [set_solver|auto].
  - destruct (decide (c = CHAR_FORWARD_SLASH)) as [->|Hc].
    + exists (l ++ [CHAR_FORWARD_SLASH]), []. rewrite app_nil_r.
      split; [reflexivity|]. split; [set_solver|eauto].
    + destruct IH as (pre & u & -> & Hu & Hpre).
      exists pre, (u ++ [c]). rewrite <- app_assoc.
      split; [reflexivity|]. split; [set_solver|exact Hpre].
Qed.

Lemma ascii_lower_keeps c (s : jsstring) :
  ~ (65 <= c <= 90) -> c ∈ s -> c ∈ ascii_lower <$> s.
Proof.
  intros Hc Hin. apply list_elem_of_fmap.
  exists c. split; [|exact Hin]. unfold ascii_lower.
  rewrite bool_decide_eq_false_2 by exact Hc. reflexivity.
Qed.

Lemma ascii_lower_dot c : ascii_lower c = CHAR_DOT -> c = CHAR_DOT.
Proof. unfold ascii_lower, CHAR_DOT. case_bool_decide; lia. Qed.

(** A string whose lower case is an allowed extension is made of ASCII
    characters: no allowed extension has a [k]. *)
Lemma allowed_extension_ascii B e :
  toLowerCase B e ∈ ALLOWED_EXTENSIONS -> toLowerCase B e = ascii_lower <$> e.
Proof.
  unfold toLowerCase. destruct (forallb _ e) eqn:Hall; [reflexivity|].
  intros Hin. exfalso.
  assert (Exists (fun c => 128 <= c) e) as Hex.
  { clear Hin. induction e as [|c e IH]; [discriminate|].
    cbn [forallb] in Hall. apply andb_false_iff in Hall as [Hc|He].
    - left. apply Z.ltb_ge in Hc. exact Hc.
    - right. apply IH, He. }
  apply (unicode_lower_outside_ascii B) in Hex.
  apply Exists_exists in Hex as (c & Hc & Hbig).
  assert (c < 128 /\ c <> 107) as [? ?]; [|lia].
  clear Hbig. revert c Hc. apply Forall_forall.
  unfold ALLOWED_EXTENSIONS in Hin.
  repeat (apply elem_of_cons in Hin as [->|Hin]);
    [..|apply elem_of_nil in Hin; contradiction];
    apply Forall_forall; intros c Hc; vm_compute in Hc;
    repeat (apply elem_of_cons in Hc as [->|Hc]; [split; lia|]);
    apply elem_of_nil in Hc; contradiction.
Qed.

(** An extension whose lower case is allowed is a dot followed by
    characters that are neither dots nor slashes. *)
Lemma allowed_extension_shape B e :
  toLowerCase B e ∈ ALLOWED_EXTENSIONS ->
  exists s, e = CHAR_DOT :: s /\ s <> []
            /\ (CHAR_DOT ∉ s) /\ (CHAR_FORWARD_SLASH ∉ s).
Proof.
  intros Hin. pose proof (allowed_extension_ascii _ _ Hin) as Hascii.
  rewrite Hascii in Hin. clear Hascii.
  assert (exists t, ascii_lower <$> e = CHAR_DOT :: t /\ t <> []
                    /\ (CHAR_DOT ∉ t) /\ (CHAR_FORWARD_SLASH ∉ t))
    as (t & Ht & Hne & Hd & Hs).
  { unfold ALLOWED_EXTENSIONS in Hin.
    repeat (apply elem_of_cons in Hin as [->|Hin]);
      [..|apply elem_of_nil in Hin; contradiction];
      (eexists; split; [reflexivity|]; split; [discriminate|];
       split; vm_compute; intros H; apply list_elem_of_In in H;
       cbn in H; intuition discriminate). }
  destruct e as [|c s]; [discriminate|].
  cbn [fmap list_fmap] in Ht.
  injection Ht as Hc Hs'. apply ascii_lower_dot in Hc. subst c.
  exists s. split; [reflexivity|].
  split; [intros ->; apply Hne; symmetry; exact Hs'|].
  split; intros Hx; [apply Hd|apply Hs]; rewrite <- Hs';
    (apply (ascii_lower_keeps _ s); [unfold CHAR_DOT, CHAR_FORWARD_SLASH; lia|exact Hx]).
Qed.

(** X13: the names [fileFilter] accepts, by their text: a name is accepted,
    with an allowed content type, exactly when it ends with an extension
    whose lower case is allowed, after a character that is not a slash, or
    with such an extension and slashes behind it. So [notes.PDF] and
    [notes.pdf/] are accepted, and [.pdf] alone is not. *)
Theorem the_names_the_filter_accepts (B : Builtins) f :
  fileFilter B f = inr true <->
  mimetype f ∈ ALLOWED_MIME_TYPES
  /\ exists pre x e slashes,
       originalname f = pre ++ [x] ++ e ++ slashes
       /\ x <> CHAR_FORWARD_SLASH
       /\ toLowerCase B e ∈ ALLOWED_EXTENSIONS
       /\ Forall (eq CHAR_FORWARD_SLASH) slashes.
Proof.
  rewrite fileFilter_accepts. split.
  - intros [Hext Hmime]. split; [exact Hmime|].
    destruct (allowed_extension_shape _ _ Hext) as (s0 & He & _).
    destruct (last_segment_exists (originalname f))
      as [Hall|(pre & seg & sl & Hname & Hpre & Hseg & Hno & Hsl)].
    { rewrite (extname_of_slashes _ Hall) in He. discriminate. }
    destruct (extname_segment pre seg sl Hpre Hseg Hno Hsl) as [Hnodot Hdot].
    rewrite Hname in He, Hext.
    destruct (decide (CHAR_DOT ∈ seg)) as [Hin|Hnin];
      [|rewrite (Hnodot Hnin) in He; discriminate].
    apply list_elem_of_split_r in Hin as (a & s & -> & Hs).
    rewrite (Hdot a s eq_refl Hs) in He, Hext.
    case_bool_decide as Hcase; [discriminate|].
    destruct a as [|x a _] using rev_ind; [exfalso; apply Hcase; auto|].
    exists (pre ++ a), x, (CHAR_DOT :: s), sl. split; [|split; [|split]].
    + rewrite Hname, <- !app_assoc. reflexivity.
    + set_solver.
    + exact Hext.
    + exact Hsl.
  - intros (Hmime & pre & x & e & sl & Hname & Hx & Hext & Hsl).
    split; [|exact Hmime].
    destruct (allowed_extension_shape _ _ Hext) as (s & -> & Hne & Hd & Hs).
    destruct (segment_split pre) as (pre0 & u & -> & Hu & Hpre0).
    destruct (extname_segment pre0 (u ++ [x] ++ CHAR_DOT :: s) sl Hpre0)
      as [_ Hdot]; [destruct u; discriminate|set_solver|exact Hsl|].
    specialize (Hdot (u ++ [x]) s ltac:(rewrite <- !app_assoc; reflexivity) Hd).
    rewrite bool_decide_eq_false_2 in Hdot
      by (intros [H|[_ H]]; [destruct u; discriminate|contradiction]).
    rewrite Hname.
    replace ((pre0 ++ u) ++ [x] ++ (CHAR_DOT :: s) ++ sl)
      with (pre0 ++ (u ++ [x] ++ CHAR_DOT :: s) ++ sl)
      by (rewrite <- !app_assoc; reflexivity).
    rewrite Hdot. exact Hext.
Qed.

(** ** The names of the stored files *)
Lemma nth_no_slash (path : jsstring) i :
  CHAR_FORWARD_SLASH ∉ path -> nth i path 0 <> CHAR_FORWARD_SLASH.
Proof.
  intros Hno Heq. destruct (Nat.lt_ge_cases i (length path)) as [Hlt|Hge].
  - apply Hno. rewrite <- Heq. apply list_elem_of_In, nth_In. exact Hlt.
  - rewrite nth_overflow in Heq by exact Hge. discriminate.
Qed.

(** Without a slash in the path, the loop without a suffix keeps the end
    it has found. *)
Lemma basename_scan_rest path n : forall st,
  CHAR_FORWARD_SLASH ∉ path -> end_ st <> -1 ->
  basename_scan path n st = st.
Proof.
  induction n as [|i IH]; intros st Hno He; [reflexivity|].
  cbn [basename_scan].
  destruct (Z.eqb_spec (nth i path 0) CHAR_FORWARD_SLASH) as [H|_];
    [destruct (nth_no_slash path i Hno H)|].
  destruct (Z.eqb_spec (end_ st) (-1)); [contradiction|].
  apply IH; assumption.
Qed.

Lemma basename_no_suffix path :
  CHAR_FORWARD_SLASH ∉ path -> basename path [] = path.
Proof.
  intros Hno. unfold basename. cbn [length Nat.ltb Nat.leb andb].
  destruct path as [|c path _] using rev_ind; [reflexivity|].
  rewrite length_app. cbn [length].
  replace (length path + 1)%nat with (Datatypes.S (length path)) by lia.
  cbn [basename_scan]. rewrite nth_at.
  destruct (Z.eqb_spec c CHAR_FORWARD_SLASH) as [->|_]; [set_solver|].
  cbn [end_]. rewrite Z.eqb_refl.
  rewrite basename_scan_rest by (cbn; (assumption || lia)).
  cbn [end_ start_].
  destruct (Z.eqb_spec (Z.of_nat (length path) + 1) (-1)); [lia|].
  unfold slice. cbn [Z.to_nat drop].
  replace (Z.to_nat (Z.of_nat (length path) + 1 - 0)) with (length (path ++ [c]))
    by (rewrite length_app; cbn; lia).
  apply firstn_all.
Qed.

(** Once the suffix is matched, and without a slash in the path, the
    loop that matches the suffix changes nothing. *)
Lemma basename_suffix_scan_rest path suffix n : forall st,
  CHAR_FORWARD_SLASH ∉ path -> extIdx st = -1 -> firstNonSlashEnd st <> -1 ->
  basename_suffix_scan path suffix n st = st.
Proof.
  induction n as [|i IH]; intros st Hno He Hf; [reflexivity|].
  cbn [basename_suffix_scan].
  destruct (Z.eqb_spec (nth i path 0) CHAR_FORWARD_SLASH) as [H|_];
    [destruct (nth_no_slash path i Hno H)|].
  destruct (Z.eqb_spec (firstNonSlashEnd st) (-1)); [contradiction|].
  rewrite He. change (0 <=? -1) with false. cbn iota. apply IH; assumption.
Qed.

(** The state of the loop when it has matched the last [k] characters
    of the suffix, of [n] characters, at the end of a path of [len]
    characters without slashes *)
Lemma basename_suffix_scan_match a sfx k :
  CHAR_FORWARD_SLASH ∉ a ++ sfx ->
  (1 <= k <= length sfx)%nat ->
  basename_suffix_scan (a ++ sfx) sfx (length (a ++ sfx))
    {| start_ := 0; end_ := -1; matched := true;
       extIdx := Z.of_nat (length sfx) - 1; firstNonSlashEnd := -1 |}
  = basename_suffix_scan (a ++ sfx) sfx (length (a ++ sfx) - k)
      {| start_ := 0;
         end_ := if (k =? length sfx)%nat then Z.of_nat (length a) else -1;
         matched := false;
         extIdx := Z.of_nat (length sfx) - 1 - Z.of_nat k;
         firstNonSlashEnd := Z.of_nat (length (a ++ sfx)) |}.
Proof.
  intros Hno Hk. induction k as [|k IH]; [lia|].
  assert (forall j, (j < length sfx)%nat ->
            nth (length a + j) (a ++ sfx) 0 = nth j sfx 0) as Hnth.
  { intros j _. apply app_nth2_plus. }
  destruct (decide (k = 0)%nat) as [->|Hk0].
  - clear IH. rewrite length_app.
    replace (length a + length sfx)%nat
      with (Datatypes.S (length a + (length sfx - 1))) at 1 by lia.
    cbn [basename_suffix_scan].
    rewrite Hnth by lia.
    destruct (Z.eqb_spec (nth (length sfx - 1) sfx 0) CHAR_FORWARD_SLASH) as [H|_].
    { exfalso. apply (nth_no_slash (a ++ sfx) (length a + (length sfx - 1)) Hno).
      rewrite Hnth by lia. exact H. }
    cbn [firstNonSlashEnd]. change (-1 =? -1) with true. cbn iota.
    cbn [firstNonSlashEnd extIdx start_ end_ matched].
    destruct (Z.leb_spec 0 (Z.of_nat (length sfx) - 1)); [|lia].
    replace (Z.to_nat (Z.of_nat (length sfx) - 1)) with (length sfx - 1)%nat by lia.
    rewrite Z.eqb_refl.
    replace (length a + length sfx - 1)%nat with (length a + (length sfx - 1))%nat
      by lia.
    destruct (Z.eqb_spec (Z.of_nat (length sfx) - 1 - 1) (-1)) as [H1|H1];
      destruct (Nat.eqb_spec 1 (length sfx)) as [H2|H2]; try lia;
      (f_equal; try lia; f_equal; lia).
  - rewrite IH by lia. clear IH. rewrite length_app.
    replace (length a + length sfx - k)%nat
      with (Datatypes.S (length a + (length sfx - Datatypes.S k))) by lia.
    cbn [basename_suffix_scan].
    rewrite Hnth by lia.
    destruct (Z.eqb_spec (nth (length sfx - Datatypes.S k) sfx 0) CHAR_FORWARD_SLASH)
      as [H|_].
    { exfalso.
      apply (nth_no_slash (a ++ sfx) (length a + (length sfx - Datatypes.S k)) Hno).
      rewrite Hnth by lia. exact H. }
    cbn [firstNonSlashEnd].
    destruct (Z.eqb_spec (Z.of_nat (length a + length sfx)) (-1)); [lia|].
    cbn [firstNonSlashEnd extIdx start_ end_ matched].
    destruct (Z.leb_spec 0 (Z.of_nat (length sfx) - 1 - Z.of_nat k)); [|lia].
    replace (Z.to_nat (Z.of_nat (length sfx) - 1 - Z.of_nat k))
      with (length sfx - Datatypes.S k)%nat by lia.
    rewrite Z.eqb_refl.
    replace (length a + length sfx - Datatypes.S k)%nat
      with (length a + (length sfx - Datatypes.S k))%nat by lia.
    destruct (Nat.eqb_spec k (length sfx)); [lia|].
    destruct (Z.eqb_spec (Z.of_nat (length sfx) - 1 - Z.of_nat k - 1) (-1)) as [H1|H1];
      destruct (Nat.eqb_spec (Datatypes.S k) (length sfx)) as [H2|H2]; try lia;
      (f_equal; try lia; f_equal; lia).
Qed.

(** [path.basename] takes the suffix off a path without slashes. *)
Lemma basename_strips a sfx :
  CHAR_FORWARD_SLASH ∉ a ++ sfx -> basename (a ++ sfx) sfx = a.
Proof.
  intros Hno.
  destruct sfx as [|c sfx].
  { rewrite app_nil_r in *. apply basename_no_suffix. exact Hno. }
  destruct a as [|x a].
  { unfold basename. cbn [app length].
    rewrite (proj2 (Nat.ltb_lt _ _)) by lia.
    rewrite (proj2 (Nat.leb_le _ _)) by lia.
    cbn [andb]. rewrite bool_decide_eq_true_2 by reflexivity. reflexivity. }
  unfold basename.
  rewrite (proj2 (Nat.ltb_lt _ _)) by (cbn; lia).
  rewrite (proj2 (Nat.leb_le _ _)) by (rewrite length_app; lia).
  cbn [andb].
  rewrite bool_decide_eq_false_2.
  2:{ intros H. apply (f_equal length) in H. rewrite length_app in H.
      cbn in H. lia. }
  cbv zeta.
  rewrite (basename_suffix_scan_match (x :: a) (c :: sfx) (length (c :: sfx)) Hno)
    by (cbn; lia).
  rewrite Nat.eqb_refl.
  rewrite basename_suffix_scan_rest by (cbn [extIdx firstNonSlashEnd]; (assumption || lia)).
  cbn [start_ end_ firstNonSlashEnd].
  destruct (Z.eqb_spec 0 (Z.of_nat (length (x :: a)))); [cbn in *; lia|].
  destruct (Z.eqb_spec (Z.of_nat (length (x :: a))) (-1)); [lia|].
  unfold slice. cbn [Z.to_nat drop]. rewrite Z.sub_0_r, Nat2Z.id.
  apply take_app_length.
Qed.

Lemma js_String a s : js (String a s) = Z.of_N (N_of_ascii a) :: js s.
Proof. reflexivity. Qed.

Lemma pretty_N_char_digit x : 48 <= Z.of_N (N_of_ascii (pretty_N_char x)) <= 57.
Proof. unfold pretty_N_char. repeat case_match; cbn; lia. Qed.

Lemma pretty_N_go_digits x : forall s,
  exists t, js (pretty_N_go x s) = t ++ js s
            /\ Forall (fun c => 48 <= c <= 57) t.
Proof.
  induction (N.lt_wf_0 x) as [x _ IH]. intros s.
  destruct (decide (x = 0)%N) as [->|Hx].
  - exists []. rewrite pretty_N_go_0. split; [reflexivity|constructor].
  - rewrite pretty_N_go_step by lia.
    destruct (IH (x `div` 10)%N ltac:(apply N.div_lt; lia)
                 (String (pretty_N_char (x `mod` 10)) s)) as (t & Ht & Hd).
    rewrite Ht, js_String.
    exists (t ++ [Z.of_N (N_of_ascii (pretty_N_char (x `mod` 10)))]).
    rewrite <- app_assoc. split; [reflexivity|].
    apply Forall_app. split; [exact Hd|].
    constructor; [apply pretty_N_char_digit|constructor].
Qed.

(** A number in decimal ends with a digit. *)
Lemma pretty_N_ends_with_a_digit (n : N) :
  exists t d, js (pretty n) = t ++ [d] /\ 48 <= d <= 57.
Proof.
  unfold pretty, pretty_N. destruct (decide (n = 0)%N) as [->|Hn].
  - exists [], 48. split; [reflexivity|lia].
  - rewrite pretty_N_go_step by lia.
    destruct (pretty_N_go_digits (n `div` 10)%N
                (String (pretty_N_char (n `mod` 10)) EmptyString)) as (t & Ht & _).
    rewrite Ht, js_String. eexists _, _. split; [reflexivity|].
    apply pretty_N_char_digit.
Qed.

(** The extension [path.extname] gives is empty, or a dot and characters
    that are neither dots nor slashes. *)
Lemma extname_shape path :
  extname path = []
  \/ exists s, extname path = CHAR_DOT :: s
               /\ (CHAR_DOT ∉ s) /\ (CHAR_FORWARD_SLASH ∉ s).
Proof.
  destruct (last_segment_exists path)
    as [Hall|(pre & seg & sl & -> & Hpre & Hseg & Hno & Hsl)].
  { left. apply extname_of_slashes. exact Hall. }
  destruct (extname_segment pre seg sl Hpre Hseg Hno Hsl) as [Hnodot Hdot].
  destruct (decide (CHAR_DOT ∈ seg)) as [Hin|Hnin]; [|left; auto].
  apply list_elem_of_split_r in Hin as (a & s & -> & Hs).
  rewrite (Hdot a s eq_refl Hs). case_bool_decide; [left; reflexivity|].
  right. exists s. split; [reflexivity|]. split; [exact Hs|set_solver].
Qed.

(** X14: the disk storage gives a stored file the extension of the original
    name, when the original name has one (as a name the filter accepts has). *)
Theorem a_stored_file_keeps_its_extension dateNow random f :
  extname (originalname f) <> [] ->
  extname (storage_filename dateNow random f) = extname (originalname f).
Proof.
  intros Hext. unfold storage_filename. cbv zeta.
  destruct (extname_shape (originalname f)) as [H|(s & Hs & Hd & Hsl)];
    [contradiction|].
  rewrite Hs.
  destruct (pretty_N_ends_with_a_digit random) as (t & d & -> & Hdig).
  set (stem := basename (originalname f) (CHAR_DOT :: s)).
  destruct (segment_split (stem ++ js "-" ++ js (pretty dateNow) ++ js "-" ++ t))
    as (pre & u & Hsplit & Hu & Hpre).
  replace (stem ++ js "-" ++ (js (pretty dateNow) ++ js "-" ++ t ++ [d])
                ++ CHAR_DOT :: s)
    with (pre ++ (u ++ [d] ++ CHAR_DOT :: s) ++ []).
  2:{ rewrite app_nil_r, (app_assoc pre u), <- Hsplit, <- !app_assoc.
      reflexivity. }
  destruct (extname_segment pre (u ++ [d] ++ CHAR_DOT :: s) [] Hpre) as [_ Hdot].
  - destruct u; discriminate.
  - rewrite !not_elem_of_app. repeat split; auto.
    + intros H. apply list_elem_of_singleton in H. unfold CHAR_FORWARD_SLASH in H. lia.
    + rewrite not_elem_of_cons. split; [discriminate|exact Hsl].
  - constructor.
  - rewrite (Hdot (u ++ [d]) s ltac:(rewrite <- !app_assoc; reflexivity) Hd).
    rewrite bool_decide_eq_false_2; [reflexivity|].
    intros [H|[H _]].
    + destruct u; discriminate.
    + destruct u as [|? [|? ?]]; try discriminate.
      injection H as ->. unfold CHAR_DOT in Hdig. lia.
Qed.

(** X15: when the original name has no slash, the stored file is named after
    it, with [-], the time in milliseconds, [-] and the random number put
    before its extension, or at its end when it has no extension. *)
Theorem the_name_of_a_stored_file dateNow random f :
  CHAR_FORWARD_SLASH ∉ originalname f ->
  exists stem,
    originalname f = stem ++ extname (originalname f)
    /\ storage_filename dateNow random f
       = stem ++ js "-" ++ js (pretty dateNow) ++ js "-" ++ js (pretty random)
              ++ extname (originalname f).
Proof.
  intros Hno.
  assert (exists stem, originalname f = stem ++ extname (originalname f))
    as [stem Hstem].
  { destruct (originalname f) as [|c name] eqn:Hname; [exists []; reflexivity|].
    rewrite <- Hname in *.
    destruct (extname_segment [] (originalname f) [] (or_introl eq_refl))
      as [Hnodot Hdot]; [rewrite Hname; discriminate|exact Hno|constructor|].
    cbn [app] in Hnodot, Hdot. rewrite app_nil_r in Hnodot, Hdot.
    destruct (decide (CHAR_DOT ∈ originalname f)) as [Hin|Hnin].
    - apply list_elem_of_split_r in Hin as (a & s & Heq & Hs).
      rewrite (Hdot a s Heq Hs). case_bool_decide.
      + exists (originalname f). rewrite app_nil_r. reflexivity.
      + exists a. exact Heq.
    - rewrite (Hnodot Hnin). exists (originalname f). rewrite app_nil_r. reflexivity. }
  exists stem. split; [exact Hstem|].
  unfold storage_filename. cbv zeta.
  rewrite Hstem at 1. rewrite basename_strips by (rewrite <- Hstem; exact Hno).
  rewrite <- !app_assoc. reflexivity.
Qed.

Example a_stored_pdf :
  storage_filename 1700000000000 42 a_pdf = js "notes-1700000000000-42.pdf".
Proof. vm_compute. reflexivity. Qed.

(** ** The files an upload leaves alone *)

Section UploadFrame.

Context (B : Builtins) {S : Type} (send : UpRequest -> S -> AxiosResult * S)
        (late : File -> bool).
Implicit Types w : World S.

(** multer touches no file but those it stores: a file of the upload
    directory that has the path of none of them is still there when
    multer is done, whether it hands files to the handler or passes an
    error on; and the files it hands over are among the parts. *)
Lemma multer_parts_frame name p parts : forall seen filesLeft stored w o w',
  multer_parts B late name parts seen filesLeft stored w = (o, w') ->
  p ∈ disk w -> p ∉ paths stored -> p ∉ paths parts ->
  p ∈ disk w'
  /\ forall files, o = Return files -> p ∉ paths files.
Proof.
  induction parts as [|part rest IH]; intros seen filesLeft stored w o w' H Hp Hst Hpa;
    cbn [multer_parts] in H.
  - injection H as <- <-. split; [exact Hp|]. intros files [= <-]. exact Hst.
  - rewrite paths_cons in Hpa.
    assert (forall stored' staged e w1,
              abort (A := list File) stored' staged e w1 = (o, w') ->
              p ∈ disk w1 -> p ∉ paths stored' ->
              p ∈ disk w' /\ forall files, o = Return files -> p ∉ paths files)
      as Habort.
    { intros stored' staged e w1 He Hp1 Hst1.
      destruct (abort_spec (A := list File) stored' staged e w1)
        as (w2 & H2 & _ & Hd). rewrite H2 in He. injection He as <- <-.
      split; [|discriminate]. rewrite Hd. unfold removed.
      apply elem_of_union_r, elem_of_difference. split; [exact Hp1|].
      intros Hx. apply elem_of_difference in Hx as [Hx _]. contradiction. }
    destruct (negb (is_file_part part));
      [destruct (_ <=? _); [eauto|eapply IH; eauto; set_solver]|].
    destruct (bool_decide (seen = MAX_FILES)); [eauto|]. cbn zeta in H.
    destruct (bool_decide (originalname (received part) = []));
      [eapply IH; eauto; set_solver|].
    destruct (negb _ || _); [eauto|].
    destruct (fileFilter B (received part)) as [e|[|]];
      [eauto| |eapply IH; eauto; set_solver].
    unfold bind at 1 in H. unfold store at 1 in H.
    destruct (MAX_FILE_SIZE <=? size (received part)).
    + eapply Habort; [exact H| |].
      * cbn. set_solver.
      * rewrite paths_snoc. cbn [received path_]. set_solver.
    + eapply IH; [exact H| | |].
      * cbn. set_solver.
      * rewrite paths_snoc. cbn [received path_]. set_solver.
      * set_solver.
Qed.

(** X16: [POST /brains/:id/documents] removes no file but the ones it has
    stored: a file that was in the upload directory before the request, at
    the path of none of the parts, is there after it, whether the upload is
    refused, fails or succeeds. *)
Theorem an_upload_leaves_the_other_files_alone id parts w p :
  p ∈ disk w -> p ∉ paths parts ->
  p ∈ disk (route (post_documents B send late id parts) w).2.
Proof.
  intros Hp Hpa.
  assert (forall o w', post_documents B send late id parts w = (o, w') -> p ∈ disk w')
    as Hpost.
  { intros o w' H. unfold post_documents, upload_array in H.
    unfold bind at 1 in H.
    destruct (multer_parts B late (js "files") parts 0 20 [] w)
      as [[files|e] w1] eqn:Hm.
    - destruct (multer_parts_frame _ p _ _ _ _ _ _ _ Hm Hp) as [Hp1 Hfiles];
        [set_solver|exact Hpa|].
      specialize (Hfiles files eq_refl).
      destruct files as [|file files].
      + injection H as <- <-. exact Hp1.
      + destruct (upload_handler_spec B send id file files w1)
          as (o1 & w2 & H2 & _ & _ & _ & Hd & _).
        rewrite H2 in H. injection H as <- <-. rewrite Hd.
        unfold removed. set_solver.
    - injection H as <- <-.
      exact (proj1 (multer_parts_frame _ p _ _ _ _ _ _ _ Hm Hp
                      ltac:(set_solver) Hpa)). }
  pose proof (route_spec (post_documents B send late id parts) w) as Hr.
  destruct (post_documents B send late id parts w) as [[r|e] w'] eqn:Hpd.
  - rewrite Hr. cbn [snd]. eapply Hpost. reflexivity.
  - destruct Hr as (r & w'' & -> & _ & _ & Hd). cbn [snd]. rewrite Hd.
    eapply Hpost. reflexivity.
Qed.

End UploadFrame.

(** ** Names that cannot be encoded *)

(** [encodeURIComponent] throws on every string with an unpaired
    surrogate. *)
Lemma encode_ill_formed n : forall s,
  (length s <= n)%nat ->
  Forall (fun c => 0 <= c < 0x10000) s ->
  isWellFormed s = false ->
  encodeURIComponent s = None.
Proof.
  induction n as [|n IH]; intros s Hlen Hall Hwf.
  { destruct s; [discriminate|cbn in Hlen; lia]. }
  destruct s as [|c rest]; [discriminate|].
  apply Forall_cons in Hall as [Hc Hall]. cbn [length] in Hlen.
  cbn [isWellFormed] in Hwf. cbn [encodeURIComponent].
  destruct (uriUnreserved c) eqn:Hu.
  - apply uriUnreserved_ascii in Hu.
    assert (is_lead c = false) as Hl
      by (unfold is_lead; apply andb_false_iff; left; apply Z.leb_gt; lia).
    assert (is_trail c = false) as Ht
      by (unfold is_trail; apply andb_false_iff; left; apply Z.leb_gt; lia).
    rewrite Hl, Ht in Hwf.
    rewrite (proj2 (Z.leb_le 0 c)), (proj2 (Z.ltb_lt c 0x10000)) in Hwf by lia.
    cbn [andb negb] in Hwf. rewrite (IH rest) by (assumption || lia). reflexivity.
  - destruct (is_trail c) eqn:Ht; [reflexivity|].
    destruct (is_lead c) eqn:Hl.
    + destruct rest as [|d rest']; [reflexivity|].
      destruct (is_trail d); [|reflexivity]. cbn [andb] in Hwf.
      apply Forall_cons in Hall as [_ Hall]. cbn [length] in Hlen.
      rewrite (IH rest') by (assumption || lia). reflexivity.
    + rewrite (proj2 (Z.leb_le 0 c)), (proj2 (Z.ltb_lt c 0x10000)) in Hwf by lia.
      cbn [andb negb] in Hwf. rewrite (IH rest) by (assumption || lia). reflexivity.
Qed.

Section IllFormedNames.

Context (B : Builtins) {S : Type} (send : UpRequest -> S -> AxiosResult * S).
Implicit Types w : World S.

(** X17: a document name with an unpaired surrogate cannot be put in a path:
    [getDocument] and [deleteDocument] throw the [URIError] of
    [encodeURIComponent] for it, and send nothing: the world is as it
    was. *)
Theorem a_name_that_is_not_well_formed_is_not_sent id name w :
  Forall (fun c => 0 <= c < 0x10000) name ->
  isWellFormed name = false ->
  getDocument B send id name w = (Throw (Error (js "URI malformed")), w)
  /\ deleteDocument B send id name w = (Throw (Error (js "URI malformed")), w).
Proof.
  intros Hall Hwf.
  pose proof (encode_ill_formed _ name (le_n _) Hall Hwf) as He.
  unfold getDocument, deleteDocument, document_path. rewrite He.
  split; reflexivity.
Qed.

End IllFormedNames.

(** ** The issues of a refused request *)

Lemma checked_inl {T} issues (v : T) i :
  checked issues v = inl i -> i = issues /\ issues <> [].
Proof. destruct issues; [discriminate|]. intros [= <-]. split; [reflexivity|discriminate]. Qed.

Lemma string_check_in_place p s c : Forall (fun i => path i = p) (string_check p s c).
Proof. destruct c; cbn; destruct (_ : bool); repeat constructor. Qed.

Lemma number_check_in_place p x c : Forall (fun i => path i = p) (number_check p x c).
Proof. destruct c; cbn; destruct (_ : bool); repeat constructor. Qed.

Lemma Forall_flat_map {A C} (P : C -> Prop) (f : A -> list C) xs :
  (forall x, Forall P (f x)) -> Forall P (flat_map f xs).
Proof.
  intros H. induction xs; cbn [flat_map]; [constructor|].
  apply Forall_app. auto.
Qed.

Lemma z_string_reports_in_place checks : reports_in_place (z_string checks).
Proof.
  intros p input issues H. unfold z_string in H.
  destruct input as [[| | |s| |]|];
    try (injection H as <-; split; [discriminate|repeat constructor]).
  apply checked_inl in H as [-> Hne]. split; [exact Hne|].
  apply Forall_flat_map. intros c. apply string_check_in_place.
Qed.

Lemma z_number_reports_in_place checks : reports_in_place (z_number checks).
Proof.
  intros p input issues H. unfold z_number in H.
  destruct input as [[| |x| | |]|];
    try (injection H as <-; split; [discriminate|repeat constructor]).
  apply checked_inl in H as [-> Hne]. split; [exact Hne|].
  apply Forall_flat_map. intros c. apply number_check_in_place.
Qed.

Lemma z_enum_reports_in_place values : reports_in_place (z_enum values).
Proof.
  intros p input issues H. unfold z_enum in H.
  destruct input as [[| | |s| |]|];
    try (injection H as <-; split; [discriminate|repeat constructor]).
  destruct (includes values s); [discriminate|].
  injection H as <-. split; [discriminate|repeat constructor].
Qed.

Lemma optional_reports_in_place {T} (inner : Schema T) :
  reports_in_place inner -> reports_in_place (optional inner).
Proof.
  intros Hin p input issues H. unfold optional in H.
  destruct input; [|discriminate].
  destruct (inner p (Some j)) eqn:Hi; [|discriminate].
  injection H as <-. exact (Hin _ _ _ Hi).
Qed.

Lemma default_reports_in_place {T} (inner : Schema T) d :
  reports_in_place inner -> reports_in_place (default_ inner d).
Proof.
  intros Hin p input issues H. unfold default_ in H.
  destruct input; [|discriminate]. exact (Hin _ _ _ H).
Qed.

Lemma field_located {T} keys key (inner : Schema T) o issues :
  reports_in_place inner -> key ∈ keys ->
  field key inner [] o = inl issues ->
  issues <> [] /\ Forall (located keys) issues.
Proof.
  intros Hin Hk H. unfold field in H. destruct (Hin _ _ _ H) as [Hne Hall].
  split; [exact Hne|]. eapply Forall_impl; [exact Hall|].
  intros i Hi. right. exists key. auto.
Qed.

Lemma zap_located {A C} keys (f : Parsed (A -> C)) x issues :
  (forall i, f = inl i -> i <> [] /\ Forall (located keys) i) ->
  (forall i, x = inl i -> i <> [] /\ Forall (located keys) i) ->
  f <*z> x = inl issues ->
  issues <> [] /\ Forall (located keys) issues.
Proof.
  intros Hf Hx H. destruct f as [i|g], x as [j|a]; cbn in H; try discriminate;
    injection H as <-; auto.
  destruct (Hf i eq_refl) as [Hi Hai], (Hx j eq_refl) as [Hj Haj].
  split; [destruct i; [contradiction|discriminate]|].
  apply Forall_app. auto.
Qed.

Lemma zmap_located {A C} keys (f : A -> C) x issues :
  (forall i, x = inl i -> i <> [] /\ Forall (located keys) i) ->
  f <$z> x = inl issues ->
  issues <> [] /\ Forall (located keys) issues.
Proof. intros Hx H. destruct x; cbn in H; [|discriminate]. injection H as <-. auto. Qed.

Ltac locate_issues :=
  repeat match goal with
  | |- (_ <*z> _ = inl _ -> _) => apply zap_located; intros ?
  | |- (_ <$z> _ = inl _ -> _) => apply zmap_located; intros ?
  | |- (field _ _ _ _ = inl _ -> _) => apply field_located; [|set_solver]
  | |- reports_in_place (default_ _ _) => apply default_reports_in_place
  | |- reports_in_place (optional _) => apply optional_reports_in_place
  | |- reports_in_place (z_string _) => apply z_string_reports_in_place
  | |- reports_in_place (z_number _) => apply z_number_reports_in_place
  | |- reports_in_place (z_enum _) => apply z_enum_reports_in_place
  end.

(** X18: a request that fails validation is told why: the [ZodError] has at
    least one issue, and each issue is about the body as a whole (when it is
    not an object) or about one of the keys of the schema. *)
Theorem a_refused_request_is_told_why body issues :
  (parse BrainCreateSchema body = inl issues ->
   issues <> []
   /\ Forall (located ["name"; "description"; "llm_provider"; "model"]%string) issues)
  /\ (parse QueryRequestSchema body = inl issues ->
      issues <> []
      /\ Forall (located ["question"; "max_tokens"; "temperature"]%string) issues).
Proof.
  split; intros H; unfold parse, BrainCreateSchema, QueryRequestSchema, z_object in H;
    (destruct body as [[| | | | |o]|];
     try (injection H as <-; split; [discriminate|];
          constructor; [left; reflexivity|constructor])).
  - revert H. locate_issues.
  - revert H. locate_issues.
Qed.

(** ** The health check and the cleanup, in full *)

Section HealthAndCleanup.

Context (B : Builtins) {S : Type} (send : UpRequest -> S -> AxiosResult * S).
Implicit Types w : World S.

(** X19: [GET /health] makes one request to the service, the health check,
    and touches neither the upload directory nor the console. When the check
    fails, the answer carries the message of the failure: that of the
    rejected request, or that of the [ZodError] when the report of the
    service does not fit [HealthResponseSchema]. *)
Theorem the_health_check_makes_one_request w :
  (route (get_health B send) w).2
  = answered health_request (send health_request (svc w)).2 w
  /\ body_prop "timestamp" (route (get_health B send) w).1 = Some (JStr (clock w))
  /\ (forall error s',
         send health_request (svc w) = (inl error, s') ->
         body_prop "error" (route (get_health B send) w).1
         = Some (JStr (error_message B (onRejected B error))))
  /\ (forall data s' issues,
         send health_request (svc w) = (inr data, s') ->
         parse (HealthResponseSchema B) (Some data) = inl issues ->
         body_prop "error" (route (get_health B send) w).1
         = Some (JStr (zod_message B issues))).
Proof.
  unfold route, asyncHandler, get_health, try_catch, health, bind, request,
    parse_or_throw, now.
  fold health_request.
  destruct (send health_request (svc w)) as [[err|data] s'].
  - repeat split; try reflexivity.
    + intros error s'' [= <- <-]. reflexivity.
    + intros data s'' issues [=].
  - destruct (parse (HealthResponseSchema B) (Some data)) as [issues|report] eqn:Hp.
    + repeat split; try reflexivity.
      * intros error s'' [=].
      * intros data' s'' issues' [= <- <-] Hp'. rewrite Hp in Hp'.
        injection Hp' as <-. reflexivity.
    + repeat split; try reflexivity.
      * intros error s'' [=].
      * intros data' s'' issues' [= <- <-] Hp'. rewrite Hp in Hp'. discriminate.
Qed.

Lemma cleanup_failures_after (file : File) files w w' :
  busy w' = busy w ->
  disk w' = disk w ∖ ({[path_ file]} ∖ busy w) ->
  cleanup_failures files w' = cleanup_failures files w.
Proof.
  intros Hb Hd. unfold cleanup_failures. apply list_filter_iff.
  intros f. rewrite Hb, Hd. set_solver.
Qed.

(** X20: [cleanupFiles] does not throw; it logs one line for each file that
    is on the disk and cannot be removed, in the order of the files, and
    nothing for a file that is not on the disk (any more). It removes the
    other files, and leaves the service alone. *)
Theorem a_cleanup_logs_each_failure files : forall w,
  exists w',
    cleanupFiles files w = (Return tt, w')
    /\ console w' = rev (cleanup_line <$> cleanup_failures files w) ++ console w
    /\ disk w' = removed files w (disk w)
    /\ same_service w w'.
Proof.
  induction files as [|file files IH]; intros w.
  - exists w. split; [reflexivity|]. split; [reflexivity|].
    split; [unfold removed, paths; set_solver|apply same_service_refl].
  - assert (exists w1,
      try_catch
        (present <- existsSync (path_ file) ;;
         if present : bool then unlinkSync (path_ file) else ret tt)
        (fun error =>
           console_error (js "Failed to cleanup file " ++ path_ file ++ js ":")) w
      = (Return tt, w1)
      /\ console w1 = rev (cleanup_line <$> cleanup_failures [file] w) ++ console w
      /\ disk w1 = disk w ∖ ({[path_ file]} ∖ busy w)
      /\ same_service w w1) as (w1 & H1 & Hc1 & Hd1 & Hs1).
    { unfold try_catch, bind, existsSync, unlinkSync, ret, console_error,
        cleanup_failures.
      destruct (decide (path_ file ∈ disk w)) as [Hd|Hd].
      - rewrite !(bool_decide_eq_true_2 _ Hd).
        destruct (decide (path_ file ∈ busy w)) as [Hb|Hb].
        + rewrite (bool_decide_eq_true_2 _ Hb).
          eexists. split; [reflexivity|].
          rewrite filter_cons_True by auto.
          split; [reflexivity|]. split; [cbn; set_solver|repeat split].
        + rewrite (bool_decide_eq_false_2 _ Hb).
          eexists. split; [reflexivity|].
          rewrite filter_cons_False by tauto.
          split; [reflexivity|]. split; [cbn; set_solver|repeat split].
      - rewrite (bool_decide_eq_false_2 _ Hd).
        eexists. split; [reflexivity|].
        rewrite filter_cons_False by tauto.
        split; [reflexivity|]. split; [set_solver|repeat split]. }
    destruct (IH w1) as (w2 & H2 & Hc2 & Hd2 & Hs2).
    exists w2. split; [|split; [|split]].
    + unfold cleanupFiles. cbn [forEach]. unfold bind at 1. rewrite H1. exact H2.
    + rewrite Hc2, Hc1.
      destruct Hs1 as (_ & _ & Hb1 & _).
      rewrite (cleanup_failures_after file files w w1 Hb1 Hd1).
      unfold cleanup_failures. change (file :: files) with ([file] ++ files).
      rewrite filter_app, fmap_app, rev_app_distr, <- app_assoc. reflexivity.
    + rewrite Hd2, Hd1. destruct Hs1 as (_ & _ & Hb1 & _).
      unfold removed. rewrite Hb1, paths_cons.
      apply set_eq. intros x. destruct (decide (x ∈ busy w)); set_solver.
    + eapply same_service_trans; eauto.
Qed.

End HealthAndCleanup.

(** ** The properties above, on examples *)

(** X1, witness: the reply about a brain is not a list of brains: [GET
    /brains] answers 400. *)
Lemma a_listing_that_is_no_list_is_answered_400 :
  exists issues,
    route (get_brains a_host a_registry) (a_world tt)
    = (validation_error_response issues,
       answered (bare_request GET (js "/brains")) tt (a_world tt)).
Proof.
  eexists.
  eapply (proj1 (a_reply_that_fails_its_schema_is_answered_400
                  a_host a_registry (a_world tt))); reflexivity.
Defined.

(** X2, witness: the service accepts the creation and replies with a
    message: the request has been made, and [POST /brains] answers 400. *)
Lemma a_creation_with_a_strange_reply_is_answered_400 :
  exists issues,
    route (post_brain a_host agreeable_service
             (Some (JObj [(js "name", JStr (js "Docs"))]))) (a_world tt)
    = (validation_error_response issues,
       answered (create_request docs_brain) tt (a_world tt)).
Proof.
  eexists.
  eapply (proj1 (a_write_whose_reply_fails_its_schema_is_answered_400
                  a_host agreeable_service (a_world tt))); reflexivity.
Defined.

(** X3, witness: the key [owner] of the service's reply is not in the answer
    of [GET /brains/:id]. *)
Lemma a_brain_is_answered_without_the_other_keys :
  route (get_brain a_host a_registry (js "b1")) (a_world tt)
  = ({| status := 200; body := Some (BrainResponse_json a_brain) |},
     answered (bare_request GET (js "/brains/b1")) tt (a_world tt))
  /\ parse (BrainResponseSchema a_host) (Some (BrainResponse_json a_brain))
     = inr a_brain.
Proof.
  destruct (the_answers_fit_the_schemas_of_the_replies
              a_host a_registry (a_world tt)) as (_ & Hbrain & _).
  apply (Hbrain (js "b1") a_brain_reply tt a_brain); reflexivity.
Defined.

(** A document whose size is infinite is answered with the size [null],
    and that answer does not fit the schema of the reply. *)
Example an_infinite_size_is_answered_null :
  (route (get_document a_host a_service_with_a_huge_document (js "b1") (js "a.pdf"))
         (a_world tt)).1
  = {| status := 200;
       body := Some (JObj [(js "name", JStr (js "a.pdf"));
                           (js "size", JNull);
                           (js "created_at", JStr (js "2024-01-20T10:00:00Z"));
                           (js "modified_at", JStr (js "2024-01-20T10:00:00Z"));
                           (js "path", JStr (js "/data/a.pdf"))]) |}
  /\ parse (DocumentMetadataSchema a_host)
        (body (route (get_document a_host a_service_with_a_huge_document
                        (js "b1") (js "a.pdf"))
                     (a_world tt)).1)
     = inl [issue invalid_type [Key (js "size")]].
Proof. split; vm_compute; reflexivity. Qed.

(** X4, witness: the 404 of the service and its body are those of the
    answer. *)
Lemma a_404_and_its_body_are_relayed :
  route (get_brain a_host an_empty_registry (js "b2")) (a_world tt)
  = ({| status := 404;
        body := Some (JObj [(js "error", JStr (js "Brain not found"));
                            (js "details",
                             JObj [(js "detail", JStr (js "Brain not found"))])]) |},
     answered (bare_request GET (js "/brains/b2")) tt (a_world tt)).
Proof.
  destruct (an_error_of_the_service_is_relayed_whole
              a_host an_empty_registry (a_world tt)) as (_ & Hbrain & _).
  exact (Hbrain (js "b2") _ _ eq_refl).
Defined.

(** X5, witness: the service accepts the deletion with a message, which is
    not read: [DELETE /brains/:id] answers 204 without a body. *)
Lemma a_brain_deletion_is_answered_204 :
  route (delete_brain a_host agreeable_service (js "b1")) (a_world tt)
  = ({| status := 204; body := None |},
     answered (bare_request DELETE (js "/brains/b1")) tt (a_world tt)).
Proof.
  destruct (a_deletion_is_answered_204_whatever_the_reply
              a_host agreeable_service (a_world tt)) as [Hbrain _].
  apply (Hbrain (js "b1") (JObj [(js "message", JStr (js "Successfully uploaded"))])).
  reflexivity.
Defined.

(** X6, witness: with the id [b1/documents/a%20b], [DELETE /brains/:id] does
    what [DELETE /brains/b1/documents/:name] does for the name [a b]. *)
Lemma a_brain_id_that_names_a_document :
  route (delete_brain a_host agreeable_service (js "b1/documents/a%20b")) (a_world tt)
  = route (delete_document a_host agreeable_service (js "b1") (js "a b")) (a_world tt).
Proof.
  destruct (a_brain_id_is_not_encoded a_host agreeable_service (a_world tt))
    as [_ Hdoc].
  apply (Hdoc (js "b1") (js "a b") (js "a%20b")). reflexivity.
Defined.

(** X7, witness: the names [a/b] and [a%2Fb] are sent to different paths. *)
Lemma a_slash_and_its_encoding_are_told_apart :
  exists u1 u2,
    sent (getDocument a_host agreeable_service (js "b1") (js "a/b") (a_world tt)).2
    = get_document_request u1 :: sent (a_world tt)
    /\ sent (getDocument a_host agreeable_service (js "b1") (js "a%2Fb")
               (a_world tt)).2
       = get_document_request u2 :: sent (a_world tt)
    /\ request_path u1 <> request_path u2.
Proof.
  apply distinct_names_are_sent_to_distinct_paths; try reflexivity;
    apply (bool_decide_unpack _); vm_compute; exact I.
Defined.

(** X8, witness: the service lists the file by its name; the answer lists
    its statistics, and keeps the message and the brain id. *)
Lemma the_answer_to_the_upload_of_a_pdf :
  exists props w',
    upload_handler a_host an_upload_service (js "b1") (Some [a_pdf]) (a_world tt)
    = (Return {| status := 201; body := Some (JObj props) |}, w')
    /\ prop (js "files") props
       = Some (JArr [file_stats_json (js "2024-01-20T10:00:00.000Z") a_pdf])
    /\ forall key, key <> js "files" ->
                   prop key props
                   = prop key [(js "message", JStr (js "Successfully uploaded 1 files"));
                               (js "files", JArr [JStr (js "notes.pdf")]);
                               (js "brain_id",
                                JStr (js "123e4567-e89b-12d3-a456-426614174000"))].
Proof.
  exact (the_answer_to_an_upload_lists_the_files a_host an_upload_service
           (js "b1") a_pdf [] _ tt (a_world tt) eq_refl).
Defined.

(** X9, witness: the answer to the upload of a PDF, read with
    [FileUploadResponseSchema]. *)
Lemma the_answer_to_the_upload_of_a_pdf_fits_its_schema :
  exists answer w',
    upload_handler a_host an_upload_service (js "b1") (Some [a_pdf]) (a_world tt)
    = (Return {| status := 201; body := Some answer |}, w')
    /\ parse (FileUploadResponseSchema a_host) (Some answer)
       = inr {| fu_message := js "Successfully uploaded 1 files";
                fu_files := [file_stats (js "2024-01-20T10:00:00.000Z") a_pdf];
                fu_brain_id := js "123e4567-e89b-12d3-a456-426614174000" |}.
Proof.
  exact (the_answer_to_an_upload_fits_its_schema a_host an_upload_service
           (js "b1") a_pdf [] _ _ _ tt (a_world tt) eq_refl eq_refl eq_refl eq_refl).
Defined.

(** X10, witness: the body of the answer to an unexpected error, read with
    [ErrorResponseSchema] *)
Lemma the_body_of_an_unexpected_error :
  exists r data,
    errorHandler (Error (js "File too large")) (a_world tt)
    = (Return r, logged (js "Unhandled error:") (a_world tt))
    /\ body r = Some data
    /\ parse (ErrorResponseSchema a_host) (Some data)
       = inr {| er_error := js "Internal server error";
                er_detail := None; er_request_id := None |}.
Proof.
  exact (the_error_bodies_fit_their_schema a_host (Error (js "File too large"))
           (a_world tt)).
Defined.

(** X11, witness: a reply to a query that has an answer and a time, and
    nothing else, is refused for want of [tokens_used]. *)
Lemma a_reply_to_a_query_without_tokens_used :
  exists issues,
    parse QueryResponseSchema
      (Some (JObj [(js "answer", JStr (js "Based on the uploaded documents..."));
                   (js "sources", JArr []);
                   (js "processing_time_ms", JNum (num 1234))]))
    = inl issues
    /\ issue invalid_type [Key (js "tokens_used")] ∈ issues.
Proof.
  apply (a_nullable_key_cannot_be_left_out a_host). reflexivity.
Defined.

(** X12, witness: a creation request with a name and a key the schema does
    not have is forwarded with the name and the defaults, and without the
    key. *)
Lemma a_creation_is_forwarded_with_the_defaults :
  sent (route (post_brain a_host a_registry
                 (Some (JObj [(js "name", JStr (js "Docs"));
                              (js "owner", JStr (js "someone"))])))
              (a_world tt)).2
  = [create_request docs_brain]
  /\ parse BrainCreateSchema (Some (BrainCreate_json docs_brain)) = inr docs_brain.
Proof.
  apply (proj1 (what_is_forwarded_is_the_value_read a_host a_registry (a_world tt))).
  reflexivity.
Defined.

(** X13, witness: [NOTES.PDF] is accepted. *)
Lemma a_name_in_upper_case_is_accepted :
  fileFilter a_host an_upper_case_pdf = inr true.
Proof.
  apply the_names_the_filter_accepts. split.
  - vm_compute. repeat constructor.
  - exists (js "NOTE"), 83, (js ".PDF"), []. split; [reflexivity|].
    split; [discriminate|]. split; [|constructor].
    vm_compute. repeat constructor.
Defined.

(** X14, witness: the file stored for [notes.pdf] has the extension [.pdf]. *)
Lemma the_stored_pdf_keeps_its_extension :
  extname (storage_filename 1700000000000 42 a_pdf) = js ".pdf".
Proof.
  apply (a_stored_file_keeps_its_extension 1700000000000 42 a_pdf).
  vm_compute. discriminate.
Defined.

(** X15, witness: the file stored for [notes.pdf] is named
    [notes-1700000000000-42.pdf]. *)
Lemma the_name_of_the_stored_pdf :
  exists stem,
    js "notes.pdf" = stem ++ js ".pdf"
    /\ storage_filename 1700000000000 42 a_pdf
       = stem ++ js "-" ++ js "1700000000000" ++ js "-" ++ js "42" ++ js ".pdf".
Proof.
  apply (the_name_of_a_stored_file 1700000000000 42 a_pdf).
  vm_compute. intros H. apply list_elem_of_In in H. cbn in H. intuition discriminate.
Defined.

(** X16, witness: a file that was in the upload directory is there after the
    upload of another. *)
Lemma an_older_file_stays :
  js "uploads/old-1600000000000-7.txt"
  ∈ disk (route (post_documents a_host agreeable_service all_late (js "b1") [a_pdf])
            (a_world_with_a_file (js "uploads/old-1600000000000-7.txt"))).2.
Proof.
  apply an_upload_leaves_the_other_files_alone.
  - apply elem_of_singleton. reflexivity.
  - rewrite paths_cons. intros H. apply elem_of_union in H as [H|H].
    + apply elem_of_singleton in H. vm_compute in H. discriminate.
    + apply elem_of_empty in H. exact H.
Defined.

(** X17, witness: a name that ends with the lone surrogate U+DC00 is not
    sent. *)
Lemma a_name_with_a_lone_surrogate_is_not_sent :
  getDocument a_host agreeable_service (js "b1") (js "notes" ++ [0xDC00]) (a_world tt)
  = (Throw (Error (js "URI malformed")), a_world tt)
  /\ deleteDocument a_host agreeable_service (js "b1") (js "notes" ++ [0xDC00])
       (a_world tt)
     = (Throw (Error (js "URI malformed")), a_world tt).
Proof.
  apply a_name_that_is_not_well_formed_is_not_sent.
  - change (js "notes" ++ [0xDC00]) with [110; 111; 116; 101; 115; 0xDC00].
    repeat (constructor; [lia|]). constructor.
  - reflexivity.
Defined.

(** X18, witness: an empty question and a temperature of 2 are both
    reported. *)
Lemma an_empty_question_is_told_why :
  exists issues,
    parse QueryRequestSchema
      (Some (JObj [(js "question", JStr []); (js "temperature", JNum (num 2))]))
    = inl issues
    /\ issues <> []
    /\ Forall (located ["question"; "max_tokens"; "temperature"]%string) issues.
Proof.
  eexists. split; [reflexivity|].
  apply (proj2 (a_refused_request_is_told_why
                  (Some (JObj [(js "question", JStr []);
                               (js "temperature", JNum (num 2))])) _)).
  reflexivity.
Defined.

(** A name that is an extension and nothing else is refused; a name with
    a slash behind its extension is accepted. *)
Example a_bare_extension_is_refused :
  fileFilter a_host
             {| fieldname := js "files"; originalname := js ".pdf";
                mimetype := js "application/pdf"; size := 1; path_ := [] |}
  = inl (Error (js "File type not allowed: . Allowed types: .pdf, .txt, .md, .doc, .docx, .csv, .json")).
Proof. vm_compute. reflexivity. Qed.

Example a_slash_behind_the_extension_is_accepted :
  fileFilter a_host
             {| fieldname := js "files"; originalname := js "notes.pdf/";
                mimetype := js "application/pdf"; size := 1; path_ := [] |}
  = inr true.
Proof. vm_compute. reflexivity. Qed.
